(** * A model of the drawing server's persistence and room protocol

    The development embeds the backend of the collaborative drawing
    application (the single server file: JSON-file persistence, the
    optional document-store persistence, input sanitation and the socket
    event handlers) and proves the properties its specification states.

    Conventions of the embedding.
    - A JavaScript string is a [string]; every [ascii] stands for one code
      unit below 256.
    - A JavaScript number is an integer [Z]; the server's own code never
      inspects a coordinate, so nothing depends on their being floats.
    - What the libraries do with a value is taken from the environment
      where the server's code does not fix it: the cast of the
      object-document mapper, the string form of a number, the clock.
    - A value received from a socket or read back from a file is a [json]
      value; [JSON.parse (JSON.stringify v)] is taken to be [v].
    - Handlers are run to completion one after the other: the interleaving
      of asynchronous handlers at their await points is not modelled. *)

From stdpp Require Import gmap strings list pretty sorting.
From Stdlib Require Import ZArith Ascii String.

Set Warnings "-register-all".

Open Scope string_scope.
Open Scope Z_scope.
Open Scope nat_scope.
Open Scope list_scope.

(** ** JSON values *)

Module Json.

Inductive json : Type :=
  | JNull
  | JBool (b : bool)
  | JNum (n : Z)
  | JStr (s : string)
  | JArr (items : list json)
  | JObj (fields : list (string * json)).

(** [obj.key] on a plain object: the binding of [key], [None] for
    [undefined]. *)
Fixpoint field (key : string) (fields : list (string * json)) : option json :=
  match fields with
  | [] => None
  | (k, v) :: rest => if decide (k = key) then Some v else field key rest
  end.

(** The truthiness of a value, as [||] and [if] see it. *)
Definition truthy (v : json) : bool :=
  match v with
  | JNull => false
  | JBool b => b
  | JNum n => negb (Z.eqb n 0)
  | JStr s => negb (String.eqb s "")
  | JArr _ | JObj _ => true
  end.

Definition isArray (v : json) : bool :=
  match v with JArr _ => true | _ => false end.

(** Structural equality, used where the store matches a document on a field
    value. *)
Fixpoint eqb (a b : json) {struct a} : bool :=
  match a, b with
  | JNull, JNull => true
  | JBool x, JBool y => Bool.eqb x y
  | JNum x, JNum y => Z.eqb x y
  | JStr x, JStr y => String.eqb x y
  | JArr xs, JArr ys =>
      (fix all2 (l1 l2 : list json) {struct l1} : bool :=
         match l1, l2 with
         | [], [] => true
         | x :: l1', y :: l2' => eqb x y && all2 l1' l2'
         | _, _ => false
         end) xs ys
  | JObj xs, JObj ys =>
      (fix all2 (l1 l2 : list (string * json)) {struct l1} : bool :=
         match l1, l2 with
         | [], [] => true
         | (k1, x) :: l1', (k2, y) :: l2' =>
             String.eqb k1 k2 && eqb x y && all2 l1' l2'
         | _, _ => false
         end) xs ys
  | _, _ => false
  end.

End Json.
Import Json.

(** ** Characters and strings *)

Module Chars.

Definition code (c : ascii) : nat := nat_of_ascii c.

Definition between (lo hi : ascii) (c : ascii) : bool :=
  (code lo <=? code c) && (code c <=? code hi).

Definition is_lower : ascii → bool := between "a" "z".
Definition is_upper : ascii → bool := between "A" "Z".
Definition is_digit : ascii → bool := between "0" "9".
Definition is_char (x : ascii) (c : ascii) : bool := code c =? code x.

(** White space and line terminators removed by [String.prototype.trim],
    among the code units below 256: TAB, LF, VT, FF, CR, SP and NBSP. *)
Definition is_js_space (c : ascii) : bool :=
  (code c =? 9) || (code c =? 10) || (code c =? 11) || (code c =? 12)
  || (code c =? 13) || (code c =? 32) || (code c =? 160).

(** The class [[a-zA-Z0-9_-]] of [sanitizeRoom]. *)
Definition room_char (c : ascii) : bool :=
  is_lower c || is_upper c || is_digit c || is_char "_" c || is_char "-" c.

(** The class [[a-zA-Z0-9 _-]] of [sanitizeName] (a space is allowed). *)
Definition name_char (c : ascii) : bool :=
  is_lower c || is_upper c || is_digit c || is_char " " c
  || is_char "_" c || is_char "-" c.

(** Case folding of a regular expression with the [i] flag and without the
    [u] flag: a lower-case ASCII letter is compared through its upper-case
    form; no code unit from 128 on folds to an ASCII one. *)
Definition canonicalize (c : ascii) : ascii :=
  if is_lower c then ascii_of_nat (code c - 32) else c.

(** The class [[a-z0-9_-]] of [snapshotFile], matched with the [i] flag:
    the folded character is compared with the folded members of the
    class. *)
Definition file_char (c : ascii) : bool :=
  let u := canonicalize c in
  is_upper u || is_digit u || is_char "_" u || is_char "-" u.

(** A character that is not the path separator. *)
Definition plain_char (c : ascii) : bool := negb (is_char "/" c).

End Chars.
Import Chars.

Module Str.

Fixpoint all (p : ascii → bool) (s : string) : bool :=
  match s with
  | EmptyString => true
  | String c s' => p c && all p s'
  end.

(** [s.replace(/[^class]/g, by)] for a one-character class test [keep]. *)
Fixpoint replace_outside (keep : ascii → bool) (by_ : ascii) (s : string) : string :=
  match s with
  | EmptyString => EmptyString
  | String c s' =>
      String (if keep c then c else by_) (replace_outside keep by_ s')
  end.

Fixpoint trimStart (s : string) : string :=
  match s with
  | EmptyString => EmptyString
  | String c s' => if is_js_space c then trimStart s' else s
  end.

Fixpoint trimEnd (s : string) : string :=
  match s with
  | EmptyString => EmptyString
  | String c s' =>
      match trimEnd s' with
      | EmptyString => if is_js_space c then EmptyString else String c EmptyString
      | t => String c t
      end
  end.

Definition trim (s : string) : string := trimEnd (trimStart s).

(** [s.slice(0, n)]. *)
Definition slice0 (n : nat) (s : string) : string := String.substring 0 n s.

Definition startsWith (p s : string) : bool := String.prefix p s.

Definition endsWith (p s : string) : bool :=
  String.prefix (String.rev p) (String.rev s).

(** [s.split(sep)] for a one-character separator: never the empty list. *)
Fixpoint split (sep : ascii) (s : string) : list string :=
  match s with
  | EmptyString => [EmptyString]
  | String c s' =>
      if is_char sep c then EmptyString :: split sep s'
      else match split sep s' with
           | h :: t => String c h :: t
           | [] => [String c EmptyString]
           end
  end.

End Str.

(** ** Input validation *)

(** [/^[a-zA-Z0-9_-]{1,64}$/.test(v)]: without the [m] flag [$] matches at
    the very end of the input only. *)
Definition room_pattern (v : string) : bool :=
  (1 <=? String.length v) && (String.length v <=? 64) && Str.all room_char v.

(** [sanitizeRoom]. The argument is [String(input || '')]: the raw input
    already coerced to a string, the empty string for a missing one. *)
Definition sanitizeRoom (input : string) : string :=
  let v := Str.trim input in
  if String.eqb v "" then "lobby"
  else if negb (room_pattern v) then "lobby"
  else v.

(** [sanitizeName]. [now_iso] is the value [new Date().toISOString()] would
    have at the call. *)
Definition sanitizeName (now_iso : string) (input : string) : string :=
  let v := Str.trim input in
  if String.eqb v "" then now_iso
  else Str.slice0 100 (Str.replace_outside name_char "_" v).

(** ** Paths *)

Module Path.

(** An absolute, normalised path: its components from the root. *)
Definition path := list string.

(** One segment of the normalisation done by [path.join]: empty and [.]
    segments disappear, [..] removes the component before it (and stays at
    the root when there is none). *)
Definition norm_step (acc : path) (seg : string) : path :=
  if decide (seg = "") then acc
  else if decide (seg = ".") then acc
  else if decide (seg = "..") then removelast acc
  else acc ++ [seg].

(** [path.join(base, rel)] for a normalised absolute [base] (POSIX). *)
Definition join (base : path) (rel : string) : path :=
  fold_left norm_step (Str.split "/" rel) base.

End Path.
Import Path.


(** ** The world a handler runs in *)

Inductive error : Type :=
  | TypeError     (* a property read on null or undefined, a call of a non-function,
                     a value with no primitive form *)
  | SyntaxError   (* JSON.parse on a text that is not JSON *)
  | IOError       (* a failing fs call *)
  | CastError.    (* a value the object-document mapper cannot cast to its path *)

Inductive result (A : Type) : Type :=
  | Ok (a : A)
  | Throw (e : error).
Arguments Ok {A} a.
Arguments Throw {A} e.

(** What the server itself serialises into a file: an array of received
    values (a room log) or a snapshot object [{room, name, data,
    createdAt}] whose [data] is whatever [loadStrokes] returned. A file with
    any other content is modelled as [Garbage] when it does not parse;
    JSON texts of other shapes are outside the model. *)
Inductive stored : Type :=
  | SArr (items : list json)
  | SSnap (room name : string) (data : stored) (createdAt : Z).

Inductive file : Type :=
  | Text (v : stored)   (* readable, the text is JSON.stringify v *)
  | Garbage             (* readable, JSON.parse rejects the text *)
  | Unreadable.         (* present, reading it fails *)

Fixpoint to_json (v : stored) : json :=
  match v with
  | SArr items => JArr items
  | SSnap room name data createdAt =>
      JObj [("room", JStr room); ("name", JStr name);
            ("data", to_json data); ("createdAt", JNum createdAt)]
  end.

(** A document of the Stroke collection. *)
Record strokeDoc : Type := StrokeDoc {
  doc_id : nat;
  doc_room : string;
  doc_strokeId : json;
  doc_points : list json;
  doc_createdAt : Z
}.

(** A message put on the wire: receiving socket, event name, payload. *)
Record emission : Type := Emission {
  em_to : string;
  em_event : string;
  em_payload : json
}.

Record world : Type := World {
  files : gmap path file;          (* the file system *)
  console : list string;           (* lines written by console.error *)
  strokes : list strokeDoc;        (* the Stroke collection, in insertion order *)
  next_oid : nat;                  (* next fresh document id *)
  ticks : nat;                     (* clock readings taken so far *)
  sockets : list (string * string);(* connected sockets: id and joined room *)
  outbox : list emission           (* everything emitted so far, oldest first *)
}.

Definition set_files (f : gmap path file → gmap path file) (w : world) : world :=
  World (f (files w)) (console w) (strokes w) (next_oid w) (ticks w) (sockets w) (outbox w).
Definition set_console (f : list string → list string) (w : world) : world :=
  World (files w) (f (console w)) (strokes w) (next_oid w) (ticks w) (sockets w) (outbox w).
Definition set_strokes (f : list strokeDoc → list strokeDoc) (w : world) : world :=
  World (files w) (console w) (f (strokes w)) (next_oid w) (ticks w) (sockets w) (outbox w).
Definition set_next_oid (f : nat → nat) (w : world) : world :=
  World (files w) (console w) (strokes w) (f (next_oid w)) (ticks w) (sockets w) (outbox w).
Definition set_ticks (f : nat → nat) (w : world) : world :=
  World (files w) (console w) (strokes w) (next_oid w) (f (ticks w)) (sockets w) (outbox w).
Definition set_sockets (f : list (string * string) → list (string * string)) (w : world) : world :=
  World (files w) (console w) (strokes w) (next_oid w) (ticks w) (f (sockets w)) (outbox w).
Definition set_outbox (f : list emission → list emission) (w : world) : world :=
  World (files w) (console w) (strokes w) (next_oid w) (ticks w) (sockets w) (f (outbox w)).

Definition empty_world : world := World ∅ [] [] 0 0 [] [].

(** What the process is started with, and the library behaviour the
    server's own code does not fix. The object-document mapper casts what
    it is given to the schemas of [setupMongo]: [castPoint] is what it
    stores for an object pushed onto [points] (the point schema declares
    [x], [y], [type], [color], [width] and [order]), [castId] what it makes
    of a strokeId that is not a string on the [String] path of the filter;
    [None] is a cast that fails. *)
Record env : Type := Env {
  dirname : path;               (* __dirname *)
  clock : nat → Z;              (* the n-th reading of Date.now() *)
  toISOString : Z → string;     (* new Date(t).toISOString() *)
  write_fails : path → bool;    (* writeFileSync to this path throws *)
  useMongo : bool;              (* set once by setupMongo *)
  castPoint : json → option json; (* a pushed point, cast through the point schema *)
  castId : json → option json;  (* a strokeId that is not a string, cast to String *)
  numberToString : Z → string   (* String(n) for a number n *)
}.

(** ** A state and exception monad for handler code *)

Definition M (A : Type) : Type := world → result A * world.

Definition ret {A} (a : A) : M A := λ w, (Ok a, w).
Definition throw {A} (e : error) : M A := λ w, (Throw e, w).
Definition bind {A B} (m : M A) (k : A → M B) : M B :=
  λ w, match m w with
       | (Ok a, w') => k a w'
       | (Throw e, w') => (Throw e, w')
       end.
(** [try { m } catch (e) { h e }]: what [m] did before throwing stays done. *)
Definition try_catch {A} (m : M A) (h : error → M A) : M A :=
  λ w, match m w with
       | (Ok a, w') => (Ok a, w')
       | (Throw e, w') => h e w'
       end.
Definition gets {A} (f : world → A) : M A := λ w, (Ok (f w), w).
Definition modify (f : world → world) : M unit := λ w, (Ok tt, f w).

Notation "'let*' x ':=' m 'in' k" := (bind m (λ x, k))
  (at level 10, x name, m at level 100, k at level 200, only parsing).
Notation "m ;;; k" := (bind m (λ _, k))
  (at level 20, k at level 200, only parsing).

(** [for (const x of xs) body x]. *)
Fixpoint for_of {A} (xs : list A) (body : A → M unit) : M unit :=
  match xs with
  | [] => ret tt
  | x :: rest => body x ;;; for_of rest body
  end.

Definition value {A} (r : result A * world) : result A := fst r.
Definition after {A} (r : result A * world) : world := snd r.

(** ** File persistence *)

(** The text of a readable file. *)
Definition parse (f : file) : result stored :=
  match f with
  | Text v => Ok v
  | Garbage => Throw SyntaxError
  | Unreadable => Throw IOError
  end.

Section FileStore.
Context (E : env).

Definition dataDir : path := join (dirname E) "data".
Definition snapshotsDir : path := join (dirname E) "snapshots".

(** [fs.existsSync]: never throws. *)
Definition existsSync (f : path) : M bool :=
  gets (λ w, bool_decide (is_Some (files w !! f))).

(** [JSON.parse(fs.readFileSync(f, 'utf-8'))]: throws when the file is
    absent or unreadable (the read) or when its text is not JSON (the
    parse). *)
Definition readJson (f : path) : M stored :=
  λ w, match files w !! f with
       | None => (Throw IOError, w)
       | Some c => (parse c, w)
       end.

(** [fs.writeFileSync(f, JSON.stringify(v))]: a failing write throws and
    leaves the file as it was. *)
Definition writeJson (f : path) (v : stored) : M unit :=
  if write_fails E f then throw IOError
  else modify (set_files (λ fs, <[f := Text v]> fs)).

(** The names of the files directly inside [dir], as [fs.readdirSync]
    lists them. *)
Definition entry_of (dir : path) (p : path) : option string :=
  match last p with
  | Some n => if decide (p = dir ++ [n]) then Some n else None
  | None => None
  end.

Definition readdirSync (dir : path) : M (list string) :=
  gets (λ w, omap (λ kv, entry_of dir (fst kv)) (map_to_list (files w))).

Definition console_error (msg : string) : M unit :=
  modify (set_console (λ l, l ++ [msg])).

(** [Date.now()]. *)
Definition Date_now : M Z :=
  λ w, (Ok (clock E (ticks w)), set_ticks S w).

Definition fileForRoom (room : string) : path :=
  join dataDir (room +:+ ".json").

(** The lines the two catch blocks log. *)
Definition load_msg (room : string) : string :=
  "Failed to load strokes for room " +:+ room.
Definition save_msg (room : string) : string :=
  "Failed to save strokes for room " +:+ room.

Definition loadStrokes (room : string) : M stored :=
  try_catch
    (let f := fileForRoom room in
     let* present := existsSync f in
     if negb present then ret (SArr [])
     else readJson f)
    (λ e, console_error (load_msg room) ;;; ret (SArr [])).

Definition saveStrokes (room : string) (items : list json) : M unit :=
  try_catch
    (writeJson (fileForRoom room) (SArr items))
    (λ e, console_error (save_msg room)).

(** [strokes.push(stroke)] exists on an array only. *)
Definition appendStroke (room : string) (stroke : json) : M unit :=
  let* loaded := loadStrokes room in
  match loaded with
  | SArr items => saveStrokes room (items ++ [stroke])
  | SSnap _ _ _ _ => throw TypeError
  end.

(** [p.type === 'start'] for an element [p] of the log: reading a property
    of [null] throws, every other value that is not an object has no
    [type]. *)
Definition type_is_start (p : json) : M bool :=
  match p with
  | JNull => throw TypeError
  | JObj fs =>
      ret (match field "type" fs with
           | Some (JStr t) => String.eqb t "start"
           | _ => false
           end)
  | _ => ret false
  end.

(** The loop of [removeLastStroke] with [k = i + 1]: it looks at
    [items[i]] for [i = k - 1] down to [0]. *)
Fixpoint removeLastStroke_loop (room : string) (items : list json) (k : nat)
  : M (list json) :=
  match k with
  | O => saveStrokes room [] ;;; ret []
  | S i =>
      match items !! i with
      | None => throw TypeError
      | Some p =>
          let* is_start := type_is_start p in
          if is_start then
            let newArr := take i items in
            saveStrokes room newArr ;;; ret newArr
          else removeLastStroke_loop room items i
      end
  end.

(** A snapshot object has no [length]: the loop condition is false at
    once. *)
Definition removeLastStroke (room : string) : M (list json) :=
  let* loaded := loadStrokes room in
  match loaded with
  | SArr items => removeLastStroke_loop room items (List.length items)
  | SSnap _ _ _ _ => saveStrokes room [] ;;; ret []
  end.

(** *** Snapshot files *)

Definition snapshotFile (room name : string) : path :=
  let safe := Str.replace_outside file_char "_" name in
  join snapshotsDir (room +:+ "__" +:+ safe +:+ ".json").

Definition saveSnapshotFile (room name : string) : M (string * string * path) :=
  let* data := loadStrokes room in
  let* label := (if String.eqb name ""
                 then let* t := Date_now in ret (toISOString E t)
                 else ret name) in
  let f := snapshotFile room label in
  let* createdAt := Date_now in
  writeJson f (SSnap room name data createdAt) ;;;
  ret (room, name, f).

(** [{ room: raw.room, name: raw.name, createdAt: raw.createdAt }]; [None]
    when [raw] is an array, whose three properties are all undefined. *)
Definition snapshot_meta (raw : stored) : option (string * string * Z) :=
  match raw with
  | SSnap room name _ createdAt => Some (room, name, createdAt)
  | SArr _ => None
  end.

Fixpoint map_M {A B} (f : A → M B) (xs : list A) : M (list B) :=
  match xs with
  | [] => ret []
  | x :: rest => let* y := f x in let* ys := map_M f rest in ret (y :: ys)
  end.

Definition listSnapshotsFile (room : string) : M (list (option (string * string * Z))) :=
  let* names := readdirSync snapshotsDir in
  let mine := List.filter (λ f, Str.startsWith (room +:+ "__") f
                                && Str.endsWith ".json" f) names in
  map_M (λ f, let* raw := readJson (join snapshotsDir f) in ret (snapshot_meta raw)) mine.

(** [raw.data || []]: the data of a snapshot object is an array or an
    object, hence truthy; an array has no [data]. [None] is [null]. *)
Definition loadSnapshotFile (room name : string) : M (option stored) :=
  let f := snapshotFile room name in
  let* present := existsSync f in
  if negb present then ret None
  else
    let* raw := readJson f in
    ret (Some (match raw with
               | SSnap _ _ data _ => data
               | SArr _ => SArr []
               end)).

(** *** The REST handlers, with [useMongo = false]

    [get_snapshots], [post_snapshots] and [get_snapshot] are the handlers
    from the point where the room and the name are strings: the value
    [String(input || '')] of what the request carries (the empty string
    for a missing one: [x || 'lobby'] and [sanitizeRoom] both send it to
    ["lobby"]). A route parameter is a string, and the query parser yields
    strings and arrays and objects of strings without own [toString], so
    for the two GET handlers the conversion cannot throw. The body of a
    POST is any JSON value: [post_snapshots_request] below is the whole
    POST handler, conversion included. [sanitizeName] reads the clock only
    when the trimmed name is empty. The rate limiter in front of the
    handlers is left out. *)

Inductive response : Type :=
  | RespList (l : list (option (string * string * Z)))
  | RespSaved (meta : string * string * path)
  | RespData (v : stored)
  | Resp404
  | Resp500.

Definition get_snapshots (room_param : string) : M response :=
  let room := sanitizeRoom room_param in
  try_catch (let* l := listSnapshotsFile room in ret (RespList l))
            (λ e, ret Resp500).

Definition post_snapshots (room_field name_field : string) : M response :=
  let room := sanitizeRoom room_field in
  let* now := (if String.eqb (Str.trim name_field) "" then Date_now else ret 0%Z) in
  let name := sanitizeName (toISOString E now) name_field in
  try_catch (let* r := saveSnapshotFile room name in ret (RespSaved r))
            (λ e, ret Resp500).

Definition get_snapshot (room_param idOrName : string) : M response :=
  let room := sanitizeRoom room_param in
  let* now := (if String.eqb (Str.trim idOrName) "" then Date_now else ret 0%Z) in
  let key := sanitizeName (toISOString E now) idOrName in
  try_catch (let* data := loadSnapshotFile room key in
             match data with
             | None => ret Resp404
             | Some v => ret (RespData v)
             end)
            (λ e, ret Resp500).

(** [String(v)] for a value parsed from JSON. An array is joined with
    commas, [null] elements giving the empty string. An object takes
    [toString] from [Object.prototype] and gives ["[object Object]"],
    unless it has a property [toString] of its own: that one is not a
    function, [valueOf] gives no primitive either, and the conversion
    throws. *)
Fixpoint js_String (v : json) {struct v} : result string :=
  match v with
  | JNull => Ok "null"
  | JBool b => Ok (if b then "true" else "false")
  | JNum n => Ok (numberToString E n)
  | JStr s => Ok s
  | JArr items =>
      (fix join (l : list json) {struct l} : result string :=
         match l with
         | [] => Ok ""
         | x :: rest =>
             match (match x with JNull => Ok "" | _ => js_String x end) with
             | Throw e => Throw e
             | Ok a =>
                 match rest with
                 | [] => Ok a
                 | _ :: _ =>
                     match join rest with
                     | Ok b => Ok (a +:+ "," +:+ b)
                     | Throw e => Throw e
                     end
                 end
             end
         end) items
  | JObj fs =>
      match field "toString" fs with
      | Some _ => Throw TypeError
      | None => Ok "[object Object]"
      end
  end.

(** [String(input || '')], the first line of both sanitizers; [None] is
    [undefined]. *)
Definition String_or_empty (input : option json) : result string :=
  match input with
  | Some v => if truthy v then js_String v else Ok ""
  | None => Ok ""
  end.

(** [req.body && req.body.key]: a property of an object; an array, a
    string or a number has no such property, and a falsy body is falsy. *)
Definition body_field (body : json) (key : string) : option json :=
  match body with
  | JObj fs => field key fs
  | _ => None
  end.

(** [x || 'lobby']. *)
Definition or_lobby (x : option json) : json :=
  match x with
  | Some v => if truthy v then v else JStr "lobby"
  | None => JStr "lobby"
  end.

Definition lift {A} (r : result A) : M A := λ w, (r, w).

(** The POST handler on the parsed body: both sanitizers run before the
    [try], and begin by converting their argument to a string. *)
Definition post_snapshots_request (body : json) : M response :=
  let* room_field := lift (String_or_empty (Some (or_lobby (body_field body "room")))) in
  let* name_field := lift (String_or_empty (body_field body "name")) in
  post_snapshots room_field name_field.

End FileStore.

(** ** Object literals with a spread *)

Module Obj.

(** [obj[key] = v] on the field list: an existing key keeps its place. *)
Fixpoint set_field (key : string) (v : json) (fs : list (string * json))
  : list (string * json) :=
  match fs with
  | [] => [(key, v)]
  | (k, x) :: rest =>
      if decide (k = key) then (k, v) :: rest
      else (k, x) :: set_field key v rest
  end.

Fixpoint indexed {A} (f : A → json) (i : nat) (xs : list A) : list (string * json) :=
  match xs with
  | [] => []
  | x :: rest => (pretty i, f x) :: indexed f (S i) rest
  end.

(** The own enumerable properties copied by [{...v}]: the fields of an
    object, the indexed elements of an array or of a string, nothing for
    null, a number or a boolean. *)
Definition spread (v : json) : list (string * json) :=
  match v with
  | JObj fs => fs
  | JArr items => indexed id 0 items
  | JStr s => indexed (λ c, JStr (String c EmptyString)) 0 (list_ascii_of_string s)
  | JNull | JBool _ | JNum _ => []
  end.

End Obj.

(** ** Document-store persistence

    The Stroke collection is the list of its documents in insertion
    order. A database call returns at once and fails only when a value
    does not cast to its schema path. The filter and the update of
    [updateOne] are cast before anything is written: the strokeId of the
    filter to a string, the pushed point through the point schema, which
    keeps the declared fields only. What is stored, and what [lean]
    queries return, is the cast point. *)

Section MongoStore.
Context (E : env).

(** Stable insertion sorts on [createdAt]. The store does not fix the
    order of documents with equal keys; the model keeps them in insertion
    order. *)
Fixpoint insert_asc (d : strokeDoc) (l : list strokeDoc) : list strokeDoc :=
  match l with
  | [] => [d]
  | x :: rest =>
      if (doc_createdAt d <=? doc_createdAt x)%Z then d :: l
      else x :: insert_asc d rest
  end.

Definition sort_asc (l : list strokeDoc) : list strokeDoc :=
  foldr insert_asc [] l.

Fixpoint insert_desc (d : strokeDoc) (l : list strokeDoc) : list strokeDoc :=
  match l with
  | [] => [d]
  | x :: rest =>
      if (doc_createdAt x <=? doc_createdAt d)%Z then d :: l
      else x :: insert_desc d rest
  end.

Definition sort_desc (l : list strokeDoc) : list strokeDoc :=
  foldr insert_desc [] l.

Definition in_room (room : string) (d : strokeDoc) : bool :=
  String.eqb (doc_room d) room.

Definition matches (room : string) (strokeId : json) (d : strokeDoc) : bool :=
  in_room room d && Json.eqb (doc_strokeId d) strokeId.

(** The cast of a value to the [String] path [strokeId]: a string is
    itself. *)
Definition castString (v : json) : option json :=
  match v with
  | JStr s => Some (JStr s)
  | _ => castId E v
  end.

(** [{ ...pt, order: t }]. *)
Definition stamp (t : Z) (pt : json) : json :=
  JObj (Obj.set_field "order" (JNum t) (Obj.spread pt)).

(** [StrokeModel.find({ room }).sort({ createdAt: 1 })], then the points
    of every stroke pushed in turn. *)
Definition mongoLoadAllPoints (room : string) : M (list json) :=
  let* found := gets (λ w, sort_asc (List.filter (in_room room) (strokes w))) in
  ret (List.concat (map doc_points found)).

(** [$push] on the first document that matches. *)
Fixpoint push_first (room : string) (strokeId pt : json) (l : list strokeDoc)
  : option (list strokeDoc) :=
  match l with
  | [] => None
  | d :: rest =>
      if matches room strokeId d then
        Some (StrokeDoc (doc_id d) (doc_room d) (doc_strokeId d)
                        (doc_points d ++ [pt]) (doc_createdAt d) :: rest)
      else cons d <$> push_first room strokeId pt rest
  end.

(** [updateOne] with [upsert]: the pushed point is [{ ...pt, order:
    Date.now() }]; a new document gets [createdAt: new Date()]. Both
    readings are taken when the update is built. The call is rejected
    with a cast error, nothing written, when the strokeId or the point
    does not cast. *)
Definition mongoAppendPoint (room : string) (strokeId pt : json) : M unit :=
  let* order := Date_now E in
  let* created := Date_now E in
  match castString strokeId, castPoint E (stamp order pt) with
  | Some key, Some point =>
      let* docs := gets strokes in
      match push_first room key point docs with
      | Some docs' => modify (set_strokes (λ _, docs'))
      | None =>
          let* oid := gets next_oid in
          modify (set_next_oid S) ;;;
          modify (set_strokes (λ l, l ++ [StrokeDoc oid room key [point] created]))
      end
  | _, _ => throw CastError
  end.

Definition mongoClear (room : string) : M unit :=
  modify (set_strokes (List.filter (λ d, negb (in_room room d)))).

(** [deleteOne({ _id })]: the first document with that id. *)
Fixpoint delete_first (oid : nat) (l : list strokeDoc) : list strokeDoc :=
  match l with
  | [] => []
  | d :: rest => if doc_id d =? oid then rest else d :: delete_first oid rest
  end.

Definition mongoUndo (room : string) : M (list json) :=
  let* last := gets (λ w, head (sort_desc (List.filter (in_room room) (strokes w)))) in
  match last with
  | None => ret []
  | Some d =>
      modify (set_strokes (delete_first (doc_id d))) ;;;
      mongoLoadAllPoints room
  end.

End MongoStore.

(** ** The room event router *)

Section Router.
Context (E : env).

(** The sockets in a room, each once: those that joined it at connection
    and, the library keeping every socket in the room named by its own
    id, the socket whose id is the room's name. *)
Definition members (room : string) (w : world) : list string :=
  map fst (List.filter (λ s, String.eqb (snd s) room || String.eqb (fst s) room)
             (sockets w)).

Definition emit_to (ids : list string) (ev : string) (args : json) : M unit :=
  modify (set_outbox (λ o, o ++ map (λ i, Emission i ev args) ids)).

(** [socket.emit(ev, args)]: to this socket only. *)
Definition socket_emit (id ev : string) (args : json) : M unit :=
  emit_to [id] ev args.

(** [socket.to(room).emit(ev, args)]: to the room, the sender left out. *)
Definition socket_to_emit (id room ev : string) (args : json) : M unit :=
  let* ids := gets (members room) in
  emit_to (List.filter (λ i, negb (String.eqb i id)) ids) ev args.

(** [io.to(room).emit(ev, args)]: to the whole room. *)
Definition io_to_emit (room ev : string) (args : json) : M unit :=
  let* ids := gets (members room) in
  emit_to ids ev args.

(** The [connection] handler: [raw] is [socket.handshake.query.room],
    [None] when the query has no room (the destructuring default is
    ['lobby']). *)
Definition on_connection (id : string) (raw : option string) : M unit :=
  let rawRoom := default "lobby" raw in
  let room := sanitizeRoom rawRoom in
  modify (set_sockets (λ l, l ++ [(id, room)])) ;;;
  let* history :=
    (if useMongo E then let* pts := mongoLoadAllPoints room in ret (JArr pts)
     else let* v := loadStrokes E room in ret (to_json v)) in
  socket_emit id "history" history.

(** [const { strokeId } = data]: destructuring null throws. *)
Definition strokeId_of (data : json) : M (option json) :=
  match data with
  | JNull => throw TypeError
  | JObj fs => ret (field "strokeId" fs)
  | _ => ret None
  end.

(** [strokeId || 'legacy']. *)
Definition or_legacy (strokeId : option json) : json :=
  match strokeId with
  | Some v => if truthy v then v else JStr "legacy"
  | None => JStr "legacy"
  end.

Definition on_draw (id room : string) (data : json) : M unit :=
  socket_to_emit id room "draw" data ;;;
  if useMongo E then
    let* strokeId := strokeId_of data in
    mongoAppendPoint E room (or_legacy strokeId) data
  else appendStroke E room data.

(** [clear] is emitted without a payload, written [JNull] here. *)
Definition on_clear (id room : string) : M unit :=
  socket_to_emit id room "clear" JNull ;;;
  if useMongo E then mongoClear room else saveStrokes E room [].

Definition on_undo (id room : string) : M unit :=
  let* history := (if useMongo E then mongoUndo room else removeLastStroke E room) in
  io_to_emit room "resetWithHistory" (JArr history).

Definition on_applySnapshot (id room : string) (history : json) : M unit :=
  match history with
  | JArr items =>
      (if useMongo E then
         mongoClear room ;;;
         for_of items (λ pt, mongoAppendPoint E room (JStr "snapshot") pt)
       else saveStrokes E room items) ;;;
      io_to_emit room "resetWithHistory" history
  | _ => ret tt
  end.

(** [{ id: socket.id, ...data }]. *)
Definition on_cursor (id room : string) (data : json) : M unit :=
  let payload :=
    fold_left (λ acc kv, Obj.set_field (fst kv) (snd kv) acc)
              (Obj.spread data) [("id", JStr id)] in
  socket_to_emit id room "cursor" (JObj payload).

Definition on_disconnect (id room : string) : M unit :=
  socket_to_emit id room "cursor:left" (JObj [("id", JStr id)]) ;;;
  modify (set_sockets (List.filter (λ s, negb (String.eqb (fst s) id)))).

(** What arrives at the server. *)
Inductive event : Type :=
  | Connection (id : string) (raw : option string)
  | Draw (id : string) (data : json)
  | Clear (id : string)
  | Undo (id : string)
  | ApplySnapshot (id : string) (history : json)
  | Cursor (id : string) (data : json)
  | Disconnect (id : string).

(** The room a connected socket was bound to by its [connection]
    handler. *)
Definition room_of (id : string) (w : world) : option string :=
  snd <$> List.find (λ s, String.eqb (fst s) id) (sockets w).

(** The handlers of a socket exist from its connection on: an event of a
    socket that is not connected reaches no handler. *)
Definition with_room (id : string) (h : string → M unit) : M unit :=
  let* r := gets (room_of id) in
  match r with
  | Some room => h room
  | None => ret tt
  end.

Definition handle (ev : event) : M unit :=
  match ev with
  | Connection id raw => on_connection id raw
  | Draw id data => with_room id (λ room, on_draw id room data)
  | Clear id => with_room id (λ room, on_clear id room)
  | Undo id => with_room id (λ room, on_undo id room)
  | ApplySnapshot id history => with_room id (λ room, on_applySnapshot id room history)
  | Cursor id data => with_room id (λ room, on_cursor id room data)
  | Disconnect id => with_room id (λ room, on_disconnect id room)
  end.

(** A handler that throws leaves a rejected promise behind; what it did
    before stays done. [step] and [run] go on with the next event, as a
    runtime that only reports the rejection does; on one that ends the
    process there, the server's run is a prefix of this one. *)
Definition step (w : world) (ev : event) : world := after (handle ev w).

Definition run (evs : list event) (w : world) : world := fold_left step evs w.

End Router.

(** ** Specification-level notions *)

(** A valid room key, in the words of the specification: 1 to 64
    characters, each a letter, a digit, an underscore or a hyphen. *)
Definition word_char (c : ascii) : Prop :=
  (code "a" ≤ code c ≤ code "z") ∨ (code "A" ≤ code c ≤ code "Z")
  ∨ (code "0" ≤ code c ≤ code "9") ∨ c = "_"%char ∨ c = "-"%char.

Definition valid_room (v : string) : Prop :=
  1 ≤ String.length v ≤ 64
  ∧ Forall word_char (list_ascii_of_string v).

(** A point that begins a stroke: an object whose [type] is ["start"]. *)
Definition is_start (p : json) : Prop :=
  ∃ fs, p = JObj fs ∧ field "type" fs = Some (JStr "start").

(** The log the file backend holds for a room: what [loadAll] returns. *)
Definition file_log (E : env) (room : string) (w : world) : result stored :=
  value (loadStrokes E room w).

(** ** Sample data *)

Module Sample.

(** The point schema of [setupMongo]: the declared fields and their
    types. *)
Inductive schemaType : Type := SNumber | SString.

Definition pointSchema : list (string * schemaType) :=
  [("x", SNumber); ("y", SNumber); ("type", SString); ("color", SString);
   ("width", SNumber); ("order", SNumber)].

Definition declared (k : string) : option schemaType :=
  snd <$> List.find (λ d, String.eqb (fst d) k) pointSchema.

Definition of_type (T : schemaType) (v : json) : bool :=
  match T, v with
  | SNumber, JNum _ => true
  | SString, JStr _ => true
  | _, _ => false
  end.

(** The mapper of the samples. An object whose declared fields hold
    values of their declared types, as every sample point is, is stored
    with its declared fields and without the others; the samples need
    nothing else, and this mapper refuses every other value. *)
Definition schema_cast (v : json) : option json :=
  match v with
  | JObj fs =>
      if forallb (λ kv, match declared (fst kv) with
                        | Some T => of_type T (snd kv)
                        | None => true
                        end) fs
      then Some (JObj (List.filter (λ kv, bool_decide (is_Some (declared (fst kv)))) fs))
      else None
  | _ => None
  end.

(** A server started in [/srv] with the file backend, and the same with
    the document store. *)
Definition E_file : env :=
  Env ["srv"] (λ n, Z.of_nat n) (λ _, "2025-01-01T00:00:00.000Z") (λ _, false) false
      schema_cast (λ _, None) pretty.
Definition E_mongo : env :=
  Env ["srv"] (λ n, Z.of_nat n) (λ _, "2025-01-01T00:00:00.000Z") (λ _, false) true
      schema_cast (λ _, None) pretty.

Definition point (type : string) (x y : Z) (strokeId : string) : json :=
  JObj [("x", JNum x); ("y", JNum y); ("type", JStr type);
        ("color", JStr "#000000"); ("width", JNum 5); ("strokeId", JStr strokeId)].

Definition s1_start : json := point "start" 0 0 "s1".
Definition s1_draw : json := point "draw" 5 5 "s1".
Definition s2_start : json := point "start" 1 1 "s2".
Definition s2_draw : json := point "draw" 2 2 "s2".

(** The file backend on a disk that refuses every write. *)
Definition E_readonly : env :=
  Env ["srv"] (λ n, Z.of_nat n) (λ _, "2025-01-01T00:00:00.000Z") (λ _, true) false
      schema_cast (λ _, None) pretty.

(** A world whose only file is the log of room [alpha]. *)
Definition with_log (items : list json) : world :=
  set_files (λ _, {[ fileForRoom E_file "alpha" := Text (SArr items) ]}) empty_world.

(** A world whose only file is a snapshot file that does not parse. *)
Definition with_broken_snapshot : world :=
  set_files (λ _, {[ snapshotFile E_file "lobby" "n" := Garbage ]}) empty_world.

End Sample.

(** The file name [snapshotFile] builds before it joins it to the
    directory. *)
Definition snapshot_name (room name : string) : string :=
  room +:+ "__" +:+ Str.replace_outside file_char "_" name +:+ ".json".

(** The operations on a room's live log, by the names of the
    specification, on the file backend: [append] is [appendStroke], [clear]
    and [replaceAll] are [saveStrokes] with the empty and with the given
    sequence, [undo] is [removeLastStroke]. *)
Inductive log_op : Type :=
  | OpAppend (room : string) (point : json)
  | OpClear (room : string)
  | OpUndo (room : string)
  | OpReplaceAll (room : string) (points : list json).

Definition op_room (op : log_op) : string :=
  match op with
  | OpAppend room _ | OpClear room | OpUndo room | OpReplaceAll room _ => room
  end.

Definition apply_op (E : env) (op : log_op) : M unit :=
  match op with
  | OpAppend room point => appendStroke E room point
  | OpClear room => saveStrokes E room []
  | OpUndo room => removeLastStroke E room ;;; ret tt
  | OpReplaceAll room points => saveStrokes E room points
  end.

Definition apply_ops (E : env) (ops : list log_op) (w : world) : world :=
  fold_left (λ w op, after (apply_op E op w)) ops w.

(** Every log file that can be read and parsed holds a sequence of
    points, none of them null. *)
Definition logs_are_points (E : env) (w : world) : Prop :=
  ∀ room v, files w !! fileForRoom E room = Some (Text v) →
    ∃ items, v = SArr items ∧ Forall (λ p, p ≠ JNull) items.

(** The stroke documents of a room, in insertion order. *)
Definition room_docs (room : string) (w : world) : list strokeDoc :=
  List.filter (in_room room) (strokes w).

(** The point an append made in world [w] stores, when the cast
    succeeds. *)
Definition stored_point (E : env) (pt : json) (w : world) : option json :=
  castPoint E (stamp (clock E (ticks w)) pt).

(** [m] is a stored form of the point [p]: the cast of [{ ...p, order: t }]
    for some reading [t] of the clock. *)
Definition stored_as (E : env) (m p : json) : Prop :=
  ∃ t, castPoint E (stamp t p) = Some m.

(** A point that casts whatever the time of the append, and one that
    never does. *)
Definition castable (E : env) (p : json) : Prop :=
  ∀ t, is_Some (castPoint E (stamp t p)).

Definition uncastable (E : env) (p : json) : Prop :=
  ∀ t, castPoint E (stamp t p) = None.

(** Document ids are unique and below the next fresh one. *)
Definition db_wf (w : world) : Prop :=
  NoDup (map doc_id (strokes w))
  ∧ Forall (λ d, doc_id d < next_oid w) (strokes w).

(** What the store holds for a room, read off the state: on the file
    backend the content of the room's log file, the empty sequence when
    there is none or it cannot be read or parsed; on the document store the
    points of the room's stroke documents, the documents in the order of
    their creation time (insertion order among equal times), the points
    of each in the order they were pushed. *)
Definition store_contents (E : env) (room : string) (w : world) : json :=
  if useMongo E then
    JArr (List.concat (map doc_points (sort_asc (room_docs room w))))
  else
    match files w !! fileForRoom E room with
    | Some (Text v) => to_json v
    | _ => JArr []
    end.

(** The field [k] of a point, and the fields [k] of the points of a
    log. *)
Definition point_field (k : string) (p : json) : option json :=
  match p with
  | JObj fs => field k fs
  | _ => None
  end.

Definition log_fields (k : string) (log : json) : list (option json) :=
  match log with
  | JArr pts => map (point_field k) pts
  | _ => []
  end.

(** What [loadAll] returns for a room on the backend in use. *)
Definition persisted_log (E : env) (room : string) (w : world) : result json :=
  if useMongo E then
    match value (mongoLoadAllPoints room w) with
    | Ok pts => Ok (JArr pts)
    | Throw e => Throw e
    end
  else
    match file_log E room w with
    | Ok v => Ok (to_json v)
    | Throw e => Throw e
    end.

(** Two worlds with the same sockets and the same messages sent. *)
Definition same_net (w w' : world) : Prop :=
  sockets w' = sockets w ∧ outbox w' = outbox w.

(** The messages a room-wide emit adds: one per member of the room. *)
Definition to_room (room ev : string) (args : json) (w : world) : list emission :=
  map (λ i, Emission i ev args) (members room w).

Module Scenario.
Import Sample.

(** The end-to-end scenario of the specification: A joins alpha and draws
    a stroke of two points, B joins, A undoes. *)
Definition before_undo : list event :=
  [Connection "A" (Some "alpha"); Draw "A" s1_start; Draw "A" s1_draw;
   Connection "B" (Some "alpha")].

Definition alpha : list event := before_undo ++ [Undo "A"].

(** Two strokes whose points interleave. *)
Definition interleaved : list event :=
  [Connection "A" (Some "alpha"); Connection "B" (Some "alpha");
   Draw "A" s1_start; Draw "B" s2_start; Draw "A" s1_draw].

(** A room with A and B connected, then two strokes drawn one after the
    other and the second one undone. *)
Definition two_joined : list event :=
  [Connection "A" (Some "alpha"); Connection "B" (Some "alpha")].

Definition one_after_the_other : list event :=
  [Draw "A" s1_start; Draw "A" s1_draw; Draw "B" s2_start; Undo "B"].

End Scenario.

(** ** The two backends side by side *)

(** The same process with the backend flag set. *)
Definition with_mongo (b : bool) (E : env) : env :=
  Env (dirname E) (clock E) (toISOString E) (write_fails E) b
      (castPoint E) (castId E) (numberToString E).

(** The points of one stroke as the file log holds them: a start point
    followed by points that are not start points, none of them null. *)
Definition stroke_shape (seg : list json) : Prop :=
  ∃ s tl, seg = s :: tl ∧ is_start s ∧ Forall (λ p, p ≠ JNull ∧ ¬ is_start p) tl.

(** A trace of draw, clear and undo events of one room in which every
    point casts and every stroke is contiguous: a start point opens a
    strokeId that no stored stroke of the room has, any other point
    carries the strokeId of the stroke opened last, strokeIds being
    compared as the store holds them, cast to strings. [open_ids] are the
    strokeIds stored so far, oldest first. *)
Fixpoint contiguous (E : env) (from_room : string → Prop) (open_ids : list json)
    (evs : list event) : Prop :=
  match evs with
  | [] => True
  | Draw id data :: rest =>
      from_room id
      ∧ castable E data
      ∧ ∃ fs key, data = JObj fs
          ∧ castString E (or_legacy (field "strokeId" fs)) = Some key
          ∧ ((is_start data
              ∧ (key ∉ open_ids)
              ∧ contiguous E from_room (open_ids ++ [key]) rest)
             ∨ (¬ is_start data
                ∧ last open_ids = Some key
                ∧ contiguous E from_room open_ids rest))
  | Clear id :: rest => from_room id ∧ contiguous E from_room [] rest
  | Undo id :: rest => from_room id ∧ contiguous E from_room (removelast open_ids) rest
  | _ => False
  end.

(** The file log [L] and the stroke documents [ds] of a room hold the same
    strokes: [L] is the concatenation of one segment per document, each
    the shape of a stroke, and the document's points are, one for one,
    stored forms of the segment's points. *)
Definition same_strokes (E : env) (ds : list strokeDoc) (L : list json) : Prop :=
  ∃ segs, L = List.concat segs
          ∧ Forall2 (λ d seg, Forall2 (stored_as E) (doc_points d) seg
                              ∧ stroke_shape seg)
                    ds segs.

(** The two worlds reached by the same events, the file backend in [wf]
    and the document store in [wm], hold the same strokes for the room;
    [ids] are the strokeIds of the stored documents, oldest first. *)
Definition backends_in_step (E : env) (room : string) (w0 : world)
    (ids : list json) (wf wm : world) : Prop :=
  sockets wf = sockets w0 ∧ sockets wm = sockets w0
  ∧ db_wf wm
  ∧ ∃ L ds,
      file_log E room wf = Ok (SArr L)
      ∧ room_docs room wm = ds
      ∧ map doc_strokeId ds = ids
      ∧ NoDup ids
      ∧ StronglySorted (λ a b, (doc_createdAt a < doc_createdAt b)%Z) ds
      ∧ Forall (λ d, ∃ k, k < ticks wm ∧ doc_createdAt d = clock E k) ds
      ∧ same_strokes E ds L.

(** ** The remaining parts of the server and of the client *)

(** *** The per-route rate limiter *)

Module RateLimiter.

(** The record kept per key: [{ count, ts }]. *)
Record hit : Type := Hit { count : nat; ts : Z }.

Inductive verdict : Type :=
  | Next               (* next() is called *)
  | TooManyRequests.   (* status 429 *)

(** [`${req.ip}:${req.path}`]. *)
Definition key (ip path : string) : string := ip +:+ ":" +:+ path.

(** One request through the middleware made by [makeRateLimiter({
    windowMs, max })]; [now] is the reading of [Date.now()]. *)
Definition limiter (windowMs : Z) (max : nat) (ip path : string) (now : Z)
    (hits : gmap string hit) : verdict * gmap string hit :=
  let k := key ip path in
  let rec := default (Hit 0 now) (hits !! k) in
  let rec1 := if (windowMs <? now - ts rec)%Z then Hit 0 now else rec in
  let rec2 := Hit (S (count rec1)) (ts rec1) in
  let hits' := <[k := rec2]> hits in
  (if max <? count rec2 then TooManyRequests else Next, hits').

Record request : Type := Request { req_ip : string; req_path : string; req_now : Z }.

(** The requests served one after the other by one limiter. *)
Fixpoint serve (windowMs : Z) (max : nat) (reqs : list request)
    (hits : gmap string hit) : list verdict * gmap string hit :=
  match reqs with
  | [] => ([], hits)
  | r :: rest =>
      let (v, hits1) := limiter windowMs max (req_ip r) (req_path r) (req_now r) hits in
      let (vs, hits2) := serve windowMs max rest hits1 in
      (v :: vs, hits2)
  end.

(** [apiLimiter] and [writeLimiter]. *)
Definition apiLimiter := limiter 60000 120.
Definition writeLimiter := limiter 60000 30.

Definition key_of (r : request) : string := key (req_ip r) (req_path r).

(** The verdict on the request that brings the count of its window to
    [n]. *)
Definition verdict_at (max n : nat) : verdict :=
  if max <? n then TooManyRequests else Next.

(** The verdicts given to the requests of key [k], in order. *)
Definition verdicts_of (k : string) (reqs : list request) (vs : list verdict)
  : list verdict :=
  map snd (List.filter (λ rv, String.eqb (key_of (fst rv)) k) (zip reqs vs)).

End RateLimiter.

(** *** Allowed origins *)

Module Cors.

Definition defaultOrigins : list string :=
  ["http://localhost:3000"; "https://live-canvas.netlify.app"].

(** [a || b || '']: an unset or empty variable is falsy. *)
Definition first_set (a b : option string) : string :=
  match a with
  | Some x => if String.eqb x "" then
                match b with
                | Some y => y
                | None => ""
                end
              else x
  | None => match b with
            | Some y => y
            | None => ""
            end
  end.

(** [.split(',').map(s => s.trim()).filter(Boolean)]. *)
Definition envOrigins (FRONTEND_ORIGINS FRONTEND_ORIGIN : option string) : list string :=
  List.filter (λ s, negb (String.eqb s ""))
    (map Str.trim (Str.split "," (first_set FRONTEND_ORIGINS FRONTEND_ORIGIN))).

Definition ALLOWED_ORIGINS (FRONTEND_ORIGINS FRONTEND_ORIGIN : option string)
  : list string :=
  let env := envOrigins FRONTEND_ORIGINS FRONTEND_ORIGIN in
  if (List.length env =? 0) then defaultOrigins else env.

(** The [origin] callback of the REST middleware: [true] for
    [cb(null, true)], [false] for [cb(new Error('CORS not allowed'))].
    [None] is a request without an Origin header. *)
Definition origin_allowed (allowed : list string) (origin : option string) : bool :=
  match origin with
  | None => true
  | Some o =>
      if String.eqb o "" then true
      else existsb (String.eqb o) allowed
  end.

End Cors.

(** *** The client's throttle *)

Module Throttle.

(** One call of the function returned by [throttle(fn, wait)]: [last] is
    the captured variable, [now] the reading of [Date.now()]; the boolean
    tells whether [fn] is applied. *)
Definition call (wait : Z) (last now : Z) : bool * Z :=
  if (wait <=? now - last)%Z then (true, now) else (false, last).

(** The readings at which [fn] is applied along a series of calls. *)
Fixpoint applied (wait : Z) (last : Z) (nows : list Z) : list Z :=
  match nows with
  | [] => []
  | now :: rest =>
      let (run, last') := call wait last now in
      if run then now :: applied wait last' rest else applied wait last' rest
  end.

(** [let last = 0]. *)
Definition throttled (wait : Z) (nows : list Z) : list Z := applied wait 0 nows.

(** Readings each at least [wait] after the one before, the first one at
    least [wait] after [last]. *)
Fixpoint spaced (wait : Z) (last : Z) (l : list Z) : Prop :=
  match l with
  | [] => True
  | x :: rest => (wait ≤ x - last)%Z ∧ spaced wait x rest
  end.

End Throttle.

(** *** Snapshots in the document store *)

Module MongoSnapshots.

Record snapDoc : Type := SnapDoc {
  snap_id : string;          (* _id.toString() *)
  snap_room : string;
  snap_name : string;
  snap_data : list json;
  snap_createdAt : Z
}.

Definition is_hex (c : ascii) : bool := between "a" "f" c || is_digit c.

(** [/^[a-f0-9]{24}$/]. *)
Definition objectid_pattern (s : string) : bool :=
  (String.length s =? 24) && Str.all is_hex s.

(** [mongoSaveSnapshot]: [oid] is the id the driver gives the new
    document, [now] the default of [createdAt]; the Snapshot collection is
    the list of its documents in insertion order. The points saved are
    points read from the Stroke collection, kept as they are read. The
    result is the metadata [{ id, room, name, createdAt }]. *)
Definition mongoSaveSnapshot (room name oid : string) (now : Z)
    (w : world) (snaps : list snapDoc)
  : result (string * string * string * Z) * list snapDoc :=
  match value (mongoLoadAllPoints room w) with
  | Ok data =>
      (Ok (oid, room, name, now), snaps ++ [SnapDoc oid room name data now])
  | Throw e => (Throw e, snaps)
  end.

(** [mongoLoadSnapshot]: by id first when the key looks like one
    ([findById] takes no room), then by room and name; [findOne] returns
    the first match. [None] is [null]. *)
Definition mongoLoadSnapshot (room idOrName : string) (snaps : list snapDoc)
  : option (list json) :=
  let by_id :=
    if objectid_pattern idOrName
    then List.find (λ d, String.eqb (snap_id d) idOrName) snaps
    else None in
  let snap :=
    match by_id with
    | Some d => Some d
    | None =>
        List.find (λ d, String.eqb (snap_room d) room && String.eqb (snap_name d) idOrName)
                  snaps
    end in
  snap_data <$> snap.

End MongoSnapshots.

(** *** Notions for the properties of the router *)

(** The room an event belongs to: the sanitized room for a connection,
    the room its socket was bound to otherwise. *)
Definition event_room (ev : event) (w : world) : option string :=
  match ev with
  | Connection _ raw => Some (sanitizeRoom (default "lobby" raw))
  | Draw id _ | Clear id | Undo id | ApplySnapshot id _ | Cursor id _ | Disconnect id =>
      room_of id w
  end.

Definition event_sender (ev : event) : string :=
  match ev with
  | Connection id _ | Draw id _ | Clear id | Undo id | ApplySnapshot id _
  | Cursor id _ | Disconnect id => id
  end.

(** The members of a room other than [id]: the receivers of
    [socket.to(room).emit]. *)
Definition others (id room : string) (w : world) : list string :=
  List.filter (λ i, negb (String.eqb i id)) (members room w).

(** What the file operations never touch, and what the operations of the
    document store never touch. *)
Definition beside_files (w : world)
  : list strokeDoc * nat * nat * list (string * string) * list emission :=
  (strokes w, next_oid w, ticks w, sockets w, outbox w).

Definition beside_store (w : world)
  : gmap path file * list string * list (string * string) * list emission :=
  (files w, console w, sockets w, outbox w).

(** A handler run for a socket of [room] confines its persistence to
    that room: on the file backend it leaves the document store and every
    file but the room's log file alone; on the document store it leaves the
    files alone, keeps the ids unique and leaves the documents of every
    other room alone. *)
Definition persistence_confined (E : env) (room : string) (w w' : world) : Prop :=
  if useMongo E then
    files w' = files w
    ∧ (db_wf w →
       db_wf w' ∧ ∀ room', room' ≠ room → room_docs room' w' = room_docs room' w)
  else
    strokes w' = strokes w ∧ next_oid w' = next_oid w
    ∧ ∀ f, f ≠ fileForRoom E room → files w' !! f = files w !! f.

(** The sockets after an event, as the handlers leave them. *)
Definition sockets_after (ev : event) (w : world) : list (string * string) :=
  match ev with
  | Connection id raw => sockets w ++ [(id, sanitizeRoom (default "lobby" raw))]
  | Disconnect id =>
      match room_of id w with
      | Some _ => List.filter (λ s, negb (String.eqb (fst s) id)) (sockets w)
      | None => sockets w
      end
  | _ => sockets w
  end.

(** The events whose broadcast leaves the sender out. *)
Definition relayed (ev : event) : bool :=
  match ev with
  | Draw _ _ | Clear _ | Cursor _ _ | Disconnect _ => true
  | _ => false
  end.

(** Two rooms in use at once: A and B in alpha, C in beta, a point stored
    in each room. *)
Module TwoRooms.
Import Sample.

Definition joined : list event :=
  [Connection "A" (Some "alpha"); Connection "B" (Some "alpha");
   Connection "C" (Some "beta"); Draw "C" s2_start; Draw "A" s1_start].

Definition on_files : world := run E_file joined empty_world.
Definition on_mongo : world := run E_mongo joined empty_world.

End TwoRooms.

(** The events whose handlers call the persistence layer to write. *)
Definition writes (ev : event) : bool :=
  match ev with
  | Draw _ _ | Clear _ | Undo _ | ApplySnapshot _ _ => true
  | _ => false
  end.

(** * Properties *)

(** ** Room sanitation *)

Example sanitizeRoom_traversal : sanitizeRoom "../etc" = "lobby".
Proof. reflexivity. Qed.
Example sanitizeRoom_empty : sanitizeRoom "" = "lobby".
Proof. reflexivity. Qed.
Example sanitizeRoom_space : sanitizeRoom "a b" = "lobby".
Proof. reflexivity. Qed.
Example sanitizeRoom_trimmed : sanitizeRoom "  alpha-1 " = "alpha-1".
Proof. reflexivity. Qed.

Lemma room_char_word c : room_char c = true ↔ word_char c.
Proof.
  unfold room_char, word_char, is_lower, is_upper, is_digit, between, is_char.
  rewrite !orb_true_iff, !andb_true_iff, !Nat.leb_le, !Nat.eqb_eq.
  assert (Hinj : ∀ x, code c = code x ↔ c = x).
  { intros x; split; [|by intros ->].
    unfold code; intros H.
    by rewrite <- (ascii_nat_embedding c), H, ascii_nat_embedding. }
  rewrite !Hinj. tauto.
Qed.

Lemma room_pattern_valid v : room_pattern v = true ↔ valid_room v.
Proof.
  unfold room_pattern, valid_room.
  rewrite !andb_true_iff, !Nat.leb_le.
  assert (Hall : Str.all room_char v = true ↔ Forall word_char (list_ascii_of_string v)).
  { induction v as [|c v IH]; simpl.
    - split; [constructor | done].
    - rewrite andb_true_iff, Forall_cons, IH, room_char_word. tauto. }
  rewrite Hall. tauto.
Qed.

Lemma room_char_not_space c : room_char c = true → is_js_space c = false.
Proof.
  destruct c as [[] [] [] [] [] [] [] []]; vm_compute; congruence.
Qed.

Lemma trimStart_fix v : Str.all room_char v = true → Str.trimStart v = v.
Proof.
  destruct v as [|c v]; simpl; [done|].
  intros [Hc _]%andb_true_iff. by rewrite (room_char_not_space c Hc).
Qed.

Lemma trimEnd_fix v : Str.all room_char v = true → Str.trimEnd v = v.
Proof.
  induction v as [|c v IH]; simpl; [done|].
  intros [Hc Hv]%andb_true_iff. rewrite (IH Hv).
  destruct v; [by rewrite (room_char_not_space c Hc) | done].
Qed.

Lemma trim_valid v : room_pattern v = true → Str.trim v = v.
Proof.
  unfold room_pattern. intros [_ Hall]%andb_true_iff.
  unfold Str.trim. by rewrite (trimStart_fix v Hall), (trimEnd_fix v Hall).
Qed.

Lemma sanitizeRoom_valid_fix v : room_pattern v = true → sanitizeRoom v = v.
Proof.
  intros Hv. unfold sanitizeRoom. rewrite (trim_valid v Hv), Hv. simpl.
  destruct v; [done|]. done.
Qed.

Lemma sanitizeRoom_cases input :
  sanitizeRoom input = "lobby"
  ∨ (sanitizeRoom input = Str.trim input ∧ room_pattern (Str.trim input) = true).
Proof.
  unfold sanitizeRoom.
  destruct (String.eqb (Str.trim input) ""); [by left|].
  destruct (room_pattern (Str.trim input)) eqn:Hp; simpl; [by right | by left].
Qed.

Lemma sanitizeRoom_pattern input : room_pattern (sanitizeRoom input) = true.
Proof.
  destruct (sanitizeRoom_cases input) as [-> | [-> Hp]]; [reflexivity | done].
Qed.

(** C6. Room sanitation is total and idempotent. For every input string
    the sanitizer returns the trimmed input when that is a valid room key
    (1 to 64 letters, digits, underscores, hyphens) and ["lobby"] when the
    trimmed input is empty or not a valid key; a valid input is returned
    unchanged; sanitizing twice is sanitizing once; and every output is a
    valid room key (["lobby"] is one). *)
Theorem sanitizeRoom_total_idempotent (input : string) :
  (Str.trim input = "" → sanitizeRoom input = "lobby")
  ∧ (¬ valid_room (Str.trim input) → sanitizeRoom input = "lobby")
  ∧ (valid_room (Str.trim input) → sanitizeRoom input = Str.trim input)
  ∧ (valid_room input → sanitizeRoom input = input)
  ∧ sanitizeRoom (sanitizeRoom input) = sanitizeRoom input
  ∧ (valid_room (sanitizeRoom input) ∨ sanitizeRoom input = "lobby")
  ∧ valid_room "lobby".
Proof.
  split_and!.
  - intros H. unfold sanitizeRoom. by rewrite H.
  - intros H. destruct (sanitizeRoom_cases input) as [? | [_ Hp]]; [done|].
    by apply room_pattern_valid in Hp.
  - intros H%room_pattern_valid. unfold sanitizeRoom. rewrite H. simpl.
    destruct (Str.trim input); [done | done].
  - intros H%room_pattern_valid. by apply sanitizeRoom_valid_fix.
  - apply sanitizeRoom_valid_fix, sanitizeRoom_pattern.
  - left. apply room_pattern_valid, sanitizeRoom_pattern.
  - apply room_pattern_valid. reflexivity.
Qed.

(** ** The file backend: reading and writing the log *)

Section FileFacts.
Context (E : env).

Lemma loadStrokes_unfold room w :
  loadStrokes E room w =
    match files w !! fileForRoom E room with
    | None => (Ok (SArr []), w)
    | Some (Text v) => (Ok v, w)
    | Some _ => (Ok (SArr []), set_console (λ l, l ++ [load_msg room]) w)
    end.
Proof.
  unfold loadStrokes, try_catch, bind, existsSync, gets, readJson, ret.
  destruct (files w !! fileForRoom E room) as [[v| |]|] eqn:Hf; simpl;
    rewrite ?Hf; try reflexivity.
Qed.

Lemma saveStrokes_unfold room items w :
  saveStrokes E room items w =
    if write_fails E (fileForRoom E room)
    then (Ok tt, set_console (λ l, l ++ [save_msg room]) w)
    else (Ok tt, set_files (λ fs, <[fileForRoom E room := Text (SArr items)]> fs) w).
Proof.
  unfold saveStrokes, try_catch, writeJson.
  destruct (write_fails E (fileForRoom E room)); reflexivity.
Qed.

Lemma file_log_files room w w' :
  files w' = files w → file_log E room w' = file_log E room w.
Proof.
  intros Hf. unfold file_log. rewrite !loadStrokes_unfold, Hf.
  by destruct (files w !! fileForRoom E room) as [[| |]|].
Qed.

Lemma file_log_saved room items w :
  write_fails E (fileForRoom E room) = false →
  file_log E room (after (saveStrokes E room items w)) = Ok (SArr items).
Proof.
  intros Hw. unfold file_log. rewrite saveStrokes_unfold, Hw, loadStrokes_unfold.
  simpl. by rewrite lookup_insert_eq.
Qed.

Lemma loadStrokes_files room w : files (after (loadStrokes E room w)) = files w.
Proof.
  rewrite loadStrokes_unfold.
  by destruct (files w !! fileForRoom E room) as [[| |]|].
Qed.

Lemma loadStrokes_value room w : value (loadStrokes E room w) = file_log E room w.
Proof. reflexivity. Qed.

Lemma loadStrokes_never_throws room w : ∃ v, file_log E room w = Ok v.
Proof.
  unfold file_log. rewrite loadStrokes_unfold.
  destruct (files w !! fileForRoom E room) as [[| |]|]; eauto.
Qed.

(** *** The backward scan *)

Lemma type_is_start_true p w : is_start p → type_is_start p w = (Ok true, w).
Proof. intros (fs & -> & Hf). simpl. by rewrite Hf. Qed.

Lemma type_is_start_false p w :
  p ≠ JNull → ¬ is_start p → type_is_start p w = (Ok false, w).
Proof.
  intros Hn Hs. destruct p as [| | | |items|fs]; try done.
  simpl. unfold ret. do 2 f_equal.
  destruct (field "type" fs) as [[| | |t| |]|] eqn:Hf; try done.
  destruct (String.eqb_spec t "start") as [->|]; [|done].
  exfalso. apply Hs. by exists fs.
Qed.

Lemma type_is_start_pure p w :
  p ≠ JNull → ∃ b, type_is_start p w = (Ok b, w).
Proof. destruct p; intros; try done; simpl; unfold ret; eauto. Qed.

(** The loop passes over every index whose element is not a start
    point. *)
Lemma loop_skip room items n k w :
  n ≤ k → k ≤ List.length items →
  (∀ i p, n ≤ i < k → items !! i = Some p → p ≠ JNull ∧ ¬ is_start p) →
  removeLastStroke_loop E room items k w = removeLastStroke_loop E room items n w.
Proof.
  induction k as [|k IH]; intros Hnk Hk Hno.
  - by replace n with 0 by lia.
  - destruct (decide (n = S k)) as [->|Hne]; [done|].
    simpl. destruct (items !! k) as [p|] eqn:Hp.
    + destruct (Hno k p ltac:(lia) Hp) as [Hnn Hns].
      unfold bind at 1. rewrite (type_is_start_false p w Hnn Hns).
      apply IH; [lia | lia |]. intros i q Hi. apply Hno. lia.
    + apply lookup_ge_None in Hp. lia.
Qed.

Lemma loop_found room pre s post n w :
  is_start s → n = List.length pre →
  removeLastStroke_loop E room (pre ++ s :: post) (S n) w =
    (saveStrokes E room pre ;;; ret pre) w.
Proof.
  intros Hs ->. simpl.
  rewrite list_lookup_middle by done.
  unfold bind at 1. rewrite (type_is_start_true s w Hs).
  by rewrite take_app_length.
Qed.

Lemma loop_result room items k w :
  Forall (λ p, p ≠ JNull) items → k ≤ List.length items →
  ∃ r, r `prefix_of` items
       ∧ removeLastStroke_loop E room items k w = (saveStrokes E room r ;;; ret r) w.
Proof.
  intros Hnn. induction k as [|k IH]; intros Hk.
  - exists []. split; [apply prefix_nil | done].
  - simpl. destruct (items !! k) as [p|] eqn:Hp.
    + assert (p ≠ JNull) as Hpn.
      { eapply (proj1 (Forall_lookup _ _) Hnn); eauto. }
      destruct (type_is_start_pure p w Hpn) as [b Hb].
      unfold bind at 1. rewrite Hb. destruct b.
      * exists (take k items). split; [|done].
        exists (drop k items). by rewrite take_drop.
      * apply IH. lia.
    + apply lookup_ge_None in Hp. lia.
Qed.

Lemma removeLastStroke_on_array room items w :
  file_log E room w = Ok (SArr items) →
  removeLastStroke E room w =
    removeLastStroke_loop E room items (List.length items) (after (loadStrokes E room w)).
Proof.
  unfold file_log, value, removeLastStroke, after. intros Hl.
  unfold bind at 1. destruct (loadStrokes E room w) as [r w'].
  simpl in *. by subst r.
Qed.

Lemma save_then_ret_value room r w :
  value ((saveStrokes E room r ;;; ret r) w) = Ok r.
Proof.
  unfold bind. rewrite saveStrokes_unfold.
  by destruct (write_fails E (fileForRoom E room)).
Qed.

Lemma save_then_ret_log room r w :
  write_fails E (fileForRoom E room) = false →
  file_log E room (after ((saveStrokes E room r ;;; ret r) w)) = Ok (SArr r).
Proof.
  intros Hw. unfold bind.
  pose proof (file_log_saved room r w Hw) as H.
  destruct (saveStrokes E room r w) as [[[]|e] w'] eqn:Hs; simpl in *; [done|].
  rewrite saveStrokes_unfold, Hw in Hs. done.
Qed.

End FileFacts.

(** ** Undo on the file backend *)

(** The backward scan stops at the last start point. *)
Lemma removeLastStroke_found (E : env) (room : string) (w : world)
    (pre post : list json) (s : json) :
  file_log E room w = Ok (SArr (pre ++ s :: post)) →
  is_start s →
  Forall (λ p, p ≠ JNull ∧ ¬ is_start p) post →
  value (removeLastStroke E room w) = Ok pre
  ∧ (write_fails E (fileForRoom E room) = false →
     file_log E room (after (removeLastStroke E room w)) = Ok (SArr pre)).
Proof.
  intros Hlog Hs Hpost.
  rewrite (removeLastStroke_on_array E room _ w Hlog).
  set (w1 := after (loadStrokes E room w)).
  rewrite (loop_skip E room _ (S (List.length pre)) _ w1).
  - rewrite (loop_found E room pre s post _ w1 Hs eq_refl).
    split; [apply save_then_ret_value | apply save_then_ret_log].
  - rewrite length_app. simpl. lia.
  - done.
  - intros i p Hi Hp.
    rewrite lookup_app_r in Hp by lia.
    replace (i - List.length pre) with (S (i - S (List.length pre))) in Hp by lia.
    simpl in Hp.
    eapply (proj1 (Forall_lookup _ _) Hpost); eauto.
Qed.

(** Without a start point the scan reaches the front and the log is
    emptied. *)
Lemma removeLastStroke_no_start (E : env) (room : string) (w : world)
    (items : list json) :
  file_log E room w = Ok (SArr items) →
  Forall (λ p, p ≠ JNull ∧ ¬ is_start p) items →
  value (removeLastStroke E room w) = Ok []
  ∧ (write_fails E (fileForRoom E room) = false →
     file_log E room (after (removeLastStroke E room w)) = Ok (SArr [])).
Proof.
  intros Hlog Hno.
  rewrite (removeLastStroke_on_array E room items w Hlog).
  set (w1 := after (loadStrokes E room w)).
  rewrite (loop_skip E room items 0 _ w1).
  - split; [apply save_then_ret_value | apply save_then_ret_log].
  - lia.
  - done.
  - intros i p _ Hp. eapply (proj1 (Forall_lookup _ _) Hno); eauto.
Qed.

Lemma Forall_both {A} (P Q : A → Prop) l : Forall P l → Forall Q l → Forall (λ x, P x ∧ Q x) l.
Proof. intros HP HQ. apply Forall_and. by split. Qed.

(** C1. Whatever log a room has, undo looks from the end backward for
    the most recent point whose type is start, removes it and everything
    after it, and returns what is left; when the log has no start point it
    empties the log and returns the empty sequence. (The log is a sequence
    of points, none of them null; what is left is also what the room's log
    is afterwards, unless the write of the log file fails.) *)
Theorem removeLastStroke_last_start (E : env) (room : string) (w : world)
    (items : list json) :
  file_log E room w = Ok (SArr items) →
  Forall (λ p, p ≠ JNull) items →
  (∀ pre s post,
      items = pre ++ s :: post → is_start s → Forall (λ p, ¬ is_start p) post →
      value (removeLastStroke E room w) = Ok pre
      ∧ (write_fails E (fileForRoom E room) = false →
         file_log E room (after (removeLastStroke E room w)) = Ok (SArr pre)))
  ∧ (Forall (λ p, ¬ is_start p) items →
      value (removeLastStroke E room w) = Ok []
      ∧ (write_fails E (fileForRoom E room) = false →
         file_log E room (after (removeLastStroke E room w)) = Ok (SArr []))).
Proof.
  intros Hlog Hnn. split.
  - intros pre s post -> Hs Hpost.
    apply (removeLastStroke_found E room w pre post s Hlog Hs).
    apply Forall_app in Hnn as [_ Hnn]. apply Forall_cons in Hnn as [_ Hnn].
    by apply Forall_both.
  - intros Hno. apply (removeLastStroke_no_start E room w items Hlog).
    by apply Forall_both.
Qed.

Lemma removeLastStroke_last_start_witness :
  file_log Sample.E_file "alpha"
    (Sample.with_log [Sample.s1_start; Sample.s1_draw; Sample.s2_start; Sample.s2_draw])
  = Ok (SArr [Sample.s1_start; Sample.s1_draw; Sample.s2_start; Sample.s2_draw])
  ∧ Forall (λ p, p ≠ JNull)
      [Sample.s1_start; Sample.s1_draw; Sample.s2_start; Sample.s2_draw]
  ∧ value (removeLastStroke Sample.E_file "alpha"
      (Sample.with_log [Sample.s1_start; Sample.s1_draw; Sample.s2_start; Sample.s2_draw]))
    = Ok [Sample.s1_start; Sample.s1_draw].
Proof.
  assert (Hlog : file_log Sample.E_file "alpha"
    (Sample.with_log [Sample.s1_start; Sample.s1_draw; Sample.s2_start; Sample.s2_draw])
    = Ok (SArr [Sample.s1_start; Sample.s1_draw; Sample.s2_start; Sample.s2_draw])).
  { vm_compute. reflexivity. }
  assert (Hnn : Forall (λ p, p ≠ JNull)
      [Sample.s1_start; Sample.s1_draw; Sample.s2_start; Sample.s2_draw]).
  { repeat constructor; discriminate. }
  split; [exact Hlog | split; [exact Hnn |]].
  refine (proj1 (proj1 (removeLastStroke_last_start _ _ _ _ Hlog Hnn)
            [Sample.s1_start; Sample.s1_draw] Sample.s2_start [Sample.s2_draw]
            eq_refl _ _)).
  - eexists. split; [reflexivity | reflexivity].
  - repeat constructor. intros (fs & Heq & Hf). injection Heq as <-. discriminate Hf.
Defined.

(** What undo returns is a prefix of the log, and the log afterwards. *)
Lemma removeLastStroke_returns_prefix (E : env) (room : string) (w : world)
    (L : list json) :
  file_log E room w = Ok (SArr L) →
  Forall (λ p, p ≠ JNull) L →
  ∃ r, value (removeLastStroke E room w) = Ok r
       ∧ r `prefix_of` L
       ∧ (write_fails E (fileForRoom E room) = false →
          file_log E room (after (removeLastStroke E room w)) = Ok (SArr r)).
Proof.
  intros Hlog Hnn.
  rewrite (removeLastStroke_on_array E room L w Hlog).
  set (w1 := after (loadStrokes E room w)).
  destruct (loop_result E room L (List.length L) w1 Hnn) as (r & Hpre & ->); [done|].
  exists r. split_and!; [apply save_then_ret_value | done | apply save_then_ret_log].
Qed.

(** C9. Whatever log [L] a room has, what undo returns is a prefix of
    [L], and it is what the room's log is afterwards (unless the write of
    the log file fails); undo on an empty log returns the empty sequence,
    leaves the log empty and raises no error. *)
Theorem removeLastStroke_prefix (E : env) (room : string) (w : world)
    (L : list json) :
  file_log E room w = Ok (SArr L) →
  Forall (λ p, p ≠ JNull) L →
  (∃ r, value (removeLastStroke E room w) = Ok r
        ∧ r `prefix_of` L
        ∧ (write_fails E (fileForRoom E room) = false →
           file_log E room (after (removeLastStroke E room w)) = Ok (SArr r)))
  ∧ (L = [] →
     value (removeLastStroke E room w) = Ok []
     ∧ (write_fails E (fileForRoom E room) = false →
        file_log E room (after (removeLastStroke E room w)) = Ok (SArr []))).
Proof.
  intros Hlog Hnn. split.
  - by apply removeLastStroke_returns_prefix.
  - intros ->. apply (removeLastStroke_no_start E room w [] Hlog). constructor.
Qed.

Lemma removeLastStroke_prefix_witness :
  file_log Sample.E_file "alpha" empty_world = Ok (SArr [])
  ∧ Forall (λ p, p ≠ JNull) []
  ∧ value (removeLastStroke Sample.E_file "alpha" empty_world) = Ok []
  ∧ file_log Sample.E_file "alpha"
      (after (removeLastStroke Sample.E_file "alpha" empty_world)) = Ok (SArr []).
Proof.
  assert (Hlog : file_log Sample.E_file "alpha" empty_world = Ok (SArr [])).
  { vm_compute. reflexivity. }
  split; [exact Hlog | split; [constructor |]].
  destruct (proj2 (removeLastStroke_prefix _ _ _ _ Hlog (List.Forall_nil _)) eq_refl)
    as [Hv Hl].
  split; [exact Hv | apply Hl; reflexivity].
Defined.

(** ** File names *)

Example join_child : join ["srv"; "data"] "alpha.json" = ["srv"; "data"; "alpha.json"].
Proof. reflexivity. Qed.
Example join_escapes : join ["srv"; "data"] "../etc/x.json" = ["srv"; "etc"; "x.json"].
Proof. reflexivity. Qed.

Section Names.
Context (E : env).

Lemma length_app_string a b :
  String.length (a +:+ b) = String.length a + String.length b.
Proof. induction a as [|c a IH]; simpl; [done | by rewrite IH]. Qed.

Lemma app_string_inj_r a b s : a +:+ s = b +:+ s → a = b.
Proof.
  revert b. induction a as [|c a IH]; intros [|d b] H.
  - done.
  - apply (f_equal String.length) in H.
    rewrite !length_app_string in H. simpl in H. lia.
  - apply (f_equal String.length) in H.
    rewrite !length_app_string in H. simpl in H. lia.
  - cbn in H. injection H as -> H. by rewrite (IH b H).
Qed.

Lemma all_app p a b : Str.all p (a +:+ b) = Str.all p a && Str.all p b.
Proof. induction a as [|c a IH]; simpl; [done | by rewrite IH, andb_assoc]. Qed.

Lemma all_impl (p q : ascii → bool) s :
  (∀ c, p c = true → q c = true) → Str.all p s = true → Str.all q s = true.
Proof.
  intros Hpq. induction s as [|c s IH]; simpl; [done|].
  intros [Hc Hs]%andb_true_iff. by rewrite (Hpq c Hc), (IH Hs).
Qed.

Lemma all_replace_outside keep by_ s :
  keep by_ = true → Str.all keep (Str.replace_outside keep by_ s) = true.
Proof.
  intros Hby. induction s as [|c s IH]; simpl; [done|].
  rewrite IH, andb_true_r. by destruct (keep c) eqn:Hc.
Qed.

Lemma replace_outside_id keep by_ s :
  Str.all keep s = true → Str.replace_outside keep by_ s = s.
Proof.
  induction s as [|c s IH]; simpl; [done|].
  intros [Hc Hs]%andb_true_iff. by rewrite Hc, (IH Hs).
Qed.

Lemma room_char_plain c : room_char c = true → plain_char c = true.
Proof. destruct c as [[] [] [] [] [] [] [] []]; vm_compute; congruence. Qed.

Lemma file_char_plain c : file_char c = true → plain_char c = true.
Proof. destruct c as [[] [] [] [] [] [] [] []]; vm_compute; congruence. Qed.

Lemma room_char_file c : room_char c = true → file_char c = true.
Proof. destruct c as [[] [] [] [] [] [] [] []]; vm_compute; congruence. Qed.

Lemma split_plain s : Str.all plain_char s = true → Str.split "/" s = [s].
Proof.
  induction s as [|c s IH]; simpl; [done|].
  intros [Hc Hs]%andb_true_iff. rewrite (IH Hs).
  unfold plain_char in Hc. apply negb_true_iff in Hc. by rewrite Hc.
Qed.

(** Joining a plain file name of more than two characters appends one
    component. *)
Lemma join_plain base name :
  Str.all plain_char name = true → 2 < String.length name →
  join base name = base ++ [name].
Proof.
  intros Hp Hl. unfold join. rewrite (split_plain name Hp). simpl.
  unfold norm_step.
  repeat case_decide; subst; simpl in *; try lia; done.
Qed.

Lemma fileForRoom_child room :
  room_pattern room = true →
  fileForRoom E room = dataDir E ++ [room +:+ ".json"].
Proof.
  unfold room_pattern. intros [_ Hall]%andb_true_iff.
  unfold fileForRoom. apply join_plain.
  - rewrite all_app, (all_impl _ _ _ room_char_plain Hall). reflexivity.
  - rewrite length_app_string. simpl. lia.
Qed.

Lemma snapshotFile_child room name :
  room_pattern room = true →
  snapshotFile E room name = snapshotsDir E ++ [snapshot_name room name].
Proof.
  unfold room_pattern. intros [_ Hall]%andb_true_iff.
  unfold snapshotFile, snapshot_name. apply join_plain.
  - rewrite !all_app, (all_impl _ _ _ room_char_plain Hall).
    rewrite (all_impl _ _ _ file_char_plain
               (all_replace_outside file_char "_" name eq_refl)).
    reflexivity.
  - rewrite !length_app_string. simpl. lia.
Qed.

Lemma dirs_distinct : dataDir E ≠ snapshotsDir E.
Proof.
  unfold dataDir, snapshotsDir, join. simpl. unfold norm_step. simpl.
  intros H. by apply app_inv_head in H.
Qed.

Lemma log_file_not_snapshot_file room room' name :
  room_pattern room = true → room_pattern room' = true →
  fileForRoom E room ≠ snapshotFile E room' name.
Proof.
  intros Hr Hr'. rewrite (fileForRoom_child room Hr), (snapshotFile_child room' name Hr').
  intros H. apply app_inj_2 in H as [H _]; [|done].
  by apply dirs_distinct.
Qed.

End Names.

(** C7, as the code has it. Distinct sanitized rooms have distinct log
    files. Two (room, name) pairs share a snapshot file exactly when their
    file names [room__safe.json] coincide, where [safe] is the name with
    every character other than a letter, digit, underscore or hyphen
    replaced by an underscore; so within one room, names made of those
    characters only have distinct files. For every raw room and every name
    whatsoever the log file and the snapshot file are direct children of
    the data and the snapshots directory. *)
Theorem file_naming (E : env) :
  (∀ r1 r2, valid_room r1 → valid_room r2 →
     fileForRoom E r1 = fileForRoom E r2 → r1 = r2)
  ∧ (∀ r1 n1 r2 n2, valid_room r1 → valid_room r2 →
       (snapshotFile E r1 n1 = snapshotFile E r2 n2
        ↔ snapshot_name r1 n1 = snapshot_name r2 n2))
  ∧ (∀ r n1 n2, valid_room r →
       Str.all file_char n1 = true → Str.all file_char n2 = true →
       snapshotFile E r n1 = snapshotFile E r n2 → n1 = n2)
  ∧ (∀ raw_room, ∃ f, fileForRoom E (sanitizeRoom raw_room) = dataDir E ++ [f])
  ∧ (∀ raw_room name,
       ∃ f, snapshotFile E (sanitizeRoom raw_room) name = snapshotsDir E ++ [f]).
Proof.
  split_and!.
  - intros r1 r2 H1%room_pattern_valid H2%room_pattern_valid.
    rewrite (fileForRoom_child E r1 H1), (fileForRoom_child E r2 H2).
    intros H%app_inv_head. injection H as H. by apply app_string_inj_r in H.
  - intros r1 n1 r2 n2 H1%room_pattern_valid H2%room_pattern_valid.
    rewrite (snapshotFile_child E r1 n1 H1), (snapshotFile_child E r2 n2 H2).
    split; [intros H%app_inv_head; by injection H | by intros ->].
  - intros r n1 n2 Hr%room_pattern_valid Hn1 Hn2.
    rewrite !(snapshotFile_child E r _ Hr).
    intros H%app_inv_head. injection H as H. unfold snapshot_name in H.
    rewrite (replace_outside_id _ _ n1 Hn1), (replace_outside_id _ _ n2 Hn2) in H.
    apply String.app_inj in H. apply String.app_inj in H.
    by apply app_string_inj_r in H.
  - intros raw. eexists. apply fileForRoom_child, sanitizeRoom_pattern.
  - intros raw name. eexists. apply snapshotFile_child, sanitizeRoom_pattern.
Qed.

(** C7 as stated fails: the pairs [("lobby", "a b")] and [("lobby",
    "a_b")] are distinct, both rooms and both names are left unchanged by
    their sanitizers, and the two snapshots share one file. *)
Lemma snapshotFile_collision :
  ("lobby", "a b") ≠ ("lobby", "a_b")
  ∧ sanitizeRoom "lobby" = "lobby"
  ∧ sanitizeName "2025-01-01T00:00:00.000Z" "a b" = "a b"
  ∧ sanitizeName "2025-01-01T00:00:00.000Z" "a_b" = "a_b"
  ∧ snapshotFile Sample.E_file "lobby" "a b" = snapshotFile Sample.E_file "lobby" "a_b".
Proof. split_and!; [discriminate | reflexivity..]. Qed.

(** The separator does not keep rooms apart either. *)
Example snapshotFile_collision_rooms :
  snapshotFile Sample.E_file "a" "b__c" = snapshotFile Sample.E_file "a__b" "c".
Proof. reflexivity. Qed.

(** ** Snapshots on the file backend *)

Section SnapshotFacts.
Context (E : env).

Lemma loadSnapshotFile_unfold room name w :
  loadSnapshotFile E room name w =
    match files w !! snapshotFile E room name with
    | None => (Ok None, w)
    | Some (Text (SSnap _ _ data _)) => (Ok (Some data), w)
    | Some (Text (SArr _)) => (Ok (Some (SArr [])), w)
    | Some Garbage => (Throw SyntaxError, w)
    | Some Unreadable => (Throw IOError, w)
    end.
Proof.
  unfold loadSnapshotFile, bind, existsSync, gets, readJson, ret.
  destruct (files w !! snapshotFile E room name) as [[[|]| |]|] eqn:Hf; simpl;
    rewrite ?Hf; reflexivity.
Qed.

Lemma saveSnapshotFile_unfold room name w :
  name ≠ "" →
  saveSnapshotFile E room name w =
    let w1 := after (loadStrokes E room w) in
    let w2 := set_ticks S w1 in
    match file_log E room w with
    | Throw e => (Throw e, w1)
    | Ok data =>
        if write_fails E (snapshotFile E room name) then (Throw IOError, w2)
        else (Ok (room, name, snapshotFile E room name),
              set_files (λ fs, <[snapshotFile E room name :=
                                   Text (SSnap room name data (clock E (ticks w1)))]> fs) w2)
    end.
Proof.
  intros Hn. unfold saveSnapshotFile, file_log, value, after.
  unfold bind at 1. destruct (loadStrokes E room w) as [[data|e] w1]; simpl; [|done].
  apply String.eqb_neq in Hn. rewrite Hn.
  unfold bind, ret, Date_now, writeJson, throw, modify. simpl.
  by destruct (write_fails E (snapshotFile E room name)).
Qed.

Lemma type_is_start_world p w : after (type_is_start p w) = w.
Proof. by destruct p as [| | | | |fs]. Qed.

Lemma saveStrokes_other room items f w :
  f ≠ fileForRoom E room →
  files (after (saveStrokes E room items w)) !! f = files w !! f.
Proof.
  intros Hf. rewrite saveStrokes_unfold.
  destruct (write_fails E (fileForRoom E room)); simpl; [done|].
  by rewrite lookup_insert_ne.
Qed.

Lemma loop_other room items f k w :
  f ≠ fileForRoom E room →
  files (after (removeLastStroke_loop E room items k w)) !! f = files w !! f.
Proof.
  intros Hf. induction k as [|k IH]; simpl.
  - unfold bind, after.
    pose proof (saveStrokes_other room [] f w Hf) as H. unfold after in H.
    by destruct (saveStrokes E room [] w) as [[|] ?].
  - destruct (items !! k) as [p|]; [|done].
    unfold bind at 1. pose proof (type_is_start_world p w) as Hw. unfold after in Hw.
    destruct (type_is_start p w) as [[[|]|e] w']; simpl in Hw; subst w'; [| done | done].
    unfold bind, after.
    pose proof (saveStrokes_other room (take k items) f w Hf) as H. unfold after in H.
    by destruct (saveStrokes E room (take k items) w) as [[|] ?].
Qed.

(** An operation on the live log of a room writes that room's log file
    and no other file. *)
Lemma apply_op_other op f w :
  f ≠ fileForRoom E (op_room op) →
  files (after (apply_op E op w)) !! f = files w !! f.
Proof.
  intros Hf. destruct op as [room pt|room|room|room pts]; simpl in *.
  - unfold appendStroke, bind, after.
    pose proof (loadStrokes_files E room w) as Hl. unfold after in Hl.
    destruct (loadStrokes E room w) as [[[items|]|e] w1]; simpl in *; rewrite <- Hl; try done.
    apply (saveStrokes_other room _ f w1 Hf).
  - by apply saveStrokes_other.
  - unfold removeLastStroke, bind, after.
    pose proof (loadStrokes_files E room w) as Hl. unfold after in Hl.
    destruct (loadStrokes E room w) as [[[items|]|e] w1]; simpl in *; rewrite <- Hl; try done.
    + pose proof (loop_other room items f (List.length items) w1 Hf) as H.
      unfold after in H.
      by destruct (removeLastStroke_loop E room items (List.length items) w1) as [[|] ?].
    + pose proof (saveStrokes_other room [] f w1 Hf) as H. unfold after in H.
      by destruct (saveStrokes E room [] w1) as [[|] ?].
  - by apply saveStrokes_other.
Qed.

Lemma apply_ops_other ops f w :
  Forall (λ op, f ≠ fileForRoom E (op_room op)) ops →
  files (apply_ops E ops w) !! f = files w !! f.
Proof.
  revert w. induction ops as [|op ops IH]; intros w Hops; [done|].
  apply Forall_cons in Hops as [Hop Hops].
  change (apply_ops E (op :: ops) w) with (apply_ops E ops (after (apply_op E op w))).
  rewrite (IH _ Hops). by apply apply_op_other.
Qed.

End SnapshotFacts.

(** C3, as the code has it. For every room key [R] and every non-empty
    name [n]: when [saveSnapshot(R, n)] succeeds (the write of the snapshot
    file does not fail), a later [loadSnapshot(R, n)] returns exactly what
    [loadAll(R)] returned at save time, whatever appends, clears, undos and
    replacements were applied in between to the live log of any room. *)
Theorem snapshot_round_trip (E : env) (R n : string) (w : world)
    (ops : list log_op) (saved : stored) :
  valid_room R →
  n ≠ "" →
  Forall (λ op, valid_room (op_room op)) ops →
  file_log E R w = Ok saved →
  write_fails E (snapshotFile E R n) = false →
  value (saveSnapshotFile E R n w) = Ok (R, n, snapshotFile E R n)
  ∧ value (loadSnapshotFile E R n (apply_ops E ops (after (saveSnapshotFile E R n w))))
    = Ok (Some saved).
Proof.
  intros HR Hn Hops Hlog Hw.
  rewrite (saveSnapshotFile_unfold E R n w Hn), Hlog, Hw. simpl.
  split; [done|].
  rewrite loadSnapshotFile_unfold, apply_ops_other.
  - simpl. by rewrite lookup_insert_eq.
  - eapply Forall_impl; [exact Hops|]. intros op Hop.
    apply not_eq_sym, log_file_not_snapshot_file; by apply room_pattern_valid.
Qed.

Lemma snapshot_round_trip_witness :
  valid_room "alpha"
  ∧ "v1" ≠ ""
  ∧ Forall (λ op, valid_room (op_room op))
      [OpAppend "alpha" Sample.s2_start; OpUndo "alpha"; OpUndo "alpha";
       OpReplaceAll "alpha" [Sample.s2_draw]; OpClear "alpha"]
  ∧ file_log Sample.E_file "alpha" (Sample.with_log [Sample.s1_start; Sample.s1_draw])
    = Ok (SArr [Sample.s1_start; Sample.s1_draw])
  ∧ value (loadSnapshotFile Sample.E_file "alpha" "v1"
       (apply_ops Sample.E_file
          [OpAppend "alpha" Sample.s2_start; OpUndo "alpha"; OpUndo "alpha";
           OpReplaceAll "alpha" [Sample.s2_draw]; OpClear "alpha"]
          (after (saveSnapshotFile Sample.E_file "alpha" "v1"
                    (Sample.with_log [Sample.s1_start; Sample.s1_draw])))))
    = Ok (Some (SArr [Sample.s1_start; Sample.s1_draw])).
Proof.
  assert (Hv : valid_room "alpha").
  { split; [simpl; lia | repeat constructor; vm_compute; intuition lia]. }
  assert (Hn : "v1" ≠ "") by discriminate.
  assert (Hops : Forall (λ op, valid_room (op_room op))
      [OpAppend "alpha" Sample.s2_start; OpUndo "alpha"; OpUndo "alpha";
       OpReplaceAll "alpha" [Sample.s2_draw]; OpClear "alpha"]).
  { repeat constructor; exact Hv. }
  assert (Hlog : file_log Sample.E_file "alpha"
                   (Sample.with_log [Sample.s1_start; Sample.s1_draw])
                 = Ok (SArr [Sample.s1_start; Sample.s1_draw])).
  { vm_compute. reflexivity. }
  split_and!; [exact Hv | exact Hn | exact Hops | exact Hlog |].
  exact (proj2 (snapshot_round_trip Sample.E_file "alpha" "v1" _ _ _
                  Hv Hn Hops Hlog eq_refl)).
Defined.

(** C3 as stated fails for the empty name: the snapshot is saved under a
    timestamp, and loading by the empty name finds nothing. *)
Lemma snapshot_empty_name_lost :
  file_log Sample.E_file "alpha" (Sample.with_log [Sample.s1_start; Sample.s1_draw])
  = Ok (SArr [Sample.s1_start; Sample.s1_draw])
  ∧ value (saveSnapshotFile Sample.E_file "alpha" ""
             (Sample.with_log [Sample.s1_start; Sample.s1_draw]))
    = Ok ("alpha", "", ["srv"; "snapshots"; "alpha__2025-01-01T00_00_00_000Z.json"])
  ∧ value (loadSnapshotFile Sample.E_file "alpha" ""
             (after (saveSnapshotFile Sample.E_file "alpha" ""
                       (Sample.with_log [Sample.s1_start; Sample.s1_draw]))))
    = Ok None.
Proof. split_and!; vm_compute; reflexivity. Qed.

(** ** Persistence faults *)

Section Faults.
Context (E : env).

Lemma logs_are_points_files w w' :
  files w' = files w → logs_are_points E w → logs_are_points E w'.
Proof. unfold logs_are_points. intros ->. done. Qed.

Lemma logs_are_points_log room w :
  logs_are_points E w →
  ∃ items, file_log E room w = Ok (SArr items) ∧ Forall (λ p, p ≠ JNull) items.
Proof.
  intros Hw. unfold file_log. rewrite loadStrokes_unfold.
  destruct (files w !! fileForRoom E room) as [[v| |]|] eqn:Hf; simpl;
    try (exists []; split; [done | constructor]).
  destruct (Hw room v Hf) as (items & -> & Hnn). eauto.
Qed.

Lemma saveStrokes_ok room items w : value (saveStrokes E room items w) = Ok tt.
Proof.
  rewrite saveStrokes_unfold. by destruct (write_fails E (fileForRoom E room)).
Qed.

Lemma appendStroke_ok room pt items w :
  file_log E room w = Ok (SArr items) → value (appendStroke E room pt w) = Ok tt.
Proof.
  unfold file_log, value, appendStroke, bind. intros Hl.
  destruct (loadStrokes E room w) as [r w1]. simpl in Hl. subst r.
  apply saveStrokes_ok.
Qed.

Lemma removeLastStroke_ok room items w :
  file_log E room w = Ok (SArr items) → Forall (λ p, p ≠ JNull) items →
  ∃ r, value (removeLastStroke E room w) = Ok r.
Proof.
  intros Hl Hnn. rewrite (removeLastStroke_on_array E room items w Hl).
  destruct (loop_result E room items (List.length items)
              (after (loadStrokes E room w)) Hnn) as (r & _ & ->); [done|].
  exists r. apply save_then_ret_value.
Qed.

(** A reader that leaves the world alone and throws on one element makes
    the whole traversal throw. *)
Lemma map_M_throws {A B} (f : A → M B) (xs : list A) (x : A) (w : world) :
  (∀ y w', after (f y w') = w') →
  In x xs → (∃ e, value (f x w) = Throw e) →
  ∃ e, value (map_M f xs w) = Throw e.
Proof.
  intros Hpure Hin [e He]. induction xs as [|y ys IH]; [done|].
  simpl. unfold bind at 1.
  pose proof (Hpure y w) as Hw. unfold after in Hw.
  destruct (f y w) as [[b|e'] w'] eqn:Hy; simpl in Hw; subst w'; [|by exists e'].
  destruct Hin as [->|Hin].
  - unfold value in He. rewrite Hy in He. done.
  - destruct (IH Hin) as [e2 He2]. exists e2.
    unfold bind, value in *. by destruct (map_M f ys w) as [[|] ?].
Qed.


Lemma listSnapshotsFile_fault room n w :
  In n (List.filter (λ f, Str.startsWith (room +:+ "__") f && Str.endsWith ".json" f)
          (omap (λ kv, entry_of (snapshotsDir E) (fst kv)) (map_to_list (files w)))) →
  (files w !! join (snapshotsDir E) n = Some Garbage
   ∨ files w !! join (snapshotsDir E) n = Some Unreadable) →
  ∃ e, value (listSnapshotsFile E room w) = Throw e.
Proof.
  intros Hin Hbad. unfold listSnapshotsFile, readdirSync, gets. unfold bind at 1.
  eapply (map_M_throws _ _ n w); [| exact Hin |].
  - intros y w'. unfold bind, readJson, after.
    destruct (files w' !! join (snapshotsDir E) y) as [[| |]|]; reflexivity.
  - unfold bind, value, readJson. destruct Hbad as [-> | ->]; simpl; eauto.
Qed.

(** *** The socket handlers of the file backend never throw on a fault *)


Lemma socket_to_emit_run id room ev args w :
  ∃ w', socket_to_emit id room ev args w = (Ok tt, w') ∧ files w' = files w.
Proof. eexists. split; reflexivity. Qed.

Lemma io_to_emit_run room ev args w :
  ∃ w', io_to_emit room ev args w = (Ok tt, w') ∧ files w' = files w.
Proof. eexists. split; reflexivity. Qed.

Lemma handlers_never_throw ev w :
  useMongo E = false → logs_are_points E w → value (handle E ev w) = Ok tt.
Proof.
  intros Hm Hw.
  assert (Hroom : ∀ id h, (∀ room, value (h room w) = Ok tt) →
                          value (with_room id h w) = Ok tt).
  { intros id h Hh. unfold with_room, bind, gets. simpl.
    destruct (room_of id w); [apply Hh | done]. }
  destruct ev as [id raw|id data|id|id|id history|id data|id]; simpl;
    try (apply Hroom; intros room).
  - unfold on_connection. rewrite Hm. unfold bind at 1. simpl.
    set (w1 := set_sockets _ w). unfold bind.
    destruct (loadStrokes_never_throws E (sanitizeRoom (default "lobby" raw)) w1) as [v Hv].
    unfold file_log, value in Hv.
    destruct (loadStrokes E _ w1) as [r w2]. simpl in Hv. subst r. reflexivity.
  - unfold on_draw. rewrite Hm. unfold bind.
    destruct (socket_to_emit_run id room "draw" data w) as (w1 & -> & Hf).
    destruct (logs_are_points_log room w1 (logs_are_points_files _ _ Hf Hw))
      as (items & Hl & _).
    apply (appendStroke_ok room data items w1 Hl).
  - unfold on_clear. rewrite Hm. unfold bind.
    destruct (socket_to_emit_run id room "clear" JNull w) as (w1 & -> & Hf).
    apply saveStrokes_ok.
  - unfold on_undo. rewrite Hm. unfold bind.
    destruct (logs_are_points_log room w Hw) as (items & Hl & Hnn).
    destruct (removeLastStroke_ok room items w Hl Hnn) as [r Hr].
    unfold value in Hr. destruct (removeLastStroke E room w) as [r' w1].
    simpl in Hr. subst r'. reflexivity.
  - unfold on_applySnapshot. destruct history; try reflexivity.
    rewrite Hm. unfold bind.
    pose proof (saveStrokes_ok room items w) as Hs. unfold value in Hs.
    destruct (saveStrokes E room items w) as [r w1]. simpl in Hs. subst r. reflexivity.
  - reflexivity.
  - reflexivity.
Qed.

End Faults.

(** C8, as the code has it. On the file backend the log operations catch
    every storage fault: [loadAll] never throws, gives the empty sequence
    for a missing, unreadable or unparseable log file and logs the last
    two; a failing write of the log is logged and changes nothing, and
    [append] and [clear] return normally all the same; so no socket event
    handler throws, whatever reads or writes fail. The snapshot
    operations do not catch: [loadSnapshot] gives not-found for a missing
    file but throws on an unreadable or unparseable one, [listSnapshots]
    throws when a file it lists is unreadable or unparseable, and
    [saveSnapshot] throws when its write fails; the REST handler answers
    such a throw with status 500. *)
Theorem persistence_faults (E : env) (room : string) (w : world) :
  (∃ v, value (loadStrokes E room w) = Ok v)
  ∧ (files w !! fileForRoom E room = None →
     loadStrokes E room w = (Ok (SArr []), w))
  ∧ (files w !! fileForRoom E room = Some Garbage
     ∨ files w !! fileForRoom E room = Some Unreadable →
     loadStrokes E room w =
       (Ok (SArr []), set_console (λ l, l ++ [load_msg room]) w))
  ∧ (∀ items, value (saveStrokes E room items w) = Ok tt)
  ∧ (∀ items, write_fails E (fileForRoom E room) = true →
     saveStrokes E room items w =
       (Ok tt, set_console (λ l, l ++ [save_msg room]) w))
  ∧ (∀ pt items, file_log E room w = Ok (SArr items) →
     value (appendStroke E room pt w) = Ok tt)
  ∧ (∀ ev, useMongo E = false → logs_are_points E w →
     value (handle E ev w) = Ok tt)
  ∧ (∀ name, files w !! snapshotFile E room name = None →
     value (loadSnapshotFile E room name w) = Ok None)
  ∧ (∀ name, files w !! snapshotFile E room name = Some Garbage →
     value (loadSnapshotFile E room name w) = Throw SyntaxError)
  ∧ (∀ name, files w !! snapshotFile E room name = Some Unreadable →
     value (loadSnapshotFile E room name w) = Throw IOError)
  ∧ (∀ n,
     In n (List.filter (λ f, Str.startsWith (room +:+ "__") f && Str.endsWith ".json" f)
             (omap (λ kv, entry_of (snapshotsDir E) (fst kv)) (map_to_list (files w)))) →
     files w !! join (snapshotsDir E) n = Some Garbage
     ∨ files w !! join (snapshotsDir E) n = Some Unreadable →
     ∃ e, value (listSnapshotsFile E room w) = Throw e)
  ∧ (∀ name, name ≠ "" → write_fails E (snapshotFile E room name) = true →
     value (saveSnapshotFile E room name w) = Throw IOError)
  ∧ (∀ name, sanitizeRoom room = room → sanitizeName "" name = name → name ≠ "" →
     files w !! snapshotFile E room name = Some Garbage
     ∨ files w !! snapshotFile E room name = Some Unreadable →
     value (get_snapshot E room name w) = Ok Resp500).
Proof.
  split_and!.
  - apply loadStrokes_never_throws.
  - intros Hf. by rewrite loadStrokes_unfold, Hf.
  - intros [Hf|Hf]; by rewrite loadStrokes_unfold, Hf.
  - intros items. apply saveStrokes_ok.
  - intros items Hf. by rewrite saveStrokes_unfold, Hf.
  - intros pt items. apply appendStroke_ok.
  - intros ev. apply handlers_never_throw.
  - intros name Hf. by rewrite loadSnapshotFile_unfold, Hf.
  - intros name Hf. by rewrite loadSnapshotFile_unfold, Hf.
  - intros name Hf. by rewrite loadSnapshotFile_unfold, Hf.
  - intros n. apply listSnapshotsFile_fault.
  - intros name Hn Hf. rewrite (saveSnapshotFile_unfold E room name w Hn).
    destruct (loadStrokes_never_throws E room w) as [v ->]. simpl. by rewrite Hf.
  - intros name Hr Hname Hn Hf. unfold get_snapshot.
    assert (Ht : String.eqb (Str.trim name) "" = false).
    { destruct (String.eqb (Str.trim name) "") eqn:Ht; [|done].
      unfold sanitizeName in Hname. rewrite Ht in Hname. congruence. }
    rewrite Ht. unfold bind at 1. simpl.
    unfold sanitizeName. rewrite Ht.
    unfold sanitizeName in Hname. rewrite Ht in Hname. rewrite Hname, Hr.
    unfold try_catch, bind. rewrite loadSnapshotFile_unfold.
    by destruct Hf as [-> | ->].
Qed.

(** C8 as stated fails for the snapshot operations: with a snapshot file
    that does not parse, [loadSnapshot] and [listSnapshots] throw instead of
    giving a missing or empty result, and on a disk that refuses writes
    [saveSnapshot] throws instead of being a logged no-op. *)
Lemma snapshot_faults_propagate :
  value (loadSnapshotFile Sample.E_file "lobby" "n" Sample.with_broken_snapshot)
  = Throw SyntaxError
  ∧ value (listSnapshotsFile Sample.E_file "lobby" Sample.with_broken_snapshot)
    = Throw SyntaxError
  ∧ value (saveSnapshotFile Sample.E_readonly "lobby" "n" empty_world)
    = Throw IOError.
Proof. split_and!; vm_compute; reflexivity. Qed.

(** ** The document store *)

Lemma json_ind_nested (P : json → Prop) :
  P JNull → (∀ b, P (JBool b)) → (∀ n, P (JNum n)) → (∀ s, P (JStr s)) →
  (∀ items, Forall P items → P (JArr items)) →
  (∀ fs, Forall (λ kv, P (snd kv)) fs → P (JObj fs)) →
  ∀ j, P j.
Proof.
  intros HNull HBool HNum HStr HArr HObj.
  exact (fix F (j : json) : P j :=
    match j with
    | JNull => HNull
    | JBool b => HBool b
    | JNum n => HNum n
    | JStr s => HStr s
    | JArr items =>
        HArr items
          ((fix G (l : list json) : Forall P l :=
              match l with
              | [] => @List.Forall_nil _ P
              | x :: l' => @List.Forall_cons _ P x l' (F x) (G l')
              end) items)
    | JObj fs =>
        HObj fs
          ((fix G (l : list (string * json)) : Forall (λ kv, P (snd kv)) l :=
              match l with
              | [] => @List.Forall_nil _ (λ kv, P (snd kv))
              | kv :: l' =>
                  @List.Forall_cons _ (λ kv, P (snd kv)) kv l' (F (snd kv)) (G l')
              end) fs)
    end).
Qed.

Lemma json_eqb_eq a b : Json.eqb a b = true ↔ a = b.
Proof.
  revert b. induction a as [|x|x|x|xs IH|xs IH] using json_ind_nested;
    intros [|y|y|y|ys|ys]; simpl; try (split; [discriminate | congruence]).
  - done.
  - rewrite Bool.eqb_true_iff. split; congruence.
  - rewrite Z.eqb_eq. split; congruence.
  - rewrite String.eqb_eq. split; congruence.
  - revert ys. induction IH as [|x xs Hx _ IHxs]; intros [|y ys];
      try (split; [discriminate | congruence]); [done|].
    rewrite andb_true_iff, Hx. specialize (IHxs ys).
    split.
    + intros [-> H]. apply IHxs in H. congruence.
    + intros H. injection H as -> H. split; [done|]. apply IHxs. by rewrite H.
  - revert ys. induction IH as [|[k x] xs Hx _ IHxs]; intros [|[k' y] ys];
      try (split; [discriminate | congruence]); [done|].
    rewrite !andb_true_iff, String.eqb_eq. simpl in Hx. rewrite Hx.
    specialize (IHxs ys).
    split.
    + intros [[-> ->] H]. apply IHxs in H. congruence.
    + intros H. injection H as -> -> H. split; [done|]. apply IHxs. by rewrite H.
Qed.

Section MongoFacts.
Context (E : env).

Abbreviation created_lt := (λ a b : strokeDoc, (doc_createdAt a < doc_createdAt b)%Z).

Lemma sort_asc_sorted ds : StronglySorted created_lt ds → sort_asc ds = ds.
Proof.
  induction 1 as [|d ds Hs IH Hd]; [done|].
  simpl. fold (sort_asc ds). rewrite IH.
  destruct ds as [|x rest]; [done|]. simpl.
  apply Forall_cons in Hd as [Hx _].
  by rewrite (proj2 (Z.leb_le _ _)) by lia.
Qed.

Lemma insert_desc_smallest d l :
  Forall (λ x, (doc_createdAt d < doc_createdAt x)%Z) l → insert_desc d l = l ++ [d].
Proof.
  induction 1 as [|x l Hx _ IH]; [done|].
  simpl. rewrite (proj2 (Z.leb_gt _ _)) by lia. by rewrite IH.
Qed.

Lemma sort_desc_sorted ds : StronglySorted created_lt ds → sort_desc ds = rev ds.
Proof.
  induction 1 as [|d ds Hs IH Hd]; [done|].
  simpl. fold (sort_desc ds). rewrite IH. apply insert_desc_smallest.
  by apply Forall_rev.
Qed.

Lemma sort_desc_nil ds : sort_desc ds = [] → ds = [].
Proof.
  destruct ds as [|d ds]; [done|]. simpl. fold (sort_desc ds).
  destruct (sort_desc ds) as [|x l]; simpl; [done|].
  by destruct (doc_createdAt x <=? doc_createdAt d)%Z.
Qed.

Lemma mongoLoadAllPoints_unfold room w :
  mongoLoadAllPoints room w =
    (Ok (List.concat (map doc_points (sort_asc (room_docs room w)))), w).
Proof. reflexivity. Qed.

Lemma mongoUndo_unfold room w :
  mongoUndo room w =
    match head (sort_desc (room_docs room w)) with
    | None => (Ok [], w)
    | Some d => mongoLoadAllPoints room (set_strokes (delete_first (doc_id d)) w)
    end.
Proof.
  unfold mongoUndo, bind, gets. fold (room_docs room w).
  by destruct (head (sort_desc (room_docs room w))).
Qed.

(** *** Pushing a point, seen from the room *)

Lemma in_room_pushed room d pts :
  in_room room (StrokeDoc (doc_id d) (doc_room d) (doc_strokeId d) pts (doc_createdAt d))
  = in_room room d.
Proof. reflexivity. Qed.

Lemma push_first_filter room sid pt l :
  push_first room sid pt (List.filter (in_room room) l)
  = List.filter (in_room room) <$> push_first room sid pt l.
Proof.
  induction l as [|d l IH]; [done|].
  cbn [List.filter push_first]. unfold matches.
  destruct (in_room room d) eqn:Hr; cbn [push_first andb]; unfold matches.
  - rewrite Hr. cbn [andb].
    destruct (Json.eqb (doc_strokeId d) sid); cbn [fmap option_fmap option_map].
    + cbn [List.filter]. by rewrite in_room_pushed, Hr.
    + rewrite IH. destruct (push_first room sid pt l); cbn; [|done].
      by rewrite Hr.
  - rewrite IH. destruct (push_first room sid pt l); cbn; [|done].
    by rewrite Hr.
Qed.

Lemma push_first_other room room' sid pt l l' :
  room' ≠ room → push_first room sid pt l = Some l' →
  List.filter (in_room room') l' = List.filter (in_room room') l.
Proof.
  intros Hne. revert l'. induction l as [|d l IH]; intros l' H; [done|].
  simpl in H. destruct (matches room sid d) eqn:Hm.
  - injection H as <-. cbn [List.filter]. rewrite in_room_pushed.
    apply andb_true_iff in Hm as [Hr%String.eqb_eq _].
    assert (in_room room' d = false) as ->; [|done].
    apply String.eqb_neq. congruence.
  - destruct (push_first room sid pt l) as [l1|]; [|done].
    injection H as <-. simpl. by rewrite (IH l1 eq_refl).
Qed.

Lemma push_first_ids room sid pt l l' :
  push_first room sid pt l = Some l' → map doc_id l' = map doc_id l.
Proof.
  revert l'. induction l as [|d l IH]; intros l' H; [done|].
  simpl in H. destruct (matches room sid d).
  - by injection H as <-.
  - destruct (push_first room sid pt l) as [l1|]; [|done].
    injection H as <-. simpl. by rewrite (IH l1 eq_refl).
Qed.

Lemma stored_point_stored_as pt w m : stored_point E pt w = Some m → stored_as E m pt.
Proof. intros H. by eexists. Qed.

Lemma castable_stored_point pt w : castable E pt → ∃ m, stored_point E pt w = Some m.
Proof. intros H. exact (H (clock E (ticks w))). Qed.

Lemma mongoAppendPoint_unfold room sid pt w :
  mongoAppendPoint E room sid pt w =
    let w2 := set_ticks S (set_ticks S w) in
    match castString E sid, stored_point E pt w with
    | Some key, Some m =>
        match push_first room key m (strokes w) with
        | Some docs' => (Ok tt, set_strokes (λ _, docs') w2)
        | None =>
            (Ok tt, set_strokes
                      (λ l, l ++ [StrokeDoc (next_oid w) room key [m]
                                            (clock E (S (ticks w)))])
                      (set_next_oid S w2))
        end
    | _, _ => (Throw CastError, w2)
    end.
Proof.
  unfold mongoAppendPoint, bind, Date_now, gets, modify, stored_point, throw.
  cbv beta iota zeta. cbn [ticks set_ticks strokes next_oid].
  destruct (castString E sid) as [key|]; [|done].
  destruct (castPoint E _) as [m|]; [|done].
  cbn [strokes set_ticks]. by destruct (push_first room key m (strokes w)).
Qed.

(** A point that does not cast is not stored: the call throws and the
    collection is as it was. *)
Lemma mongoAppendPoint_refused room sid pt w :
  castString E sid = None ∨ stored_point E pt w = None →
  mongoAppendPoint E room sid pt w = (Throw CastError, set_ticks S (set_ticks S w)).
Proof.
  intros H. rewrite mongoAppendPoint_unfold. cbv zeta.
  destruct (castString E sid); destruct (stored_point E pt w); try done;
    by destruct H.
Qed.

Lemma room_docs_append room sid pt w key m :
  castString E sid = Some key → stored_point E pt w = Some m →
  room_docs room (after (mongoAppendPoint E room sid pt w)) =
    match push_first room key m (room_docs room w) with
    | Some ds' => ds'
    | None => room_docs room w
              ++ [StrokeDoc (next_oid w) room key [m] (clock E (S (ticks w)))]
    end.
Proof.
  intros Hk Hm. rewrite mongoAppendPoint_unfold, Hk, Hm. cbv zeta.
  unfold room_docs. rewrite push_first_filter.
  destruct (push_first room key _ (strokes w)) as [l'|]; simpl; [done|].
  rewrite List.filter_app. simpl. unfold in_room at 2. simpl.
  by rewrite String.eqb_refl.
Qed.

Lemma mongoAppendPoint_value room sid pt w key m :
  castString E sid = Some key → stored_point E pt w = Some m →
  value (mongoAppendPoint E room sid pt w) = Ok tt.
Proof.
  intros Hk Hm. rewrite mongoAppendPoint_unfold, Hk, Hm.
  by destruct (push_first _ _ _ _).
Qed.

Lemma mongoAppendPoint_ticks room sid pt w :
  ticks (after (mongoAppendPoint E room sid pt w)) = S (S (ticks w)).
Proof.
  rewrite mongoAppendPoint_unfold.
  destruct (castString E sid); destruct (stored_point E pt w); try done.
  by destruct (push_first _ _ _ _).
Qed.

Lemma mongoAppendPoint_sockets room sid pt w :
  sockets (after (mongoAppendPoint E room sid pt w)) = sockets w
  ∧ outbox (after (mongoAppendPoint E room sid pt w)) = outbox w.
Proof.
  rewrite mongoAppendPoint_unfold.
  destruct (castString E sid); destruct (stored_point E pt w); try done.
  by destruct (push_first _ _ _ _).
Qed.

Lemma mongoAppendPoint_files room sid pt w :
  files (after (mongoAppendPoint E room sid pt w)) = files w.
Proof.
  rewrite mongoAppendPoint_unfold.
  destruct (castString E sid); destruct (stored_point E pt w); try done.
  by destruct (push_first _ _ _ _).
Qed.

Lemma db_wf_ticks f w : db_wf w → db_wf (set_ticks f w).
Proof. done. Qed.

Lemma db_wf_append room sid pt w :
  db_wf w → db_wf (after (mongoAppendPoint E room sid pt w)).
Proof.
  intros [Hnd Hlt]. rewrite mongoAppendPoint_unfold.
  destruct (castString E sid) as [key|]; [|done].
  destruct (stored_point E pt w) as [m|]; [|done].
  destruct (push_first room key _ (strokes w)) as [l'|] eqn:Hp; simpl.
  - split; simpl.
    + by rewrite (push_first_ids _ _ _ _ _ Hp).
    + apply Forall_forall. intros d Hd.
      assert (doc_id d ∈ map doc_id (strokes w)) as Hin.
      { rewrite <- (push_first_ids _ _ _ _ _ Hp). by apply list_elem_of_fmap_2. }
      apply list_elem_of_fmap in Hin as (d' & -> & Hd').
      by apply (proj1 (Forall_forall _ _) Hlt).
  - split; simpl.
    + rewrite map_app. simpl. apply NoDup_app. split_and!; [done | | apply NoDup_singleton].
      intros i Hi ->%list_elem_of_singleton.
      apply list_elem_of_fmap in Hi as (d & Hid & Hd).
      pose proof (proj1 (Forall_forall _ _) Hlt d Hd) as Hd'. simpl in Hd'. lia.
    + apply Forall_app. split.
      * eapply Forall_impl; [exact Hlt|]. simpl. lia.
      * repeat constructor.
Qed.

(** *** Clearing a room *)

Lemma room_docs_clear room w : room_docs room (after (mongoClear room w)) = [].
Proof.
  unfold room_docs, mongoClear, modify, after. simpl.
  induction (strokes w) as [|d l IH]; [done|]. simpl.
  destruct (in_room room d) eqn:Hr; simpl; [done|]. by rewrite Hr.
Qed.

Lemma filter_sublist {A} (p : A → bool) l : List.filter p l `sublist_of` l.
Proof.
  induction l as [|x l IH]; [done|]. simpl.
  destruct (p x); [by apply sublist_skip | by apply sublist_cons].
Qed.

Lemma sublist_map {A B} (f : A → B) l1 l2 :
  l1 `sublist_of` l2 → map f l1 `sublist_of` map f l2.
Proof.
  induction 1; simpl; [done | by apply sublist_skip | by apply sublist_cons].
Qed.

Lemma db_wf_sublist w l :
  l `sublist_of` strokes w → db_wf w → db_wf (set_strokes (λ _, l) w).
Proof.
  intros Hsub [Hnd Hlt]. split; simpl.
  - eapply sublist_NoDup; [exact Hnd|]. by apply sublist_map.
  - apply Forall_forall. intros d Hd.
    apply (proj1 (Forall_forall _ _) Hlt d). by eapply elem_of_sublist.
Qed.

Lemma db_wf_clear room w : db_wf w → db_wf (after (mongoClear room w)).
Proof. apply db_wf_sublist, filter_sublist. Qed.

(** *** Deleting the last stroke *)

Lemma delete_first_filter d l :
  NoDup (map doc_id l) → In d l →
  delete_first (doc_id d) l = List.filter (λ x, negb (doc_id x =? doc_id d)) l.
Proof.
  induction l as [|x l IH]; [done|]. simpl.
  intros [Hx Hnd]%NoDup_cons Hin.
  destruct (doc_id x =? doc_id d) eqn:Hid; simpl.
  - apply Nat.eqb_eq in Hid. symmetry. apply forallb_filter_id.
    apply forallb_forall. intros y Hy. apply negb_true_iff, Nat.eqb_neq.
    intros Heq. apply Hx. rewrite Hid, <- Heq.
    apply list_elem_of_fmap_2. by apply list_elem_of_In.
  - f_equal. apply IH; [done|]. destruct Hin as [->|]; [|done].
    by rewrite Nat.eqb_refl in Hid.
Qed.

Lemma filter_filter_comm {A} (p q : A → bool) l :
  List.filter p (List.filter q l) = List.filter q (List.filter p l).
Proof.
  induction l as [|x l IH]; [done|]. simpl.
  destruct (p x) eqn:Hp, (q x) eqn:Hq; simpl; rewrite ?Hp, ?Hq, IH; done.
Qed.

Lemma room_docs_delete_last room w ds d :
  db_wf w → room_docs room w = ds ++ [d] →
  room_docs room (set_strokes (delete_first (doc_id d)) w) = ds.
Proof.
  intros [Hnd _] Hds. unfold room_docs in *. simpl.
  assert (Hin : In d (strokes w)).
  { assert (In d (List.filter (in_room room) (strokes w))) as H.
    { rewrite Hds. apply in_or_app. right. by left. }
    by apply filter_In in H as [H _]. }
  rewrite (delete_first_filter d _ Hnd Hin), filter_filter_comm, Hds.
  rewrite List.filter_app. simpl. rewrite Nat.eqb_refl. simpl.
  rewrite app_nil_r. apply forallb_filter_id, forallb_forall.
  intros y Hy. apply negb_true_iff, Nat.eqb_neq. intros Heq.
  assert (NoDup (map doc_id (ds ++ [d]))) as Hnd'.
  { rewrite <- Hds. eapply sublist_NoDup; [exact Hnd|].
    apply sublist_map, filter_sublist. }
  rewrite map_app in Hnd'. apply NoDup_app in Hnd' as (_ & Hdis & _).
  apply (Hdis (doc_id y)).
  - apply list_elem_of_fmap_2. by apply list_elem_of_In.
  - rewrite Heq. simpl. apply list_elem_of_singleton. done.
Qed.

Lemma db_wf_delete oid w : db_wf w → db_wf (set_strokes (delete_first oid) w).
Proof.
  apply (db_wf_sublist w (delete_first oid (strokes w))).
  induction (strokes w) as [|x l IH]; [done|]. simpl.
  destruct (doc_id x =? oid); [by apply sublist_cons | by apply sublist_skip].
Qed.

End MongoFacts.

(** ** The router *)

Section RouterFacts.
Context (E : env).

Lemma same_net_refl w : same_net w w.
Proof. by split. Qed.

Lemma same_net_trans w1 w2 w3 : same_net w1 w2 → same_net w2 w3 → same_net w1 w3.
Proof. intros [? ?] [? ?]. split; congruence. Qed.

Lemma loadStrokes_net room w : same_net w (after (loadStrokes E room w)).
Proof.
  rewrite loadStrokes_unfold.
  destruct (files w !! fileForRoom E room) as [[| |]|]; by split.
Qed.

Lemma saveStrokes_net room items w : same_net w (after (saveStrokes E room items w)).
Proof.
  rewrite saveStrokes_unfold. destruct (write_fails E (fileForRoom E room)); by split.
Qed.

Lemma save_then_ret_net room r w :
  same_net w (after ((saveStrokes E room r ;;; ret r) w)).
Proof.
  unfold bind. pose proof (saveStrokes_net room r w) as H. unfold after in *.
  by destruct (saveStrokes E room r w) as [[|] ?].
Qed.

Lemma loop_net room items k w :
  same_net w (after (removeLastStroke_loop E room items k w)).
Proof.
  induction k as [|k IH]; simpl.
  - apply save_then_ret_net.
  - destruct (items !! k) as [p|]; [|apply same_net_refl].
    unfold bind at 1. pose proof (type_is_start_world p w) as Hw. unfold after in Hw.
    destruct (type_is_start p w) as [[[|]|e] w']; simpl in Hw; subst w'.
    + apply save_then_ret_net.
    + apply IH.
    + apply same_net_refl.
Qed.

Lemma removeLastStroke_net room w : same_net w (after (removeLastStroke E room w)).
Proof.
  unfold removeLastStroke. unfold bind at 1.
  pose proof (loadStrokes_net room w) as Hl. unfold after in Hl.
  destruct (loadStrokes E room w) as [[[items|]|e] w1]; simpl in Hl.
  - eapply same_net_trans; [exact Hl | apply loop_net].
  - eapply same_net_trans; [exact Hl | apply save_then_ret_net].
  - exact Hl.
Qed.

Lemma with_room_some id room h w :
  room_of id w = Some room → with_room id h w = h room w.
Proof. intros Hr. unfold with_room, bind, gets. by rewrite Hr. Qed.

Lemma room_of_member id room w : room_of id w = Some room → In id (members room w).
Proof.
  unfold room_of, members. intros Hr.
  destruct (List.find _ (sockets w)) as [[i r]|] eqn:Hf; [|done].
  simpl in Hr. injection Hr as ->.
  apply find_some in Hf as [Hin Hi]. simpl in Hi. apply String.eqb_eq in Hi. subst i.
  apply in_map_iff. exists (id, room). split; [done|].
  apply filter_In. split; [done|]. simpl. by rewrite String.eqb_refl.
Qed.

Lemma members_same_net room w w' : same_net w w' → members room w' = members room w.
Proof. intros [Hs _]. unfold members. by rewrite Hs. Qed.

Lemma io_to_emit_unfold room ev args w :
  io_to_emit room ev args w = (Ok tt, set_outbox (λ o, o ++ to_room room ev args w) w).
Proof. reflexivity. Qed.

Lemma mongoUndo_net room w : same_net w (after (mongoUndo room w)).
Proof.
  rewrite mongoUndo_unfold.
  destruct (head (sort_desc (room_docs room w))); by split.
Qed.

(** What [mongoUndo] returns is what [loadAll] gives afterwards. *)
Lemma mongoUndo_post room w :
  ∃ h, value (mongoUndo room w) = Ok h
       ∧ value (mongoLoadAllPoints room (after (mongoUndo room w))) = Ok h.
Proof.
  rewrite mongoUndo_unfold.
  destruct (head (sort_desc (room_docs room w))) as [d|] eqn:Hd.
  - eexists. split; reflexivity.
  - exists []. split; [done|].
    rewrite mongoLoadAllPoints_unfold. simpl.
    destruct (sort_desc (room_docs room w)) as [|x l] eqn:Hs; [|done].
    by rewrite (sort_desc_nil _ Hs).
Qed.

Lemma persisted_log_same room w w' :
  files w' = files w → strokes w' = strokes w →
  persisted_log E room w' = persisted_log E room w.
Proof.
  intros Hf Hs. unfold persisted_log.
  rewrite (file_log_files E room w w' Hf), !mongoLoadAllPoints_unfold.
  unfold room_docs. by rewrite Hs.
Qed.

Lemma persisted_log_contents room w :
  persisted_log E room w = Ok (store_contents E room w).
Proof.
  unfold persisted_log, store_contents. destruct (useMongo E); [done|].
  unfold file_log. rewrite loadStrokes_unfold.
  by destruct (files w !! fileForRoom E room) as [[v| |]|].
Qed.

Lemma file_log_contents room w v :
  useMongo E = false → file_log E room w = Ok v → store_contents E room w = to_json v.
Proof.
  intros Hm Hl. pose proof (persisted_log_contents room w) as H.
  unfold persisted_log in H. rewrite Hm, Hl in H. by injection H.
Qed.

Lemma persisted_log_total room w : ∃ h, persisted_log E room w = Ok h.
Proof.
  unfold persisted_log. destruct (useMongo E).
  - rewrite mongoLoadAllPoints_unfold. simpl. eauto.
  - destruct (loadStrokes_never_throws E room w) as [v ->]. eauto.
Qed.

Lemma on_connection_outbox id raw w h :
  persisted_log E (sanitizeRoom (default "lobby" raw)) w = Ok h →
  outbox (after (on_connection E id raw w)) = outbox w ++ [Emission id "history" h].
Proof.
  unfold on_connection, persisted_log. set (room := sanitizeRoom (default "lobby" raw)).
  unfold bind at 1. simpl. set (w1 := set_sockets _ w).
  destruct (useMongo E).
  - intros [= <-]. reflexivity.
  - unfold file_log. unfold bind at 1. unfold bind at 1.
    rewrite !loadStrokes_unfold.
    change (files w1) with (files w).
    destruct (files w !! fileForRoom E room) as [[v| |]|]; simpl; intros [= <-];
      reflexivity.
Qed.

Lemma on_undo_outbox id room w :
  (useMongo E = false → logs_are_points E w) →
  ∃ h, outbox (after (on_undo E id room w))
         = outbox w ++ to_room room "resetWithHistory" (JArr h) w
       ∧ value (on_undo E id room w) = Ok tt
       ∧ ((useMongo E = false → write_fails E (fileForRoom E room) = false) →
          persisted_log E room (after (on_undo E id room w)) = Ok (JArr h)).
Proof.
  intros Hw. unfold on_undo, persisted_log.
  destruct (useMongo E) eqn:Hm.
  - destruct (mongoUndo_post room w) as (h & Hv & Hpost). exists h.
    pose proof (mongoUndo_net room w) as Hnet.
    unfold bind, value, after in *.
    destruct (mongoUndo room w) as [r w1]. simpl in *. subst r.
    rewrite io_to_emit_unfold. simpl.
    unfold to_room. rewrite (members_same_net room w w1 Hnet).
    destruct Hnet as [_ ->]. split_and!; [done | done |].
    intros _. by injection Hpost as ->.
  - destruct (logs_are_points_log E room w (Hw eq_refl)) as (items & Hl & Hnn).
    destruct (removeLastStroke_returns_prefix E room w items Hl Hnn) as (r & Hv & _ & Hpost).
    exists r. pose proof (removeLastStroke_net room w) as Hnet.
    unfold bind, value, after in *.
    destruct (removeLastStroke E room w) as [r' w1]. simpl in *. subst r'.
    rewrite io_to_emit_unfold. simpl.
    unfold to_room. rewrite (members_same_net room w w1 Hnet).
    destruct Hnet as [_ ->]. split_and!; [done | done |].
    intros Hwr. rewrite (file_log_files E room w1) by done.
    by rewrite (Hpost (Hwr eq_refl)).
Qed.

End RouterFacts.

(** ** Applying a snapshot *)

Section ApplySnapshotFacts.
Context (E : env).

Abbreviation reinsert room items :=
  (for_of items (λ pt, mongoAppendPoint E room (JStr "snapshot") pt)).

Lemma for_of_cons_run {A} (x : A) rest body w :
  for_of (x :: rest) body w =
    match body x w with
    | (Ok _, w1) => for_of rest body w1
    | (Throw e, w1) => (Throw e, w1)
    end.
Proof. reflexivity. Qed.

Lemma matches_snapshot room w d :
  room_docs room w = [d] → doc_strokeId d = JStr "snapshot" →
  matches room (JStr "snapshot") d = true.
Proof.
  intros Hd Hs. unfold matches. rewrite Hs. simpl. rewrite andb_true_r.
  assert (In d (room_docs room w)) as Hin by (rewrite Hd; by left).
  by apply filter_In in Hin as [_ ?].
Qed.

Lemma reinsert_into room items w d :
  room_docs room w = [d] → doc_strokeId d = JStr "snapshot" →
  same_net w (after (reinsert room items w))
  ∧ files (after (reinsert room items w)) = files w
  ∧ (db_wf w → db_wf (after (reinsert room items w)))
  ∧ (value (reinsert room items w) = Ok tt
     ∨ value (reinsert room items w) = Throw CastError)
  ∧ ∃ pts,
      room_docs room (after (reinsert room items w))
      = [StrokeDoc (doc_id d) (doc_room d) (doc_strokeId d)
                   (doc_points d ++ pts) (doc_createdAt d)]
      ∧ (Forall (castable E) items →
         value (reinsert room items w) = Ok tt ∧ Forall2 (stored_as E) pts items)
      ∧ (Exists (uncastable E) items →
         value (reinsert room items w) = Throw CastError).
Proof.
  revert w d. induction items as [|x rest IH]; intros w d Hd Hs.
  - simpl. split_and!; [apply same_net_refl | done | done | by left |].
    exists []. split_and!.
    + rewrite app_nil_r, Hd. by destruct d.
    + intros _. split; [done | constructor].
    + intros H. by apply Exists_nil in H.
  - rewrite (for_of_cons_run x rest _ w).
    pose proof (mongoAppendPoint_sockets E room (JStr "snapshot") x w) as Hnet.
    pose proof (db_wf_append E room (JStr "snapshot") x w) as Hwf.
    pose proof (mongoAppendPoint_files E room (JStr "snapshot") x w) as Hfs.
    destruct (stored_point E x w) as [m|] eqn:Hm.
    + pose proof (mongoAppendPoint_value E room (JStr "snapshot") x w _ m eq_refl Hm)
        as Hv.
      pose proof (room_docs_append E room (JStr "snapshot") x w _ m eq_refl Hm)
        as Hdocs.
      unfold value, after in Hv, Hnet, Hwf, Hdocs, Hfs.
      destruct (mongoAppendPoint E room (JStr "snapshot") x w) as [r w1].
      simpl in *. subst r.
      rewrite Hd in Hdocs. simpl in Hdocs.
      rewrite (matches_snapshot room w d Hd Hs) in Hdocs.
      destruct (IH w1 _ Hdocs Hs) as (Hnet' & Hfs' & Hwf' & Hv' & pts & Hdocs' & Hok & Hbad).
      split_and!.
      * eapply same_net_trans; [|exact Hnet']. destruct Hnet. by split.
      * by rewrite Hfs'.
      * intros H. by apply Hwf', Hwf.
      * exact Hv'.
      * exists (m :: pts). split_and!.
        -- rewrite Hdocs'. simpl. by rewrite <- app_assoc.
        -- intros [Hx Hrest]%Forall_cons. destruct (Hok Hrest) as [Hv'' Hpts].
           split; [done|]. constructor; [|done]. by apply (stored_point_stored_as E x w).
        -- intros [Hx | Hrest]%Exists_cons; [|by apply Hbad].
           unfold stored_point in Hm. by rewrite Hx in Hm.
    + rewrite (mongoAppendPoint_refused E room (JStr "snapshot") x w (or_intror Hm)).
      simpl. split_and!; [by split | done | done | by right |].
      exists []. split_and!.
      * rewrite app_nil_r. change (room_docs room w = [StrokeDoc (doc_id d) (doc_room d)
          (doc_strokeId d) (doc_points d) (doc_createdAt d)]). rewrite Hd. by destruct d.
      * intros [Hx _]%Forall_cons.
        destruct (castable_stored_point E x w Hx) as [m Hm']. congruence.
      * done.
Qed.

(** Re-inserting into a room without documents leaves it with no document
    or with one, of strokeId ["snapshot"]. *)
Lemma reinsert_from_empty room items w :
  room_docs room w = [] →
  same_net w (after (reinsert room items w))
  ∧ files (after (reinsert room items w)) = files w
  ∧ (db_wf w → db_wf (after (reinsert room items w)))
  ∧ (value (reinsert room items w) = Ok tt
     ∨ value (reinsert room items w) = Throw CastError)
  ∧ (room_docs room (after (reinsert room items w)) = []
     ∨ ∃ d, room_docs room (after (reinsert room items w)) = [d]
            ∧ doc_strokeId d = JStr "snapshot")
  ∧ (Forall (castable E) items →
     value (reinsert room items w) = Ok tt
     ∧ ((items = [] ∧ room_docs room (after (reinsert room items w)) = [])
        ∨ (items ≠ [] ∧ ∃ d, room_docs room (after (reinsert room items w)) = [d]
                             ∧ doc_strokeId d = JStr "snapshot"
                             ∧ Forall2 (stored_as E) (doc_points d) items)))
  ∧ (Exists (uncastable E) items →
     value (reinsert room items w) = Throw CastError).
Proof.
  intros Hd. destruct items as [|x rest].
  - simpl. split_and!; [apply same_net_refl | done | done | by left | by left | |].
    + intros _. split; [done|]. by left.
    + intros H. by apply Exists_nil in H.
  - rewrite (for_of_cons_run x rest _ w).
    pose proof (mongoAppendPoint_sockets E room (JStr "snapshot") x w) as Hnet.
    pose proof (db_wf_append E room (JStr "snapshot") x w) as Hwf.
    pose proof (mongoAppendPoint_files E room (JStr "snapshot") x w) as Hfs.
    destruct (stored_point E x w) as [m|] eqn:Hm.
    + pose proof (mongoAppendPoint_value E room (JStr "snapshot") x w _ m eq_refl Hm)
        as Hv.
      pose proof (room_docs_append E room (JStr "snapshot") x w _ m eq_refl Hm)
        as Hdocs.
      unfold value, after in Hv, Hnet, Hwf, Hdocs, Hfs.
      destruct (mongoAppendPoint E room (JStr "snapshot") x w) as [r w1].
      simpl in *. subst r.
      rewrite Hd in Hdocs. simpl in Hdocs.
      destruct (reinsert_into room rest w1 _ Hdocs eq_refl)
        as (Hnet' & Hfs' & Hwf' & Hv' & pts & Hdocs' & Hok & Hbad).
      simpl in Hdocs'.
      split_and!.
      * eapply same_net_trans; [|exact Hnet']. destruct Hnet. by split.
      * by rewrite Hfs'.
      * intros H. by apply Hwf', Hwf.
      * exact Hv'.
      * right. eexists. split; [exact Hdocs' | done].
      * intros [Hx Hrest]%Forall_cons. destruct (Hok Hrest) as [Hv'' Hpts].
        split; [done|]. right. split; [done|].
        eexists. split_and!; [exact Hdocs' | done |]. simpl.
        constructor; [|done]. by apply (stored_point_stored_as E x w).
      * intros [Hx | Hrest]%Exists_cons; [|by apply Hbad].
        unfold stored_point in Hm. by rewrite Hx in Hm.
    + rewrite (mongoAppendPoint_refused E room (JStr "snapshot") x w (or_intror Hm)).
      simpl. split_and!; [by split | done | done | by right | by left | | done].
      intros [Hx _]%Forall_cons.
      destruct (castable_stored_point E x w Hx) as [m Hm']. congruence.
Qed.

(** The handler on the document store: the room is cleared and the
    points re-inserted one by one; when all of them are stored the payload
    is sent to the room, and when one is refused the handler throws there,
    nothing sent. *)
Lemma on_applySnapshot_mongo id room items w :
  useMongo E = true →
  ∃ w1,
    same_net w w1 ∧ files w1 = files w ∧ (db_wf w → db_wf w1)
    ∧ (room_docs room w1 = []
       ∨ ∃ d, room_docs room w1 = [d] ∧ doc_strokeId d = JStr "snapshot")
    ∧ (on_applySnapshot E id room (JArr items) w
       = (Ok tt, set_outbox (λ o, o ++ to_room room "resetWithHistory" (JArr items) w) w1)
       ∨ on_applySnapshot E id room (JArr items) w = (Throw CastError, w1))
    ∧ (Forall (castable E) items →
       on_applySnapshot E id room (JArr items) w
       = (Ok tt, set_outbox (λ o, o ++ to_room room "resetWithHistory" (JArr items) w) w1)
       ∧ ((items = [] ∧ room_docs room w1 = [])
          ∨ (items ≠ [] ∧ ∃ d, room_docs room w1 = [d]
                               ∧ doc_strokeId d = JStr "snapshot"
                               ∧ Forall2 (stored_as E) (doc_points d) items)))
    ∧ (Exists (uncastable E) items →
       on_applySnapshot E id room (JArr items) w = (Throw CastError, w1)).
Proof.
  intros Hm. unfold on_applySnapshot. rewrite Hm.
  set (w0 := after (mongoClear room w)).
  destruct (reinsert_from_empty room items w0 (room_docs_clear room w))
    as (Hnet & Hfs & Hwf & Hv & Hdocs & Hok & Hbad).
  exists (after (reinsert room items w0)).
  assert (Hrun : ∀ r, value (reinsert room items w0) = r →
    bind (bind (mongoClear room) (λ _, reinsert room items))
         (λ _, io_to_emit room "resetWithHistory" (JArr items)) w
    = match r with
      | Ok _ => (Ok tt, set_outbox
                          (λ o, o ++ to_room room "resetWithHistory" (JArr items) w)
                          (after (reinsert room items w0)))
      | Throw e => (Throw e, after (reinsert room items w0))
      end).
  { intros r Hr. unfold bind at 1. unfold bind at 1.
    change (mongoClear room w) with (Ok tt, w0).
    unfold value, after in *. destruct (reinsert room items w0) as [r' w1].
    simpl in *. subst r'. destruct r as [[]|e]; [|done].
    rewrite io_to_emit_unfold. unfold to_room.
    by rewrite (members_same_net room w0 w1 Hnet). }
  split_and!.
  - exact Hnet.
  - exact Hfs.
  - intros H. by apply Hwf, db_wf_clear.
  - exact Hdocs.
  - destruct Hv as [Hv | Hv]; [left | right]; by rewrite (Hrun _ Hv).
  - intros Hall. destruct (Hok Hall) as [Hv' Hd]. split; [by rewrite (Hrun _ Hv') | done].
  - intros Hex. by rewrite (Hrun _ (Hbad Hex)).
Qed.

Lemma load_single room w d :
  room_docs room w = [d] → value (mongoLoadAllPoints room w) = Ok (doc_points d).
Proof.
  intros Hd. rewrite mongoLoadAllPoints_unfold, Hd. simpl. by rewrite app_nil_r.
Qed.

Lemma load_none room w :
  room_docs room w = [] → value (mongoLoadAllPoints room w) = Ok [].
Proof. intros Hd. by rewrite mongoLoadAllPoints_unfold, Hd. Qed.

Lemma room_docs_set_outbox room f w :
  room_docs room (set_outbox f w) = room_docs room w.
Proof. reflexivity. Qed.

Lemma on_undo_mongo_none id room w :
  useMongo E = true → room_docs room w = [] →
  on_undo E id room w
  = (Ok tt, set_outbox (λ o, o ++ to_room room "resetWithHistory" (JArr []) w) w).
Proof.
  intros Hm Hd. unfold on_undo. rewrite Hm. unfold bind.
  by rewrite mongoUndo_unfold, Hd.
Qed.

Lemma on_undo_mongo_single id room w d :
  useMongo E = true → db_wf w → room_docs room w = [d] →
  on_undo E id room w
  = (Ok tt, set_outbox (λ o, o ++ to_room room "resetWithHistory" (JArr []) w)
              (set_strokes (delete_first (doc_id d)) w))
  ∧ room_docs room
      (set_outbox (λ o, o ++ to_room room "resetWithHistory" (JArr []) w)
         (set_strokes (delete_first (doc_id d)) w)) = [].
Proof.
  intros Hm Hwf Hd.
  assert (Hgone : room_docs room (set_strokes (delete_first (doc_id d)) w) = []).
  { apply (room_docs_delete_last room w [] d Hwf). by rewrite Hd. }
  split; [|exact Hgone].
  unfold on_undo. rewrite Hm. unfold bind. rewrite mongoUndo_unfold, Hd.
  cbn [sort_desc foldr insert_desc head].
  rewrite mongoLoadAllPoints_unfold, Hgone. reflexivity.
Qed.

End ApplySnapshotFacts.

(** C5, as the code has it. An [applySnapshot] whose payload is not an
    array changes nothing: no store is touched and nothing is sent. With
    an array payload, on the file backend the room's log is replaced by
    the payload (unless the write fails) and [resetWithHistory] with the
    payload is sent to every connection of the room, the sender among
    them. On the document store the room is cleared and the points are
    stored one by one: when every point casts, the room's log becomes the
    stored forms of the payload's points, in order, and the payload is
    sent to the room; when a point does not cast the handler throws there,
    the room left with what was stored until then, and nothing is sent. *)
Theorem applySnapshot_guard (E : env) (id : string) (history : json) (w : world) :
  (isArray history = false → handle E (ApplySnapshot id history) w = (Ok tt, w))
  ∧ (∀ room items,
       history = JArr items → room_of id w = Some room →
       let w' := after (handle E (ApplySnapshot id history) w) in
       In id (members room w)
       ∧ (useMongo E = false →
          outbox w' = outbox w ++ to_room room "resetWithHistory" history w
          ∧ (write_fails E (fileForRoom E room) = false →
             file_log E room w' = Ok (SArr items)
             ∧ store_contents E room w' = history))
       ∧ (useMongo E = true → Forall (castable E) items →
          outbox w' = outbox w ++ to_room room "resetWithHistory" history w
          ∧ ∃ pts, value (mongoLoadAllPoints room w') = Ok pts
                   ∧ store_contents E room w' = JArr pts
                   ∧ Forall2 (stored_as E) pts items)
       ∧ (useMongo E = true → Exists (uncastable E) items →
          value (handle E (ApplySnapshot id history) w) = Throw CastError
          ∧ outbox w' = outbox w
          ∧ (room_docs room w' = []
             ∨ ∃ d, room_docs room w' = [d] ∧ doc_strokeId d = JStr "snapshot"))).
Proof.
  split.
  - intros Hna. simpl. unfold with_room, bind, gets. simpl.
    destruct (room_of id w); [|done]. by destruct history.
  - intros room items -> Hr. cbv zeta. unfold handle.
    rewrite (with_room_some id room _ w Hr).
    split; [by apply room_of_member|].
    destruct (useMongo E) eqn:Hm.
    + destruct (on_applySnapshot_mongo E id room items w Hm)
        as (w1 & Hnet & _ & _ & Hleft & _ & Hok & Hbad).
      split_and!; [done | |].
      * intros _ Hall. destruct (Hok Hall) as [-> Hdocs].
        simpl. destruct Hnet as [_ Ho]. rewrite Ho. split; [done|].
        unfold store_contents. rewrite Hm, room_docs_set_outbox.
        destruct Hdocs as [[-> Hd] | (_ & d & Hd & _ & Hpts)].
        -- exists []. rewrite Hd. split_and!; [| done | constructor].
           by apply (load_none room).
        -- exists (doc_points d). rewrite Hd. simpl. rewrite app_nil_r.
           split_and!; [| done | done]. by apply (load_single room).
      * intros _ Hex. rewrite (Hbad Hex). simpl. by destruct Hnet as [_ ->].
    + split_and!; [| done | done]. intros _.
      unfold on_applySnapshot. rewrite Hm. unfold bind.
      pose proof (saveStrokes_net E room items w) as Hnet.
      pose proof (file_log_saved E room items w) as Hlog.
      unfold after in *. destruct (saveStrokes E room items w) as [[[]|e] w1] eqn:Hs.
      * rewrite io_to_emit_unfold. simpl in *.
        unfold to_room. rewrite (members_same_net room w w1 Hnet).
        destruct Hnet as [_ ->].
        split; [done|].
        intros Hwr.
        assert (Hl : file_log E room
                       (set_outbox (λ o, o ++ map (λ i, Emission i "resetWithHistory"
                                                         (JArr items)) (members room w)) w1)
                     = Ok (SArr items)).
        { rewrite (file_log_files E room w1) by done. by apply Hlog. }
        split; [exact Hl|].
        by rewrite (file_log_contents E room _ _ Hm Hl).
      * pose proof (saveStrokes_ok E room items w) as Hok.
        unfold value in Hok. rewrite Hs in Hok. done.
Qed.

(** C5 as stated fails on the document store: after [applySnapshot] of a
    one-point payload the room's log is not the payload. The stored point
    has lost the [strokeId], which the point schema does not declare, and
    carries an [order]. *)
Lemma applySnapshot_stores_cast_points :
  room_of "A" (run Sample.E_mongo [Connection "A" (Some "alpha")] empty_world)
  = Some "alpha"
  ∧ log_fields "strokeId" (JArr [Sample.s1_start]) = [Some (JStr "s1")]
  ∧ log_fields "order" (JArr [Sample.s1_start]) = [None]
  ∧ log_fields "strokeId"
      (store_contents Sample.E_mongo "alpha"
         (run Sample.E_mongo
            [Connection "A" (Some "alpha"); ApplySnapshot "A" (JArr [Sample.s1_start])]
            empty_world))
    = [None]
  ∧ log_fields "order"
      (store_contents Sample.E_mongo "alpha"
         (run Sample.E_mongo
            [Connection "A" (Some "alpha"); ApplySnapshot "A" (JArr [Sample.s1_start])]
            empty_world))
    = [Some (JNum 0)]
  ∧ persisted_log Sample.E_mongo "alpha"
      (run Sample.E_mongo
         [Connection "A" (Some "alpha"); ApplySnapshot "A" (JArr [Sample.s1_start])]
         empty_world)
    ≠ Ok (JArr [Sample.s1_start]).
Proof.
  split_and!; [vm_compute; reflexivity.. |]. vm_compute. discriminate.
Qed.



(** ** The two backends on the same events *)

Section BackendSteps.
Context (E : env).

Lemma socket_to_emit_unfold id room ev args w :
  socket_to_emit id room ev args w
  = (Ok tt, set_outbox
              (λ o, o ++ map (λ i, Emission i ev args)
                             (List.filter (λ i, negb (String.eqb i id)) (members room w)))
              w).
Proof. reflexivity. Qed.

Lemma appendStroke_log room pt L w :
  file_log E room w = Ok (SArr L) →
  write_fails E (fileForRoom E room) = false →
  file_log E room (after (appendStroke E room pt w)) = Ok (SArr (L ++ [pt]))
  ∧ sockets (after (appendStroke E room pt w)) = sockets w.
Proof.
  intros Hl Hw. unfold appendStroke, bind.
  pose proof (loadStrokes_net E room w) as [Hs _].
  unfold file_log, value, after in *.
  destruct (loadStrokes E room w) as [r w1]. simpl in *. subst r.
  pose proof (saveStrokes_net E room (L ++ [pt]) w1) as [Hs' _].
  pose proof (file_log_saved E room (L ++ [pt]) w1 Hw) as Hlog.
  unfold file_log, value, after in *.
  split; [exact Hlog | congruence].
Qed.

(** *** The file backend *)

Lemma step_draw_file id room data L w :
  useMongo E = false → room_of id w = Some room →
  file_log E room w = Ok (SArr L) →
  write_fails E (fileForRoom E room) = false →
  file_log E room (step E w (Draw id data)) = Ok (SArr (L ++ [data]))
  ∧ sockets (step E w (Draw id data)) = sockets w.
Proof.
  intros Hm Hr Hl Hw. unfold step, handle. rewrite (with_room_some id room _ w Hr).
  unfold on_draw. rewrite Hm. unfold bind at 1. rewrite socket_to_emit_unfold.
  set (w0 := set_outbox _ w).
  apply (appendStroke_log room data L w0); [|done].
  by rewrite (file_log_files E room w w0).
Qed.

Lemma step_clear_file id room w :
  useMongo E = false → room_of id w = Some room →
  write_fails E (fileForRoom E room) = false →
  file_log E room (step E w (Clear id)) = Ok (SArr [])
  ∧ sockets (step E w (Clear id)) = sockets w.
Proof.
  intros Hm Hr Hw. unfold step, handle. rewrite (with_room_some id room _ w Hr).
  unfold on_clear. rewrite Hm. unfold bind at 1. rewrite socket_to_emit_unfold.
  set (w0 := set_outbox _ w).
  split; [by apply file_log_saved|].
  exact (proj1 (saveStrokes_net E room [] w0)).
Qed.

Lemma step_undo_file id room L w :
  useMongo E = false → room_of id w = Some room →
  file_log E room w = Ok (SArr L) →
  write_fails E (fileForRoom E room) = false →
  sockets (step E w (Undo id)) = sockets w
  ∧ (∀ pre s post, L = pre ++ s :: post → is_start s →
       Forall (λ p, p ≠ JNull ∧ ¬ is_start p) post →
       file_log E room (step E w (Undo id)) = Ok (SArr pre))
  ∧ (L = [] → file_log E room (step E w (Undo id)) = Ok (SArr [])).
Proof.
  intros Hm Hr Hl Hw. unfold step, handle. rewrite (with_room_some id room _ w Hr).
  unfold on_undo. rewrite Hm.
  pose proof (removeLastStroke_net E room w) as [Hs _].
  assert (Hlog : ∀ r, value (removeLastStroke E room w) = Ok r →
            file_log E room
              (after (bind (removeLastStroke E room)
                        (λ history, io_to_emit room "resetWithHistory" (JArr history)) w))
            = file_log E room (after (removeLastStroke E room w))).
  { intros r Hr'. unfold bind, value, after in *.
    destruct (removeLastStroke E room w) as [r' w1]. simpl in Hr'. subst r'.
    by apply file_log_files. }
  split_and!.
  - unfold bind, after in *. by destruct (removeLastStroke E room w) as [[r|e] w1].
  - intros pre s post -> Hst Hpost.
    destruct (removeLastStroke_found E room w pre post s Hl Hst Hpost) as [Hv Hpersist].
    rewrite (Hlog pre Hv). by apply Hpersist.
  - intros ->.
    destruct (removeLastStroke_no_start E room w [] Hl ltac:(constructor)) as [Hv Hpersist].
    rewrite (Hlog [] Hv). by apply Hpersist.
Qed.

(** *** The document store *)

Lemma push_first_fresh room sid pt ds :
  Forall (λ d, doc_strokeId d ≠ sid) ds → push_first room sid pt ds = None.
Proof.
  induction 1 as [|d ds Hd _ IH]; [done|]. simpl.
  unfold matches. assert (Json.eqb (doc_strokeId d) sid = false) as ->.
  { apply not_true_iff_false. by rewrite json_eqb_eq. }
  rewrite andb_false_r. by rewrite IH.
Qed.

Lemma push_first_last room sid pt ds d :
  Forall (λ x, doc_strokeId x ≠ sid) ds →
  in_room room d = true → doc_strokeId d = sid →
  push_first room sid pt (ds ++ [d])
  = Some (ds ++ [StrokeDoc (doc_id d) (doc_room d) (doc_strokeId d)
                           (doc_points d ++ [pt]) (doc_createdAt d)]).
Proof.
  intros Hds Hr Hs. induction Hds as [|x ds Hx _ IH]; simpl.
  - unfold matches. rewrite Hr, Hs.
    by rewrite (proj2 (json_eqb_eq sid sid) eq_refl).
  - unfold matches at 1. assert (Json.eqb (doc_strokeId x) sid = false) as ->.
    { apply not_true_iff_false. by rewrite json_eqb_eq. }
    rewrite andb_false_r. by rewrite IH.
Qed.

Lemma step_draw_mongo id room fs w key m :
  useMongo E = true → room_of id w = Some room →
  castString E (or_legacy (field "strokeId" fs)) = Some key →
  stored_point E (JObj fs) w = Some m →
  let w' := step E w (Draw id (JObj fs)) in
  room_docs room w' =
    match push_first room key m (room_docs room w) with
    | Some ds' => ds'
    | None => room_docs room w
              ++ [StrokeDoc (next_oid w) room key [m] (clock E (S (ticks w)))]
    end
  ∧ ticks w' = S (S (ticks w))
  ∧ sockets w' = sockets w
  ∧ (db_wf w → db_wf w').
Proof.
  intros Hm Hr Hk Hpt w'. unfold w', step, handle.
  rewrite (with_room_some id room _ w Hr).
  unfold on_draw. rewrite Hm. unfold bind at 1. rewrite socket_to_emit_unfold.
  set (w0 := set_outbox _ w). unfold bind at 1. simpl strokeId_of. unfold ret.
  set (sid := or_legacy (field "strokeId" fs)) in *. split_and!.
  - apply (room_docs_append E room sid (JObj fs) w0 key m Hk Hpt).
  - apply (mongoAppendPoint_ticks E room sid (JObj fs) w0).
  - apply (mongoAppendPoint_sockets E room sid (JObj fs) w0).
  - apply (db_wf_append E room sid (JObj fs) w0).
Qed.

Lemma step_clear_mongo id room w :
  useMongo E = true → room_of id w = Some room →
  let w' := step E w (Clear id) in
  room_docs room w' = [] ∧ ticks w' = ticks w ∧ sockets w' = sockets w
  ∧ (db_wf w → db_wf w').
Proof.
  intros Hm Hr w'. unfold w', step, handle.
  rewrite (with_room_some id room _ w Hr).
  unfold on_clear. rewrite Hm. unfold bind at 1. rewrite socket_to_emit_unfold.
  set (w0 := set_outbox _ w).
  split_and!; [apply (room_docs_clear room w0) | done | done |].
  apply (db_wf_clear room w0).
Qed.

Lemma step_undo_mongo id room w :
  useMongo E = true → room_of id w = Some room →
  db_wf w →
  StronglySorted (λ a b, (doc_createdAt a < doc_createdAt b)%Z) (room_docs room w) →
  let w' := step E w (Undo id) in
  room_docs room w' = removelast (room_docs room w)
  ∧ ticks w' = ticks w ∧ sockets w' = sockets w ∧ db_wf w'
  ∧ outbox w' = outbox w
      ++ to_room room "resetWithHistory"
           (JArr (List.concat (map doc_points (removelast (room_docs room w))))) w.
Proof.
  intros Hm Hr Hwf Hsorted w'. unfold w', step, handle.
  rewrite (with_room_some id room _ w Hr).
  destruct (room_docs room w) as [|d0 ds0] eqn:Hd using rev_ind.
  - rewrite (on_undo_mongo_none E id room w Hm Hd). unfold after. cbn [snd].
    rewrite room_docs_set_outbox, Hd.
    split_and!; [done | done | done | exact Hwf | done].
  - clear IHds0. rename d0 into dl, ds0 into dsl.
    assert (Hgone : room_docs room (set_strokes (delete_first (doc_id dl)) w) = dsl)
      by (by apply (room_docs_delete_last room w dsl dl Hwf)).
    assert (Hsorted' : StronglySorted
              (λ a b, (doc_createdAt a < doc_createdAt b)%Z) dsl)
      by (by apply StronglySorted_app in Hsorted as (_ & ? & _)).
    assert (Hu : on_undo E id room w
                 = (Ok tt, set_outbox
                             (λ o, o ++ to_room room "resetWithHistory"
                                          (JArr (List.concat (map doc_points dsl))) w)
                             (set_strokes (delete_first (doc_id dl)) w))).
    { unfold on_undo. rewrite Hm. unfold bind.
      rewrite mongoUndo_unfold, Hd.
      rewrite (sort_desc_sorted _ Hsorted), rev_app_distr. cbn [rev app head].
      rewrite mongoLoadAllPoints_unfold, Hgone, (sort_asc_sorted _ Hsorted').
      reflexivity. }
    rewrite Hu. unfold after. cbn [snd].
    rewrite room_docs_set_outbox, removelast_last.
    split_and!; [done | done | done | by apply db_wf_delete | done].
Qed.

(** *** Undo and the reset it sends *)

Lemma contents_file_log room L w :
  useMongo E = false → store_contents E room w = JArr L →
  file_log E room w = Ok (SArr L).
Proof.
  unfold store_contents, file_log. intros -> H. rewrite loadStrokes_unfold.
  destruct (files w !! fileForRoom E room) as [[[items|? ? ? ?]| |]|];
    simpl in *; congruence.
Qed.

Lemma step_undo_file_reset id room r w :
  useMongo E = false → room_of id w = Some room →
  value (removeLastStroke E room w) = Ok r →
  outbox (step E w (Undo id)) = outbox w ++ to_room room "resetWithHistory" (JArr r) w
  ∧ files (step E w (Undo id)) = files (after (removeLastStroke E room w)).
Proof.
  intros Hm Hr Hv. unfold step, handle. rewrite (with_room_some id room _ w Hr).
  unfold on_undo. rewrite Hm.
  pose proof (removeLastStroke_net E room w) as Hnet.
  unfold bind, value, after in *.
  destruct (removeLastStroke E room w) as [r' w1]. simpl in *. subst r'.
  rewrite io_to_emit_unfold. simpl. unfold to_room.
  rewrite (members_same_net room w w1 Hnet). destruct Hnet as [_ ->]. done.
Qed.

Lemma step_undo_file_contents id room r w :
  useMongo E = false → room_of id w = Some room →
  value (removeLastStroke E room w) = Ok r →
  file_log E room (after (removeLastStroke E room w)) = Ok (SArr r) →
  store_contents E room (step E w (Undo id)) = JArr r.
Proof.
  intros Hm Hr Hv Hl.
  destruct (step_undo_file_reset id room r w Hm Hr Hv) as [_ Hf].
  apply (file_log_contents E room _ (SArr r) Hm).
  by rewrite (file_log_files E room _ _ Hf).
Qed.

End BackendSteps.

(** C4. A connection that joins a room is sent, and it alone, one
    [history] message carrying what the store holds for the room, the
    room's full point sequence in order. When a connection of a room emits
    [undo], every connection of that room, the sender among them, is sent
    [resetWithHistory] with the log as it is after the undo. On the file
    backend that is the log up to its last start point (the points after
    it being points, none null), the empty log when it has no start
    point; on the document store it is the log without the points of the
    stroke document created last, the stroke documents of the room having
    distinct creation times. So after the undo of the only stroke every
    member of the room is sent [resetWithHistory([])]. *)
Theorem join_history_undo_reset (E : env) (w : world) :
  (∀ id raw,
     outbox (step E w (Connection id raw))
     = outbox w
       ++ [Emission id "history"
             (store_contents E (sanitizeRoom (default "lobby" raw)) w)])
  ∧ (∀ id room, room_of id w = Some room → In id (members room w))
  ∧ (∀ id room pre s tl,
       useMongo E = false → room_of id w = Some room →
       store_contents E room w = JArr (pre ++ s :: tl) →
       is_start s → Forall (λ p, p ≠ JNull ∧ ¬ is_start p) tl →
       outbox (step E w (Undo id))
       = outbox w ++ to_room room "resetWithHistory" (JArr pre) w
       ∧ (write_fails E (fileForRoom E room) = false →
          store_contents E room (step E w (Undo id)) = JArr pre))
  ∧ (∀ id room L,
       useMongo E = false → room_of id w = Some room →
       store_contents E room w = JArr L →
       Forall (λ p, p ≠ JNull ∧ ¬ is_start p) L →
       outbox (step E w (Undo id))
       = outbox w ++ to_room room "resetWithHistory" (JArr []) w
       ∧ (write_fails E (fileForRoom E room) = false →
          store_contents E room (step E w (Undo id)) = JArr []))
  ∧ (∀ id room ds d,
       useMongo E = true → room_of id w = Some room → db_wf w →
       room_docs room w = ds ++ [d] →
       StronglySorted (λ a b, (doc_createdAt a < doc_createdAt b)%Z) (ds ++ [d]) →
       store_contents E room w
       = JArr (List.concat (map doc_points ds) ++ doc_points d)
       ∧ outbox (step E w (Undo id))
         = outbox w
           ++ to_room room "resetWithHistory"
                (JArr (List.concat (map doc_points ds))) w
       ∧ room_docs room (step E w (Undo id)) = ds
       ∧ store_contents E room (step E w (Undo id))
         = JArr (List.concat (map doc_points ds)))
  ∧ (∀ id room,
       useMongo E = true → room_of id w = Some room → room_docs room w = [] →
       outbox (step E w (Undo id))
       = outbox w ++ to_room room "resetWithHistory" (JArr []) w
       ∧ store_contents E room (step E w (Undo id)) = JArr [])
  ∧ (∀ id room s tl,
       useMongo E = false → room_of id w = Some room →
       store_contents E room w = JArr (s :: tl) →
       is_start s → Forall (λ p, p ≠ JNull ∧ ¬ is_start p) tl →
       outbox (step E w (Undo id))
       = outbox w ++ to_room room "resetWithHistory" (JArr []) w)
  ∧ (∀ id room d,
       useMongo E = true → room_of id w = Some room → db_wf w →
       room_docs room w = [d] →
       outbox (step E w (Undo id))
       = outbox w ++ to_room room "resetWithHistory" (JArr []) w
       ∧ room_docs room (step E w (Undo id)) = []).
Proof.
  split_and!.
  - intros id raw. unfold step, handle.
    apply on_connection_outbox, persisted_log_contents.
  - intros id room. apply room_of_member.
  - intros id room pre s tl Hm Hr Hc Hs Htl.
    pose proof (contents_file_log E room _ w Hm Hc) as Hl.
    destruct (removeLastStroke_found E room w pre tl s Hl Hs Htl) as [Hv Hpost].
    split; [by apply (step_undo_file_reset E id room pre w Hm Hr Hv)|].
    intros Hw. by apply (step_undo_file_contents E id room pre w Hm Hr Hv), Hpost.
  - intros id room L Hm Hr Hc HL.
    pose proof (contents_file_log E room _ w Hm Hc) as Hl.
    destruct (removeLastStroke_no_start E room w L Hl HL) as [Hv Hpost].
    split; [by apply (step_undo_file_reset E id room [] w Hm Hr Hv)|].
    intros Hw. by apply (step_undo_file_contents E id room [] w Hm Hr Hv), Hpost.
  - intros id room ds d Hm Hr Hwf Hd Hsorted.
    assert (Hsorted' : StronglySorted (λ a b, (doc_createdAt a < doc_createdAt b)%Z) ds)
      by (by apply StronglySorted_app in Hsorted as (_ & ? & _)).
    destruct (step_undo_mongo E id room w Hm Hr Hwf) as (Hd' & _ & _ & _ & Ho);
      [by rewrite Hd|].
    rewrite Hd, removelast_last in Hd', Ho.
    split_and!.
    + unfold store_contents. rewrite Hm, Hd, (sort_asc_sorted _ Hsorted).
      by rewrite map_app, concat_app; simpl; rewrite app_nil_r.
    + exact Ho.
    + exact Hd'.
    + unfold store_contents. by rewrite Hm, Hd', (sort_asc_sorted _ Hsorted').
  - intros id room Hm Hr Hd.
    unfold step, handle. rewrite (with_room_some id room _ w Hr).
    rewrite (on_undo_mongo_none E id room w Hm Hd). simpl.
    split; [done|]. unfold store_contents. by rewrite Hm, room_docs_set_outbox, Hd.
  - intros id room s tl Hm Hr Hc Hs Htl.
    pose proof (contents_file_log E room _ w Hm Hc) as Hl.
    destruct (removeLastStroke_found E room w [] tl s Hl Hs Htl) as [Hv _].
    by apply (step_undo_file_reset E id room [] w Hm Hr Hv).
  - intros id room d Hm Hr Hwf Hd.
    destruct (step_undo_mongo E id room w Hm Hr Hwf) as (Hd' & _ & _ & _ & Ho).
    + rewrite Hd. repeat constructor.
    + rewrite Hd in Hd', Ho. by split.
Qed.

(** The scenario of the specification, run on both backends: B's history
    is the two points in order (on the document store in their stored
    form, without the [strokeId]), and both A and B are sent
    [resetWithHistory([])]. *)
Example scenario_alpha_file :
  outbox (run Sample.E_file Scenario.alpha empty_world) =
    [Emission "A" "history" (JArr []);
     Emission "B" "history" (JArr [Sample.s1_start; Sample.s1_draw]);
     Emission "A" "resetWithHistory" (JArr []);
     Emission "B" "resetWithHistory" (JArr [])].
Proof. vm_compute. reflexivity. Qed.

Example scenario_alpha_mongo :
  map (λ e, (em_to e, em_event e)) (outbox (run Sample.E_mongo Scenario.alpha empty_world))
  = [("A", "history"); ("B", "history");
     ("A", "resetWithHistory"); ("B", "resetWithHistory")]
  ∧ map (λ e, log_fields "x" (em_payload e))
      (outbox (run Sample.E_mongo Scenario.alpha empty_world))
    = [[]; [Some (JNum 0); Some (JNum 5)]; []; []]
  ∧ map (λ e, log_fields "type" (em_payload e))
      (outbox (run Sample.E_mongo Scenario.alpha empty_world))
    = [[]; [Some (JStr "start"); Some (JStr "draw")]; []; []]
  ∧ map (λ e, log_fields "strokeId" (em_payload e))
      (outbox (run Sample.E_mongo Scenario.alpha empty_world))
    = [[]; [None; None]; []; []]
  ∧ map em_payload
      (List.filter (λ e, String.eqb (em_event e) "resetWithHistory")
         (outbox (run Sample.E_mongo Scenario.alpha empty_world)))
    = [JArr []; JArr []].
Proof. split_and!; vm_compute; reflexivity. Qed.

Lemma join_history_undo_reset_witness :
  (useMongo Sample.E_file = false
   ∧ room_of "A" (run Sample.E_file Scenario.before_undo empty_world) = Some "alpha"
   ∧ store_contents Sample.E_file "alpha"
       (run Sample.E_file Scenario.before_undo empty_world)
     = JArr ([] ++ Sample.s1_start :: [Sample.s1_draw])
   ∧ is_start Sample.s1_start
   ∧ Forall (λ p, p ≠ JNull ∧ ¬ is_start p) [Sample.s1_draw]
   ∧ members "alpha" (run Sample.E_file Scenario.before_undo empty_world) = ["A"; "B"]
   ∧ outbox (step Sample.E_file (run Sample.E_file Scenario.before_undo empty_world)
               (Undo "A"))
     = outbox (run Sample.E_file Scenario.before_undo empty_world)
       ++ to_room "alpha" "resetWithHistory" (JArr [])
            (run Sample.E_file Scenario.before_undo empty_world))
  ∧ (useMongo Sample.E_mongo = true
     ∧ room_of "A" (run Sample.E_mongo Scenario.before_undo empty_world) = Some "alpha"
     ∧ db_wf (run Sample.E_mongo Scenario.before_undo empty_world)
     ∧ ∃ d, room_docs "alpha" (run Sample.E_mongo Scenario.before_undo empty_world) = [d]
            ∧ List.length (doc_points d) = 2
            ∧ outbox (step Sample.E_mongo
                        (run Sample.E_mongo Scenario.before_undo empty_world) (Undo "A"))
              = outbox (run Sample.E_mongo Scenario.before_undo empty_world)
                ++ to_room "alpha" "resetWithHistory" (JArr [])
                     (run Sample.E_mongo Scenario.before_undo empty_world)).
Proof.
  assert (Hr : room_of "A" (run Sample.E_file Scenario.before_undo empty_world)
               = Some "alpha") by (vm_compute; reflexivity).
  assert (Hc : store_contents Sample.E_file "alpha"
                 (run Sample.E_file Scenario.before_undo empty_world)
               = JArr ([] ++ Sample.s1_start :: [Sample.s1_draw]))
    by (vm_compute; reflexivity).
  assert (Hs : is_start Sample.s1_start) by (eexists; split; reflexivity).
  assert (Ht : Forall (λ p, p ≠ JNull ∧ ¬ is_start p) [Sample.s1_draw]).
  { repeat constructor; [discriminate|].
    intros (fs & Heq & Hf). injection Heq as <-. discriminate Hf. }
  assert (Hrm : room_of "A" (run Sample.E_mongo Scenario.before_undo empty_world)
                = Some "alpha") by (vm_compute; reflexivity).
  assert (Hwf : db_wf (run Sample.E_mongo Scenario.before_undo empty_world)).
  { split.
    - vm_compute. apply NoDup_singleton.
    - vm_compute. repeat constructor. }
  split.
  - split_and!; [reflexivity | exact Hr | exact Hc | exact Hs | exact Ht
                | vm_compute; reflexivity |].
    exact (proj1 (proj1 (proj2 (proj2
      (join_history_undo_reset Sample.E_file
         (run Sample.E_file Scenario.before_undo empty_world))))
      "A" "alpha" [] Sample.s1_start [Sample.s1_draw] eq_refl Hr Hc Hs Ht)).
  - split_and!; [reflexivity | exact Hrm | exact Hwf |].
    eexists. split; [vm_compute; reflexivity|]. split; [reflexivity|].
    refine (proj1 (proj2 (proj2 (proj2 (proj2 (proj2 (proj2 (proj2
      (join_history_undo_reset Sample.E_mongo
         (run Sample.E_mongo Scenario.before_undo empty_world))))))))
      "A" "alpha" _ eq_refl Hrm Hwf _)).
    vm_compute. reflexivity.
Defined.

Section Simulation.
Context (E : env) (room : string) (w0 : world).
Hypothesis clock_increasing : ∀ i j, i < j → (clock E i < clock E j)%Z.
Hypothesis log_writable : write_fails E (fileForRoom E room) = false.

Abbreviation Ef := (with_mongo false E).
Abbreviation Em := (with_mongo true E).

Lemma room_of_sockets id w w' : sockets w' = sockets w → room_of id w' = room_of id w.
Proof. unfold room_of. by intros ->. Qed.


Lemma Forall2_stored_concat ds segs :
  Forall2 (λ d seg, Forall2 (stored_as E) (doc_points d) seg ∧ stroke_shape seg) ds segs →
  Forall2 (stored_as E) (List.concat (map doc_points ds)) (List.concat segs).
Proof.
  induction 1 as [|d seg ds segs [Hd _] _ IH]; [constructor|].
  simpl. by apply Forall2_app.
Qed.

Lemma sorted_pushed (ds : list strokeDoc) d pts :
  StronglySorted (λ a b, (doc_createdAt a < doc_createdAt b)%Z) (ds ++ [d]) →
  StronglySorted (λ a b, (doc_createdAt a < doc_createdAt b)%Z)
    (ds ++ [StrokeDoc (doc_id d) (doc_room d) (doc_strokeId d) pts (doc_createdAt d)]).
Proof.
  rewrite !StronglySorted_app. intros (Hlt & Hds & _). split_and!.
  - intros x y Hx ->%list_elem_of_singleton. simpl.
    apply (Hlt x d Hx). by apply list_elem_of_singleton.
  - done.
  - repeat constructor.
Qed.

Lemma in_step_draw_start ids wf wm id fs sid :
  backends_in_step E room w0 ids wf wm →
  room_of id w0 = Some room →
  castable E (JObj fs) →
  castString E (or_legacy (field "strokeId" fs)) = Some sid →
  is_start (JObj fs) →
  sid ∉ ids →
  backends_in_step E room w0 (ids ++ [sid])
    (step Ef wf (Draw id (JObj fs))) (step Em wm (Draw id (JObj fs))).
Proof.
  intros (Hsf & Hsm & Hwf & L & ds & HL & Hds & Hids & Hnd & Hsorted & Hticks & Hsame)
         Hr Hcast Hkey Hstart Hfresh.
  destruct (castable_stored_point Em (JObj fs) wm Hcast) as [m Hm].
  destruct (step_draw_file Ef id room (JObj fs) L wf eq_refl) as [HL' Hsf'];
    [by rewrite (room_of_sockets id w0 wf) | exact HL | exact log_writable |].
  destruct (step_draw_mongo Em id room fs wm sid m eq_refl) as (Hds' & Ht' & Hsm' & Hwf');
    [by rewrite (room_of_sockets id w0 wm) | exact Hkey | exact Hm |].
  rewrite Hds in Hds'.
  rewrite push_first_fresh in Hds'.
  2:{ apply Forall_forall. intros d Hd Heq. apply Hfresh. rewrite <- Hids, <- Heq.
      by apply list_elem_of_fmap_2. }
  split_and!; [congruence | congruence | by apply Hwf' |].
  exists (L ++ [JObj fs]). eexists. split_and!.
  - exact HL'.
  - exact Hds'.
  - rewrite map_app, Hids. reflexivity.
  - apply NoDup_app. split_and!; [done | | apply NoDup_singleton].
    intros x Hx ->%list_elem_of_singleton. done.
  - apply StronglySorted_app. split_and!; [| done | repeat constructor].
    intros x y Hx ->%list_elem_of_singleton. simpl.
    destruct (proj1 (Forall_forall _ _) Hticks x Hx) as (k & Hk & ->).
    apply clock_increasing. lia.
  - rewrite Ht'. apply Forall_app. split.
    + eapply Forall_impl; [exact Hticks|]. intros d (k & Hk & Hd). exists k. split; [lia|done].
    + repeat constructor. exists (S (ticks wm)). split; [lia|done].
  - destruct Hsame as (segs & -> & Hsegs). exists (segs ++ [[JObj fs]]). split.
    + rewrite concat_app. simpl. reflexivity.
    + apply Forall2_app; [done|]. repeat constructor.
      * by apply (stored_point_stored_as Em (JObj fs) wm).
      * exists (JObj fs), []. split_and!; [done | done | constructor].
Qed.

Lemma in_step_draw_more ids wf wm id fs sid :
  backends_in_step E room w0 ids wf wm →
  room_of id w0 = Some room →
  castable E (JObj fs) →
  castString E (or_legacy (field "strokeId" fs)) = Some sid →
  ¬ is_start (JObj fs) →
  last ids = Some sid →
  backends_in_step E room w0 ids
    (step Ef wf (Draw id (JObj fs))) (step Em wm (Draw id (JObj fs))).
Proof.
  intros (Hsf & Hsm & Hwf & L & ds & HL & Hds & Hids & Hnd & Hsorted & Hticks & Hsame)
         Hr Hcast Hkey Hnostart Hlast.
  destruct (castable_stored_point Em (JObj fs) wm Hcast) as [m Hm].
  apply last_Some in Hlast as [ids0 ->].
  apply map_eq_app in Hids as (ds0 & dl & -> & Hids0 & Hdl).
  destruct dl as [|d [|? ?]]; try done. simpl in Hdl. injection Hdl as Hd.
  destruct (step_draw_file Ef id room (JObj fs) L wf eq_refl) as [HL' Hsf'];
    [by rewrite (room_of_sockets id w0 wf) | exact HL | exact log_writable |].
  destruct (step_draw_mongo Em id room fs wm sid m eq_refl) as (Hds' & Ht' & Hsm' & Hwf');
    [by rewrite (room_of_sockets id w0 wm) | exact Hkey | exact Hm |].
  rewrite Hds in Hds'.
  apply NoDup_app in Hnd as (Hnd0 & Hdis & _).
  rewrite (push_first_last room sid _ ds0 d) in Hds'.
  2:{ apply Forall_forall. intros x Hx Heq. apply (Hdis sid).
      - rewrite <- Hids0, <- Heq. by apply list_elem_of_fmap_2.
      - by apply list_elem_of_singleton. }
  2:{ assert (In d (room_docs room wm)) as Hin.
      { rewrite Hds. apply in_or_app. right. by left. }
      by apply filter_In in Hin as [_ ?]. }
  2:{ exact Hd. }
  split_and!; [congruence | congruence | by apply Hwf' |].
  exists (L ++ [JObj fs]). eexists. split_and!.
  - exact HL'.
  - exact Hds'.
  - rewrite map_app, Hids0. simpl. by rewrite Hd.
  - apply NoDup_app. split_and!; [done | done | apply NoDup_singleton].
  - by apply sorted_pushed.
  - rewrite Ht'. apply Forall_app in Hticks as [Ht0 Htd]. apply Forall_app. split.
    + eapply Forall_impl; [exact Ht0|]. intros x (k & Hk & Hx). exists k. split; [lia|done].
    + apply Forall_singleton in Htd as (k & Hk & Hx). repeat constructor.
      exists k. split; [lia | done].
  - destruct Hsame as (segs & -> & Hsegs).
    apply Forall2_app_inv_l in Hsegs as (segs0 & segl & Hsegs0 & Hsegl & ->).
    apply Forall2_cons_inv_l in Hsegl as (seg & segl' & [Hpts Hshape] & Hnil & ->).
    apply Forall2_nil_inv_l in Hnil as ->.
    exists (segs0 ++ [seg ++ [JObj fs]]). split.
    + rewrite !concat_app. simpl. by rewrite !app_nil_r, app_assoc.
    + apply Forall2_app; [done|]. repeat constructor; simpl.
      * apply Forall2_app; [done|]. repeat constructor.
        by apply (stored_point_stored_as Em (JObj fs) wm).
      * destruct Hshape as (s & tl & -> & Hs & Htl).
        exists s, (tl ++ [JObj fs]). split_and!; [done | done |].
        apply Forall_app. split; [done|]. by repeat constructor.
Qed.

Lemma in_step_clear ids wf wm id :
  backends_in_step E room w0 ids wf wm →
  room_of id w0 = Some room →
  backends_in_step E room w0 [] (step Ef wf (Clear id)) (step Em wm (Clear id)).
Proof.
  intros (Hsf & Hsm & Hwf & _) Hr.
  destruct (step_clear_file Ef id room wf eq_refl) as [HL' Hsf'];
    [by rewrite (room_of_sockets id w0 wf) | exact log_writable |].
  destruct (step_clear_mongo Em id room wm eq_refl) as (Hds' & Ht' & Hsm' & Hwf');
    [by rewrite (room_of_sockets id w0 wm) |].
  split_and!; [congruence | congruence | by apply Hwf' |].
  exists [], []. split_and!; try done; try constructor.
  exists []. split; [done | constructor].
Qed.

Lemma in_step_undo ids wf wm id :
  backends_in_step E room w0 ids wf wm →
  room_of id w0 = Some room →
  backends_in_step E room w0 (removelast ids) (step Ef wf (Undo id)) (step Em wm (Undo id)).
Proof.
  intros (Hsf & Hsm & Hwf & L & ds & HL & Hds & Hids & Hnd & Hsorted & Hticks & Hsame) Hr.
  destruct (step_undo_file Ef id room L wf eq_refl) as (Hsf' & Hfound & Hnone);
    [by rewrite (room_of_sockets id w0 wf) | exact HL | exact log_writable |].
  destruct (step_undo_mongo Em id room wm eq_refl) as (Hds' & Ht' & Hsm' & Hwf' & _);
    [by rewrite (room_of_sockets id w0 wm) | exact Hwf | by rewrite Hds |].
  rewrite Hds in Hds'.
  split_and!; [congruence | congruence | done |].
  destruct Hsame as (segs & -> & Hsegs).
  destruct ds as [|d ds0 _] using rev_ind.
  - apply Forall2_nil_inv_l in Hsegs as ->. simpl in *. subst ids.
    exists [], []. split_and!; try done; try constructor.
    + by apply Hnone.
    + exists []. split; [done | constructor].
  - apply Forall2_app_inv_l in Hsegs as (segs0 & segl & Hsegs0 & Hsegl & ->).
    apply Forall2_cons_inv_l in Hsegl as (seg & segl' & [Hpts Hshape] & Hnil & ->).
    apply Forall2_nil_inv_l in Hnil as ->.
    destruct Hshape as (s & tl & -> & Hs & Htl).
    rewrite removelast_last in Hds'.
    rewrite map_app in Hids. simpl in Hids. subst ids.
    rewrite removelast_last.
    apply NoDup_app in Hnd as (Hnd0 & _ & _).
    apply StronglySorted_app in Hsorted as (_ & Hsorted0 & _).
    apply Forall_app in Hticks as [Ht0 _].
    exists (List.concat segs0), ds0. split_and!; try done.
    + apply (Hfound (List.concat segs0) s tl).
      * rewrite concat_app. simpl. by rewrite app_nil_r.
      * done.
      * done.
    + by rewrite Ht'.
    + by exists segs0.
Qed.

(** The two backends stay in step along a trace of contiguous strokes. *)
Lemma in_step_run evs :
  ∀ ids wf wm,
    backends_in_step E room w0 ids wf wm →
    contiguous E (λ id, room_of id w0 = Some room) ids evs →
    ∃ ids', backends_in_step E room w0 ids' (run Ef evs wf) (run Em evs wm).
Proof.
  induction evs as [|ev evs IH]; intros ids wf wm Hin Hc; [by exists ids|].
  destruct ev as [id raw|id data|id|id|id history|id data|id]; simpl in Hc; try done.
  - destruct Hc as (Hr & Hcast & fs & sid & -> & Hkey
                    & [(Hs & Hfresh & Hc) | (Hs & Hlast & Hc)]).
    + apply (IH _ _ _ (in_step_draw_start ids wf wm id fs sid Hin Hr Hcast Hkey Hs Hfresh)
               Hc).
    + apply (IH _ _ _ (in_step_draw_more ids wf wm id fs sid Hin Hr Hcast Hkey Hs Hlast)
               Hc).
  - destruct Hc as [Hr Hc]. apply (IH _ _ _ (in_step_clear ids wf wm id Hin Hr) Hc).
  - destruct Hc as [Hr Hc]. apply (IH _ _ _ (in_step_undo ids wf wm id Hin Hr) Hc).
Qed.

End Simulation.




(** After the interleaving the two undos differ as well: the file backend
    cuts the log at the last start point, the document store deletes the
    stroke created last. *)
Example undo_diverges_on_interleaved_strokes :
  log_fields "x"
    (store_contents Sample.E_file "alpha"
       (run Sample.E_file (Scenario.interleaved ++ [Undo "A"]) empty_world))
  = [Some (JNum 0)]
  ∧ log_fields "x"
      (store_contents Sample.E_mongo "alpha"
         (run Sample.E_mongo (Scenario.interleaved ++ [Undo "A"]) empty_world))
    = [Some (JNum 0); Some (JNum 5)].
Proof. split; vm_compute; reflexivity. Qed.


(** * Further properties of the code *)

(** ** Appending and undoing on the file backend *)

Section FileCompositions.
Context (E : env).

Lemma after_then_ret {A} (m : M A) w : after ((m ;;; ret tt) w) = after (m w).
Proof. unfold bind, after. by destruct (m w) as [[|] ?]. Qed.

Lemma apply_ops_app ops1 ops2 w :
  apply_ops E (ops1 ++ ops2) w = apply_ops E ops2 (apply_ops E ops1 w).
Proof. unfold apply_ops. by rewrite fold_left_app. Qed.

Lemma appends_log (room : string) (P L : list json) (w : world) :
  file_log E room w = Ok (SArr L) →
  write_fails E (fileForRoom E room) = false →
  file_log E room (apply_ops E (map (OpAppend room) P) w) = Ok (SArr (L ++ P)).
Proof.
  revert L w. induction P as [|p P IH]; intros L w Hl Hw.
  - simpl. by rewrite app_nil_r.
  - change (apply_ops E (map (OpAppend room) (p :: P)) w)
      with (apply_ops E (map (OpAppend room) P) (after (appendStroke E room p w))).
    destruct (appendStroke_log E room p L w Hl Hw) as [Hl' _].
    rewrite (IH (L ++ [p]) _ Hl' Hw). by rewrite <- app_assoc.
Qed.

(** X1. Points appended one at a time end up at the end of the log, in
    the order of the appends. *)
Theorem appends_extend_log (room : string) (P L : list json) (w : world) :
  file_log E room w = Ok (SArr L) →
  write_fails E (fileForRoom E room) = false →
  file_log E room (apply_ops E (map (OpAppend room) P) w) = Ok (SArr (L ++ P)).
Proof. apply appends_log. Qed.

(** X2. Drawing a whole stroke and undoing it gives back the log as it
    was, whatever it held. *)
Theorem undo_after_stroke (room : string) (L tl : list json) (s : json) (w : world) :
  file_log E room w = Ok (SArr L) →
  write_fails E (fileForRoom E room) = false →
  is_start s →
  Forall (λ p, p ≠ JNull ∧ ¬ is_start p) tl →
  value (removeLastStroke E room (apply_ops E (map (OpAppend room) (s :: tl)) w)) = Ok L
  ∧ file_log E room (apply_ops E (map (OpAppend room) (s :: tl) ++ [OpUndo room]) w)
    = Ok (SArr L).
Proof.
  intros Hl Hw Hs Htl.
  pose proof (appends_log room (s :: tl) L w Hl Hw) as Hl'.
  destruct (removeLastStroke_found E room _ L tl s Hl' Hs Htl) as [Hv Hlog].
  split; [exact Hv|].
  rewrite apply_ops_app.
  change (apply_ops E [OpUndo room] ?w')
    with (after ((removeLastStroke E room ;;; ret tt) w')).
  rewrite after_then_ret. by apply Hlog.
Qed.

(** X3. A null point after the last start point makes undo throw before
    it writes anything. *)
Theorem undo_throws_on_null (room : string) (pre post : list json) (w : world) :
  file_log E room w = Ok (SArr (pre ++ JNull :: post)) →
  Forall (λ p, p ≠ JNull ∧ ¬ is_start p) post →
  value (removeLastStroke E room w) = Throw TypeError
  ∧ files (after (removeLastStroke E room w)) = files w.
Proof.
  intros Hl Hpost.
  rewrite (removeLastStroke_on_array E room _ w Hl).
  set (w1 := after (loadStrokes E room w)).
  rewrite (loop_skip E room _ (S (List.length pre)) _ w1).
  - simpl. rewrite list_lookup_middle by done.
    split; [done|]. apply loadStrokes_files.
  - rewrite length_app. simpl. lia.
  - done.
  - intros i p Hi Hp.
    rewrite lookup_app_r in Hp by lia.
    replace (i - List.length pre) with (S (i - S (List.length pre))) in Hp by lia.
    simpl in Hp. eapply (proj1 (Forall_lookup _ _) Hpost); eauto.
Qed.

End FileCompositions.

Lemma appends_extend_log_witness :
  file_log Sample.E_file "alpha" (Sample.with_log [Sample.s1_start]) = Ok (SArr [Sample.s1_start])
  ∧ write_fails Sample.E_file (fileForRoom Sample.E_file "alpha") = false
  ∧ file_log Sample.E_file "alpha"
      (apply_ops Sample.E_file (map (OpAppend "alpha") [Sample.s1_draw; Sample.s2_start])
         (Sample.with_log [Sample.s1_start]))
    = Ok (SArr ([Sample.s1_start] ++ [Sample.s1_draw; Sample.s2_start])).
Proof.
  assert (Hl : file_log Sample.E_file "alpha" (Sample.with_log [Sample.s1_start])
               = Ok (SArr [Sample.s1_start])) by (vm_compute; reflexivity).
  split; [exact Hl | split; [reflexivity |]].
  exact (appends_extend_log Sample.E_file "alpha" _ _ _ Hl eq_refl).
Defined.

Lemma undo_after_stroke_witness :
  file_log Sample.E_file "alpha" (Sample.with_log [Sample.s1_start; JNull])
  = Ok (SArr [Sample.s1_start; JNull])
  ∧ write_fails Sample.E_file (fileForRoom Sample.E_file "alpha") = false
  ∧ is_start Sample.s2_start
  ∧ Forall (λ p, p ≠ JNull ∧ ¬ is_start p) [Sample.s2_draw]
  ∧ file_log Sample.E_file "alpha"
      (apply_ops Sample.E_file
         (map (OpAppend "alpha") [Sample.s2_start; Sample.s2_draw] ++ [OpUndo "alpha"])
         (Sample.with_log [Sample.s1_start; JNull]))
    = Ok (SArr [Sample.s1_start; JNull]).
Proof.
  assert (Hl : file_log Sample.E_file "alpha" (Sample.with_log [Sample.s1_start; JNull])
               = Ok (SArr [Sample.s1_start; JNull])) by (vm_compute; reflexivity).
  assert (Hs : is_start Sample.s2_start) by (eexists; split; reflexivity).
  assert (Ht : Forall (λ p, p ≠ JNull ∧ ¬ is_start p) [Sample.s2_draw]).
  { repeat constructor; [discriminate|].
    intros (fs & Heq & Hf). injection Heq as <-. discriminate Hf. }
  split_and!; [exact Hl | reflexivity | exact Hs | exact Ht |].
  exact (proj2 (undo_after_stroke Sample.E_file "alpha" _ _ _ _ Hl eq_refl Hs Ht)).
Defined.

Lemma undo_throws_on_null_witness :
  file_log Sample.E_file "alpha" (Sample.with_log [Sample.s1_start; JNull; Sample.s1_draw])
  = Ok (SArr ([Sample.s1_start] ++ JNull :: [Sample.s1_draw]))
  ∧ Forall (λ p, p ≠ JNull ∧ ¬ is_start p) [Sample.s1_draw]
  ∧ value (removeLastStroke Sample.E_file "alpha"
             (Sample.with_log [Sample.s1_start; JNull; Sample.s1_draw]))
    = Throw TypeError.
Proof.
  assert (Hl : file_log Sample.E_file "alpha"
                 (Sample.with_log [Sample.s1_start; JNull; Sample.s1_draw])
               = Ok (SArr ([Sample.s1_start] ++ JNull :: [Sample.s1_draw])))
    by (vm_compute; reflexivity).
  assert (Ht : Forall (λ p, p ≠ JNull ∧ ¬ is_start p) [Sample.s1_draw]).
  { repeat constructor; [discriminate|].
    intros (fs & Heq & Hf). injection Heq as <-. discriminate Hf. }
  split_and!; [exact Hl | exact Ht |].
  exact (proj1 (undo_throws_on_null Sample.E_file "alpha" _ _ _ Hl Ht)).
Defined.


(** ** What the persistence operations leave alone *)

Section Frames.
Context (E : env).

Lemma loadStrokes_beside room w :
  beside_files (after (loadStrokes E room w)) = beside_files w.
Proof.
  rewrite loadStrokes_unfold.
  by destruct (files w !! fileForRoom E room) as [[| |]|].
Qed.

Lemma saveStrokes_beside room items w :
  beside_files (after (saveStrokes E room items w)) = beside_files w.
Proof.
  rewrite saveStrokes_unfold. by destruct (write_fails E (fileForRoom E room)).
Qed.

Lemma save_then_ret_beside room r w :
  beside_files (after ((saveStrokes E room r ;;; ret r) w)) = beside_files w.
Proof.
  unfold bind. pose proof (saveStrokes_beside room r w) as H. unfold after in *.
  by destruct (saveStrokes E room r w) as [[|] ?].
Qed.

Lemma loop_beside room items k w :
  beside_files (after (removeLastStroke_loop E room items k w)) = beside_files w.
Proof.
  induction k as [|k IH]; simpl.
  - apply save_then_ret_beside.
  - destruct (items !! k) as [p|]; [|done].
    unfold bind at 1. pose proof (type_is_start_world p w) as Hw. unfold after in Hw.
    destruct (type_is_start p w) as [[[|]|e] w']; simpl in Hw; subst w'.
    + apply save_then_ret_beside.
    + apply IH.
    + done.
Qed.

Lemma removeLastStroke_beside room w :
  beside_files (after (removeLastStroke E room w)) = beside_files w.
Proof.
  unfold removeLastStroke. unfold bind at 1.
  pose proof (loadStrokes_beside room w) as Hl. unfold after in Hl.
  destruct (loadStrokes E room w) as [[[items|]|e] w1]; simpl in Hl; rewrite <- Hl.
  - apply loop_beside.
  - apply save_then_ret_beside.
  - done.
Qed.

Lemma appendStroke_beside room pt w :
  beside_files (after (appendStroke E room pt w)) = beside_files w.
Proof.
  unfold appendStroke, bind.
  pose proof (loadStrokes_beside room w) as Hl. unfold after in Hl.
  destruct (loadStrokes E room w) as [[[items|]|e] w1]; simpl in Hl; rewrite <- Hl;
    [apply saveStrokes_beside | done | done].
Qed.

Lemma appendStroke_other room pt f w :
  f ≠ fileForRoom E room →
  files (after (appendStroke E room pt w)) !! f = files w !! f.
Proof. apply (apply_op_other E (OpAppend room pt)). Qed.

Lemma removeLastStroke_other room f w :
  f ≠ fileForRoom E room →
  files (after (removeLastStroke E room w)) !! f = files w !! f.
Proof.
  intros Hf. rewrite <- (apply_op_other E (OpUndo room) f w Hf). simpl.
  by rewrite after_then_ret.
Qed.

(** The document store. *)

Lemma mongoAppendPoint_beside room sid pt w :
  beside_store (after (mongoAppendPoint E room sid pt w)) = beside_store w.
Proof.
  rewrite mongoAppendPoint_unfold.
  destruct (castString E sid); destruct (stored_point E pt w); try done.
  by destruct (push_first _ _ _ _).
Qed.

Lemma mongoUndo_beside room w :
  beside_store (after (mongoUndo room w)) = beside_store w.
Proof.
  rewrite mongoUndo_unfold. by destruct (head (sort_desc (room_docs room w))).
Qed.

Lemma mongoUndo_wf room w : db_wf w → db_wf (after (mongoUndo room w)).
Proof.
  intros Hwf. rewrite mongoUndo_unfold.
  destruct (head (sort_desc (room_docs room w))) as [d|]; [|done].
  rewrite mongoLoadAllPoints_unfold. by apply db_wf_delete.
Qed.

Lemma in_room_other room room' d :
  room' ≠ room → in_room room d = true → in_room room' d = false.
Proof.
  intros Hne Hr%String.eqb_eq. apply String.eqb_neq. congruence.
Qed.

Lemma room_docs_append_other room room' sid pt w :
  room' ≠ room →
  room_docs room' (after (mongoAppendPoint E room sid pt w)) = room_docs room' w.
Proof.
  intros Hne. rewrite mongoAppendPoint_unfold. unfold room_docs.
  destruct (castString E sid) as [key|]; [|done].
  destruct (stored_point E pt w) as [m|]; [|done].
  destruct (push_first room key _ (strokes w)) as [l'|] eqn:Hp; simpl.
  - by apply (push_first_other room room' key _ _ _ Hne Hp).
  - rewrite List.filter_app. simpl.
    rewrite (in_room_other room room' (StrokeDoc _ room key _ _) Hne)
      by apply String.eqb_refl.
    by rewrite app_nil_r.
Qed.

Lemma room_docs_clear_other room room' w :
  room' ≠ room → room_docs room' (after (mongoClear room w)) = room_docs room' w.
Proof.
  intros Hne. unfold room_docs, mongoClear, modify, after. simpl.
  induction (strokes w) as [|d l IH]; [done|]. simpl.
  destruct (in_room room d) eqn:Hr; simpl.
  - by rewrite (in_room_other room room' d Hne Hr).
  - by rewrite IH.
Qed.

Lemma sort_desc_head_in l d : head (sort_desc l) = Some d → In d l.
Proof.
  revert d. induction l as [|x l IH]; intros d; [done|].
  simpl. fold (sort_desc l).
  destruct (sort_desc l) as [|y s'] eqn:Hs; simpl.
  - intros [= <-]. by left.
  - destruct (doc_createdAt y <=? doc_createdAt x)%Z; simpl.
    + intros [= <-]. by left.
    + intros [= <-]. right. by apply IH.
Qed.

Lemma room_docs_undo_other room room' w :
  room' ≠ room → db_wf w →
  room_docs room' (after (mongoUndo room w)) = room_docs room' w.
Proof.
  intros Hne [Hnd _]. rewrite mongoUndo_unfold.
  destruct (head (sort_desc (room_docs room w))) as [d|] eqn:Hd; [|done].
  rewrite mongoLoadAllPoints_unfold. unfold after. cbn [snd].
  apply sort_desc_head_in in Hd. apply filter_In in Hd as [Hin Hr].
  unfold room_docs. cbn [strokes set_strokes].
  rewrite (delete_first_filter d _ Hnd Hin), filter_filter_comm.
  apply forallb_filter_id, forallb_forall. intros y Hy.
  apply filter_In in Hy as [Hy Hr']. apply negb_true_iff, Nat.eqb_neq. intros Heq.
  assert (y = d) as ->.
  { clear Hr Hr'. induction (strokes w) as [|x l IH]; [done|].
    simpl in Hnd. apply NoDup_cons in Hnd as [Hx Hnd].
    destruct Hy as [->|Hy], Hin as [Hin|Hin]; subst; try done.
    - exfalso. apply Hx. rewrite Heq. apply list_elem_of_fmap_2. by apply list_elem_of_In.
    - exfalso. apply Hx. rewrite <- Heq. apply list_elem_of_fmap_2. by apply list_elem_of_In.
    - by apply IH. }
  rewrite (in_room_other room room' d Hne Hr) in Hr'. done.
Qed.

(** The loop of [applySnapshot] on the document store. *)
Lemma for_of_append_frame room sid items w :
  beside_store (after (for_of items (λ pt, mongoAppendPoint E room sid pt) w))
  = beside_store w
  ∧ (db_wf w → db_wf (after (for_of items (λ pt, mongoAppendPoint E room sid pt) w)))
  ∧ (∀ room', room' ≠ room →
       room_docs room' (after (for_of items (λ pt, mongoAppendPoint E room sid pt) w))
       = room_docs room' w).
Proof.
  revert w. induction items as [|x rest IH]; intros w; [done|].
  rewrite (for_of_cons_run x rest _ w).
  pose proof (mongoAppendPoint_beside room sid x w) as Hb.
  pose proof (db_wf_append E room sid x w) as Hwf.
  pose proof (λ room' H, room_docs_append_other room room' sid x w H) as Ho.
  unfold after in Hb, Hwf, Ho.
  destruct (mongoAppendPoint E room sid x w) as [[[]|e] w1]; simpl in *.
  - destruct (IH w1) as (Hb' & Hwf' & Ho').
    split_and!; [congruence | auto |].
    intros room' Hne. rewrite (Ho' room' Hne). by apply Ho.
  - split_and!; [done | done | done].
Qed.

End Frames.


(** ** The effect of every handler *)

Section HandlerEffects.
Context (E : env).

Lemma persistence_confined_refl room w f :
  persistence_confined E room w (set_outbox f w).
Proof. unfold persistence_confined. by destruct (useMongo E). Qed.

Lemma with_room_none id h w : room_of id w = None → with_room id h w = (Ok tt, w).
Proof. intros Hr. unfold with_room, bind, gets. by rewrite Hr. Qed.

Lemma mongoAppendPoint_effect room sid pt w :
  let w' := after (mongoAppendPoint E room sid pt w) in
  outbox w' = outbox w ∧ sockets w' = sockets w ∧ files w' = files w
  ∧ (db_wf w →
     db_wf w' ∧ ∀ room', room' ≠ room → room_docs room' w' = room_docs room' w).
Proof.
  intros w'. unfold w'.
  pose proof (mongoAppendPoint_beside E room sid pt w) as Hb.
  injection Hb as Hf _ Hs Ho. split_and!; [done | done | done |].
  intros Hw. split; [by apply db_wf_append|].
  intros room' Hne. by apply room_docs_append_other.
Qed.

Lemma on_draw_effect id room data w :
  let w' := after (on_draw E id room data w) in
  outbox w' = outbox w ++ map (λ i, Emission i "draw" data) (others id room w)
  ∧ sockets w' = sockets w
  ∧ persistence_confined E room w w'.
Proof.
  intros w'. unfold w', on_draw, persistence_confined. unfold bind at 1.
  rewrite socket_to_emit_unfold. set (w0 := set_outbox _ w).
  destruct (useMongo E).
  - assert (Hany : ∀ sid,
        outbox (after (mongoAppendPoint E room sid data w0))
        = outbox w ++ map (λ i, Emission i "draw" data) (others id room w)
        ∧ sockets (after (mongoAppendPoint E room sid data w0)) = sockets w
        ∧ files (after (mongoAppendPoint E room sid data w0)) = files w
          ∧ (db_wf w →
             db_wf (after (mongoAppendPoint E room sid data w0))
             ∧ ∀ room', room' ≠ room →
                 room_docs room' (after (mongoAppendPoint E room sid data w0))
                 = room_docs room' w)).
    { intros sid.
      destruct (mongoAppendPoint_effect room sid data w0) as (Ho & Hs & Hf & Hwf).
      split_and!; [by rewrite Ho | by rewrite Hs | by rewrite Hf | exact Hwf]. }
    destruct data as [| | | | |fs]; cbn [strokeId_of]; unfold bind, throw, ret;
      cbv beta iota; first [by apply Hany | by split_and!].
  - pose proof (appendStroke_beside E room data w0) as Hb.
    injection Hb as Hst Hn _ Hs Ho.
    split_and!; try done. intros f Hf. by apply (appendStroke_other E room data f w0).
Qed.

Lemma on_clear_effect id room w :
  let w' := after (on_clear E id room w) in
  outbox w' = outbox w ++ map (λ i, Emission i "clear" JNull) (others id room w)
  ∧ sockets w' = sockets w
  ∧ persistence_confined E room w w'.
Proof.
  intros w'. unfold w', on_clear, persistence_confined. unfold bind at 1.
  rewrite socket_to_emit_unfold. set (w0 := set_outbox _ w).
  destruct (useMongo E).
  - split_and!; [done | done | done |]. intros Hw. split.
    + by apply (db_wf_clear room w0).
    + intros room' Hne. by apply (room_docs_clear_other room room' w0).
  - pose proof (saveStrokes_beside E room [] w0) as Hb.
    injection Hb as Hst Hn _ Hs Ho.
    split_and!; try done. intros f Hf. by apply (saveStrokes_other E room [] f w0).
Qed.

Lemma on_undo_effect id room w :
  let w' := after (on_undo E id room w) in
  (outbox w' = outbox w
   ∨ ∃ h, outbox w' = outbox w ++ to_room room "resetWithHistory" (JArr h) w)
  ∧ sockets w' = sockets w
  ∧ persistence_confined E room w w'.
Proof.
  intros w'. unfold w', on_undo, persistence_confined.
  destruct (useMongo E).
  - pose proof (mongoUndo_beside room w) as Hb.
    pose proof (mongoUndo_wf room w) as Hwf.
    pose proof (λ room' H, room_docs_undo_other room room' w H) as Ho.
    pose proof (mongoUndo_net room w) as Hnet.
    unfold bind, after in *. destruct (mongoUndo room w) as [[h|e] w1]; simpl in *.
    + injection Hb as Hf _ Hs Hob. split_and!; [| done | done |].
      * right. exists h. unfold to_room. rewrite (members_same_net room w w1 Hnet).
        by rewrite Hob.
      * intros Hw. split; [by apply Hwf | intros; by apply Ho].
    + injection Hb as Hf _ Hs Hob. split_and!; [by left | done | done |].
      intros Hw. split; [by apply Hwf | intros; by apply Ho].
  - pose proof (removeLastStroke_beside E room w) as Hb.
    pose proof (λ f H, removeLastStroke_other E room f w H) as Hof.
    pose proof (removeLastStroke_net E room w) as Hnet.
    unfold bind, after in *. destruct (removeLastStroke E room w) as [[h|e] w1]; simpl in *.
    + injection Hb as Hst Hn _ Hs Hob. split_and!; try done.
      right. exists h. unfold to_room. rewrite (members_same_net room w w1 Hnet).
      by rewrite Hob.
    + injection Hb as Hst Hn _ Hs Hob. split_and!; try done. by left.
Qed.

Lemma on_applySnapshot_effect id room history w :
  let w' := after (on_applySnapshot E id room history w) in
  (outbox w' = outbox w
   ∨ outbox w' = outbox w ++ to_room room "resetWithHistory" history w)
  ∧ sockets w' = sockets w
  ∧ persistence_confined E room w w'.
Proof.
  intros w'. unfold w', on_applySnapshot, persistence_confined.
  destruct history as [| | | |items|];
    try (simpl; destruct (useMongo E); split_and!; by try left).
  destruct (useMongo E).
  - unfold bind.
    change (mongoClear room w) with (Ok tt, after (mongoClear room w)).
    cbv iota beta. set (w0 := after (mongoClear room w)).
    destruct (for_of_append_frame E room (JStr "snapshot") items w0)
      as (Hb & Hwf & Ho).
    assert (Hstore : ∀ w1, db_wf w0 → (db_wf w0 → db_wf w1) →
              (∀ room', room' ≠ room → room_docs room' w1 = room_docs room' w0) →
              db_wf w →
              db_wf w1 ∧ ∀ room', room' ≠ room → room_docs room' w1 = room_docs room' w).
    { intros w1 _ Hwf1 Ho1 Hw. split.
      - apply Hwf1. by apply (db_wf_clear room w).
      - intros room' Hne. transitivity (room_docs room' w0).
        + exact (Ho1 room' Hne).
        + by apply (room_docs_clear_other room room' w). }
    unfold after in Hb, Hwf, Ho |- *.
    destruct (for_of items _ w0) as [[[]|e] w1]; cbn [fst snd] in *.
    + rewrite io_to_emit_unfold. simpl.
      injection Hb as Hf _ Hs Hob.
      assert (Hm : members room w1 = members room w) by (unfold members; by rewrite Hs).
      unfold to_room. rewrite Hm, Hob. split_and!; [by right | done | done |].
      intros Hw. apply (Hstore w1); try done. by apply (db_wf_clear room w).
    + injection Hb as Hf _ Hs Hob. split_and!; [by left | done | done |].
      intros Hw. apply (Hstore w1); try done. by apply (db_wf_clear room w).
  - unfold bind.
    pose proof (saveStrokes_beside E room items w) as Hb.
    pose proof (λ f H, saveStrokes_other E room items f w H) as Hof.
    pose proof (saveStrokes_ok E room items w) as Hv.
    unfold value, after in *. destruct (saveStrokes E room items w) as [r w1].
    simpl in *. subst r. rewrite io_to_emit_unfold. simpl.
    injection Hb as Hst Hn _ Hs Hob.
    assert (Hm : members room w1 = members room w) by (unfold members; by rewrite Hs).
    unfold to_room. rewrite Hm, Hob. split_and!; try done. by right.
Qed.

End HandlerEffects.


Section RouterProperties.
Context (E : env).

Lemma others_spec id room w i :
  In i (others id room w) ↔ In i (members room w) ∧ i ≠ id.
Proof.
  unfold others. rewrite filter_In, negb_true_iff, String.eqb_neq. tauto.
Qed.

Lemma on_connection_effect id raw w :
  let room := sanitizeRoom (default "lobby" raw) in
  let w' := after (on_connection E id raw w) in
  (∃ h, outbox w' = outbox w ++ [Emission id "history" h])
  ∧ sockets w' = sockets w ++ [(id, room)]
  ∧ strokes w' = strokes w ∧ next_oid w' = next_oid w ∧ files w' = files w.
Proof.
  intros room w'.
  destruct (persisted_log_total E room w) as [h Hh].
  split; [exists h; by apply on_connection_outbox|].
  unfold w', on_connection. fold room. unfold bind, modify.
  destruct (useMongo E).
  - by split_and!.
  - rewrite !loadStrokes_unfold. cbn [files set_sockets].
    destruct (files w !! fileForRoom E room) as [[v| |]|]; simpl; by split_and!.
Qed.

(** The sockets change on connection and on disconnection only. *)
Lemma step_sockets ev w : sockets (step E w ev) = sockets_after ev w.
Proof.
  unfold step, handle.
  destruct ev as [id raw|id data|id|id|id history|id data|id]; simpl sockets_after;
    try (destruct (room_of id w) as [room|] eqn:Hr;
         [rewrite (with_room_some id room _ w Hr) | by rewrite (with_room_none id _ w Hr)]).
  - by destruct (on_connection_effect id raw w) as (_ & Hs & _).
  - by destruct (on_draw_effect E id room data w) as (_ & Hs & _).
  - by destruct (on_clear_effect E id room w) as (_ & Hs & _).
  - by destruct (on_undo_effect E id room w) as (_ & Hs & _).
  - by destruct (on_applySnapshot_effect E id room history w) as (_ & Hs & _).
  - reflexivity.
  - reflexivity.
Qed.

(** Whom an event reaches: the connecting socket itself for a connection,
    members of the sender's room otherwise, and never the sender when the
    event is relayed. *)
Lemma step_outbox ev w :
  ∃ new, outbox (step E w ev) = outbox w ++ new
     ∧ Forall (λ e,
         match ev with
         | Connection id _ => em_to e = id
         | _ => ∃ r, room_of (event_sender ev) w = Some r
                     ∧ In (em_to e) (members r w)
                     ∧ (relayed ev = true → em_to e ≠ event_sender ev)
         end) new.
Proof.
  unfold step, handle.
  destruct ev as [id raw|id data|id|id|id history|id data|id]; cbn [event_sender relayed];
    try (destruct (room_of id w) as [room|] eqn:Hr;
         [rewrite (with_room_some id room _ w Hr)
         | rewrite (with_room_none id _ w Hr); exists []; split;
           [by rewrite app_nil_r | constructor]]).
  - destruct (on_connection_effect id raw w) as ([h Ho] & _).
    eexists. split; [exact Ho|]. by repeat constructor.
  - destruct (on_draw_effect E id room data w) as (Ho & _).
    eexists. split; [exact Ho|]. apply Forall_forall.
    intros e (i & -> & Hi%list_elem_of_In%others_spec)%list_elem_of_fmap.
    exists room. simpl. by destruct Hi.
  - destruct (on_clear_effect E id room w) as (Ho & _).
    eexists. split; [exact Ho|]. apply Forall_forall.
    intros e (i & -> & Hi%list_elem_of_In%others_spec)%list_elem_of_fmap.
    exists room. simpl. by destruct Hi.
  - destruct (on_undo_effect E id room w) as ([Ho | [h Ho]] & _).
    + exists []. split; [by rewrite app_nil_r | constructor].
    + eexists. split; [exact Ho|]. apply Forall_forall.
      intros e (i & -> & Hi%list_elem_of_In)%list_elem_of_fmap.
      exists room. by split_and!.
  - destruct (on_applySnapshot_effect E id room history w) as ([Ho | Ho] & _).
    + exists []. split; [by rewrite app_nil_r | constructor].
    + eexists. split; [exact Ho|]. apply Forall_forall.
      intros e (i & -> & Hi%list_elem_of_In)%list_elem_of_fmap.
      exists room. by split_and!.
  - eexists. split; [reflexivity|]. apply Forall_forall.
    intros e (i & -> & Hi%list_elem_of_In%others_spec)%list_elem_of_fmap.
    exists room. simpl. by destruct Hi.
  - eexists. split; [reflexivity|]. apply Forall_forall.
    intros e (i & -> & Hi%list_elem_of_In%others_spec)%list_elem_of_fmap.
    exists room. simpl. by destruct Hi.
Qed.

(** Every handler confines its persistence to the room of its event. *)
Lemma step_confined ev w r :
  event_room ev w = Some r → persistence_confined E r w (step E w ev).
Proof.
  unfold step, handle.
  destruct ev as [id raw|id data|id|id|id history|id data|id]; cbn [event_room];
    intros Hr; try rewrite (with_room_some id r _ w Hr).
  - destruct (on_connection_effect id raw w) as (_ & _ & Hst & Hn & Hf).
    unfold persistence_confined. destruct (useMongo E).
    + split; [done|]. intros [Hnd Hlt]. split.
      * split; [by rewrite Hst | by rewrite Hst, Hn].
      * intros room' _. unfold room_docs. by rewrite Hst.
    + split_and!; [done | done |]. intros f _. by rewrite Hf.
  - by destruct (on_draw_effect E id r data w) as (_ & _ & H).
  - by destruct (on_clear_effect E id r w) as (_ & _ & H).
  - by destruct (on_undo_effect E id r w) as (_ & _ & H).
  - by destruct (on_applySnapshot_effect E id r history w) as (_ & _ & H).
  - apply persistence_confined_refl.
  - unfold persistence_confined. by destruct (useMongo E).
Qed.

End RouterProperties.

Section RouterTheorems.
Context (E : env).

Lemma find_app_some {A} (p : A → bool) l1 l2 x :
  List.find p l1 = Some x → List.find p (l1 ++ l2) = Some x.
Proof.
  induction l1 as [|a l1 IH]; simpl; [done|]. by destruct (p a).
Qed.

Lemma find_filter_keep {A} (p q : A → bool) l :
  (∀ x, p x = true → q x = true) →
  List.find p (List.filter q l) = List.find p l.
Proof.
  intros Hpq. induction l as [|a l IH]; simpl; [done|].
  destruct (q a) eqn:Hq; simpl.
  - by rewrite IH.
  - destruct (p a) eqn:Hp; [|done]. by rewrite (Hpq a Hp) in Hq.
Qed.

Lemma step_unconnected ev w : event_room ev w = None → step E w ev = w.
Proof.
  unfold step, handle.
  destruct ev as [id raw|id data|id|id|id history|id data|id]; cbn [event_room];
    intros Hr; try done; by rewrite (with_room_none id _ w Hr).
Qed.

Lemma fileForRoom_inj r r' :
  valid_room r → valid_room r' → fileForRoom E r' = fileForRoom E r → r' = r.
Proof.
  intros Hr%room_pattern_valid Hr'%room_pattern_valid.
  rewrite (fileForRoom_child E r Hr), (fileForRoom_child E r' Hr').
  intros [= H]%app_inv_head. by apply app_string_inj_r in H.
Qed.

Lemma step_db_wf ev w : db_wf w → db_wf (step E w ev).
Proof.
  intros Hwf. destruct (event_room ev w) as [r|] eqn:Hr.
  - pose proof (step_confined E ev w r Hr) as Hc. unfold persistence_confined in Hc.
    destruct (useMongo E).
    + by destruct Hc as (_ & Hc); destruct (Hc Hwf).
    + destruct Hc as (Hs & Hn & _). unfold db_wf. by rewrite Hs, Hn.
  - by rewrite step_unconnected.
Qed.

(** X4. A draw reaches every other socket of the sender's room, with the
    data as it came, and no one else: the relay is done before the point
    is stored, so it is the same whether the storing succeeds, fails or
    throws. *)
Theorem draw_relayed_to_others id room data w :
  room_of id w = Some room →
  outbox (step E w (Draw id data))
    = outbox w ++ map (λ i, Emission i "draw" data) (others id room w)
  ∧ ∀ i, In i (others id room w) ↔ In i (members room w) ∧ i ≠ id.
Proof.
  intros Hr. split; [|intros i; apply others_spec].
  unfold step, handle. rewrite (with_room_some id room _ w Hr).
  by destruct (on_draw_effect E id room data w) as (Ho & _).
Qed.

(** X5. Whatever the event, the messages it adds go to the connecting
    socket (for a connection) or to sockets of the sender's room (for any
    other event); the outbox only grows. *)
Theorem emissions_stay_in_room ev w :
  ∃ new, outbox (step E w ev) = outbox w ++ new
    ∧ ∀ e, In e new →
        match ev with
        | Connection id _ => em_to e = id
        | _ => ∃ r, room_of (event_sender ev) w = Some r ∧ In (em_to e) (members r w)
        end.
Proof.
  destruct (step_outbox E ev w) as (new & Ho & Hall).
  exists new. split; [exact Ho|]. intros e He.
  rewrite Forall_forall in Hall. specialize (Hall e (proj2 (list_elem_of_In _ _) He)).
  destruct ev; try exact Hall; destruct Hall as (r & Hr & Hin & _); by exists r.
Qed.

(** X6. The events relayed with [socket.to(room)] (draw, clear, cursor and
    the [cursor:left] of a disconnection) send nothing to their sender. *)
Theorem relayed_events_skip_sender ev w :
  relayed ev = true →
  ∃ new, outbox (step E w ev) = outbox w ++ new
    ∧ ∀ e, In e new → em_to e ≠ event_sender ev.
Proof.
  intros Hrel. destruct (step_outbox E ev w) as (new & Ho & Hall).
  exists new. split; [exact Ho|]. intros e He.
  rewrite Forall_forall in Hall. specialize (Hall e (proj2 (list_elem_of_In _ _) He)).
  destruct ev; try discriminate Hrel; destruct Hall as (r & _ & _ & Hne); by apply Hne.
Qed.

(** X7. A socket stays in the room it joined: no event other than its own
    disconnection changes the room of a connected socket, not even a
    second connection under the same id. *)
Theorem room_binding_stable id r ev w :
  room_of id w = Some r → ev ≠ Disconnect id →
  room_of id (step E w ev) = Some r.
Proof.
  intros Hr Hev. rewrite <- Hr. unfold room_of at 1 2. rewrite step_sockets.
  destruct ev as [id' raw|id' data|id'|id'|id' history|id' data|id'];
    cbn [sockets_after]; try done.
  - unfold room_of in Hr.
    destruct (List.find _ (sockets w)) as [s|] eqn:Hf; [|done].
    by rewrite (find_app_some _ _ _ s Hf).
  - destruct (room_of id' w); [|done].
    rewrite find_filter_keep; [done|].
    intros [i x] Hi. simpl in *. apply String.eqb_eq in Hi. subst i.
    apply negb_true_iff, String.eqb_neq. congruence.
Qed.

(** X8. Every socket is in a room with a valid key, whatever the clients
    send as room: the property is kept by every run of events. *)
Theorem sockets_keep_valid_rooms evs w :
  Forall (λ s, valid_room (snd s)) (sockets w) →
  Forall (λ s, valid_room (snd s)) (sockets (run E evs w)).
Proof.
  revert w. induction evs as [|ev evs IH]; intros w Hw; [done|].
  simpl. apply IH. rewrite step_sockets.
  destruct ev as [id' raw|id' data|id'|id'|id' history|id' data|id'];
    cbn [sockets_after]; try done.
  - apply Forall_app. split; [done|]. constructor; [|constructor].
    simpl. apply room_pattern_valid, sanitizeRoom_pattern.
  - destruct (room_of id' w); [|done].
    apply Forall_forall. intros x Hx%list_elem_of_In%filter_In.
    rewrite Forall_forall in Hw. apply Hw, list_elem_of_In. by destruct Hx.
Qed.

(** X10. Rooms are isolated: an event of a socket in room [r] leaves the
    persisted log of every other room as it was, on either backend. *)
Theorem rooms_isolated ev r r' w :
  event_room ev w = Some r → valid_room r → valid_room r' → r' ≠ r → db_wf w →
  persisted_log E r' (step E w ev) = persisted_log E r' w.
Proof.
  intros Hev Hr Hr' Hne Hwf.
  pose proof (step_confined E ev w r Hev) as Hc.
  unfold persistence_confined in Hc. unfold persisted_log.
  destruct (useMongo E).
  - destruct Hc as (_ & Hc). destruct (Hc Hwf) as (_ & Ho).
    by rewrite !mongoLoadAllPoints_unfold, (Ho r' Hne).
  - destruct Hc as (_ & _ & Hf). unfold file_log.
    rewrite !loadStrokes_unfold, (Hf (fileForRoom E r')).
    + by destruct (files w !! fileForRoom E r') as [[| |]|].
    + intros Heq. by apply Hne, fileForRoom_inj.
Qed.

End RouterTheorems.

Lemma draw_relayed_to_others_witness :
  room_of "A" TwoRooms.on_files = Some "alpha"
  ∧ outbox (step Sample.E_file TwoRooms.on_files (Draw "A" JNull))
    = outbox TwoRooms.on_files ++ [Emission "B" "draw" JNull].
Proof.
  split; [reflexivity|].
  exact (proj1 (draw_relayed_to_others Sample.E_file "A" "alpha" JNull
                  TwoRooms.on_files eq_refl)).
Defined.

Lemma relayed_events_skip_sender_witness :
  relayed (Clear "A") = true
  ∧ ∃ new, outbox (step Sample.E_mongo TwoRooms.on_mongo (Clear "A"))
           = outbox TwoRooms.on_mongo ++ new
      ∧ ∀ e, In e new → em_to e ≠ "A".
Proof.
  split; [reflexivity|].
  exact (relayed_events_skip_sender Sample.E_mongo (Clear "A") TwoRooms.on_mongo eq_refl).
Defined.

Lemma room_binding_stable_witness :
  room_of "A" TwoRooms.on_files = Some "alpha"
  ∧ Disconnect "B" ≠ Disconnect "A"
  ∧ room_of "A" (step Sample.E_file TwoRooms.on_files (Disconnect "B")) = Some "alpha".
Proof.
  assert (Hne : Disconnect "B" ≠ Disconnect "A") by discriminate.
  split_and!; [reflexivity | exact Hne |].
  exact (room_binding_stable Sample.E_file "A" "alpha" _ TwoRooms.on_files eq_refl Hne).
Defined.

(** Every socket is also in the room named by its own id: a socket that
    joins the room whose key is the id of A reaches A, which joined
    another room. *)
Example own_id_room_reached :
  outbox (run Sample.E_file
            [Connection "A" (Some "alpha"); Connection "X" (Some "A");
             Draw "X" Sample.s1_start] empty_world)
  = [Emission "A" "history" (JArr []); Emission "X" "history" (JArr []);
     Emission "A" "draw" Sample.s1_start].
Proof. vm_compute. reflexivity. Qed.

Lemma sockets_keep_valid_rooms_witness :
  Forall (λ s, valid_room (snd s)) (sockets empty_world)
  ∧ Forall (λ s, valid_room (snd s))
      (sockets (run Sample.E_file
                  [Connection "A" (Some "../etc"); Connection "B" None] empty_world)).
Proof.
  assert (H0 : Forall (λ s : string * string, valid_room (snd s)) (sockets empty_world))
    by constructor.
  split; [exact H0|].
  exact (sockets_keep_valid_rooms Sample.E_file _ empty_world H0).
Defined.


Lemma rooms_isolated_witness :
  event_room (Undo "A") TwoRooms.on_mongo = Some "alpha"
  ∧ valid_room "alpha" ∧ valid_room "beta" ∧ "beta" ≠ "alpha"
  ∧ db_wf TwoRooms.on_mongo
  ∧ persisted_log Sample.E_mongo "beta" (step Sample.E_mongo TwoRooms.on_mongo (Undo "A"))
    = persisted_log Sample.E_mongo "beta" TwoRooms.on_mongo.
Proof.
  assert (Ha : valid_room "alpha") by (apply room_pattern_valid; reflexivity).
  assert (Hb : valid_room "beta") by (apply room_pattern_valid; reflexivity).
  assert (Hne : "beta" ≠ "alpha") by discriminate.
  assert (Hwf : db_wf TwoRooms.on_mongo).
  { split.
    - vm_compute. by apply (bool_decide_unpack _).
    - vm_compute. repeat constructor. }
  split_and!; [reflexivity | exact Ha | exact Hb | exact Hne | exact Hwf |].
  exact (rooms_isolated Sample.E_mongo (Undo "A") "alpha" "beta" TwoRooms.on_mongo
           eq_refl Ha Hb Hne Hwf).
Defined.


(** ** The rate limiter *)

Module RateLimiterFacts.
Import RateLimiter.

Lemma limiter_fresh windowMs max ip path now hits :
  hits !! key ip path = None →
  limiter windowMs max ip path now hits
  = (verdict_at max 1, <[key ip path := Hit 1 now]> hits).
Proof.
  intros Hk. unfold limiter. rewrite Hk. simpl.
  by destruct (windowMs <? now - now)%Z.
Qed.

Lemma limiter_expired windowMs max ip path now c t hits :
  hits !! key ip path = Some (Hit c t) → (windowMs < now - t)%Z →
  limiter windowMs max ip path now hits
  = (verdict_at max 1, <[key ip path := Hit 1 now]> hits).
Proof.
  intros Hk Ht. unfold limiter. rewrite Hk. simpl.
  by rewrite (proj2 (Z.ltb_lt _ _) Ht).
Qed.

Lemma limiter_within windowMs max ip path now c t hits :
  hits !! key ip path = Some (Hit c t) → (now - t ≤ windowMs)%Z →
  limiter windowMs max ip path now hits
  = (verdict_at max (S c), <[key ip path := Hit (S c) t]> hits).
Proof.
  intros Hk Ht. unfold limiter. rewrite Hk. simpl.
  by rewrite (proj2 (Z.ltb_ge _ _) Ht).
Qed.

Lemma serve_within windowMs max ip path t0 ts : ∀ c hits,
  hits !! key ip path = Some (Hit c t0) →
  Forall (λ t, (t - t0 ≤ windowMs)%Z) ts →
  fst (serve windowMs max (map (Request ip path) ts) hits)
  = map (verdict_at max) (seq (S c) (List.length ts))
  ∧ snd (serve windowMs max (map (Request ip path) ts) hits) !! key ip path
    = Some (Hit (c + List.length ts) t0).
Proof.
  induction ts as [|t ts IH]; intros c hits Hk Hts.
  - simpl. by rewrite Nat.add_0_r.
  - apply Forall_cons in Hts as [Ht Hts].
    cbn [map serve req_ip req_path req_now List.length].
    rewrite (limiter_within _ _ _ _ _ c t0 hits Hk Ht).
    destruct (IH (S c) (<[key ip path := Hit (S c) t0]> hits)) as [Hv Hh];
      [by rewrite lookup_insert_eq | done |].
    destruct (serve windowMs max (map (Request ip path) ts) _) as [vs hits2].
    simpl in *. rewrite Hv, Hh. split; [done|]. do 2 f_equal. lia.
Qed.

(** X11. A window admits [max] requests: for a key that is new, or whose
    window has run out, the requests made until [windowMs] after the first
    one are counted from 1, the first [max] of them pass and every later
    one is answered 429; refused requests are counted too. *)
Theorem window_admits_max windowMs max ip path t0 ts hits :
  (hits !! key ip path = None
   ∨ ∃ c t, hits !! key ip path = Some (Hit c t) ∧ (windowMs < t0 - t)%Z) →
  Forall (λ t, (t - t0 ≤ windowMs)%Z) ts →
  let out := serve windowMs max (map (Request ip path) (t0 :: ts)) hits in
  fst out = map (verdict_at max) (seq 1 (S (List.length ts)))
  ∧ snd out !! key ip path = Some (Hit (S (List.length ts)) t0).
Proof.
  intros Hk Hts. cbv zeta. cbn [map serve req_ip req_path req_now].
  assert (Hl : limiter windowMs max ip path t0 hits
               = (verdict_at max 1, <[key ip path := Hit 1 t0]> hits)).
  { destruct Hk as [Hk | (c & t & Hk & Ht)].
    - by apply limiter_fresh.
    - by apply (limiter_expired _ _ _ _ _ c t). }
  rewrite Hl.
  destruct (serve_within windowMs max ip path t0 ts 1
              (<[key ip path := Hit 1 t0]> hits)) as [Hv Hh];
    [by rewrite lookup_insert_eq | done |].
  destruct (serve windowMs max (map (Request ip path) ts) _) as [vs hits2].
  simpl in *. by rewrite Hv, Hh.
Qed.

Lemma limiter_agree windowMs max ip path now hits hits' :
  hits !! key ip path = hits' !! key ip path →
  fst (limiter windowMs max ip path now hits)
  = fst (limiter windowMs max ip path now hits')
  ∧ snd (limiter windowMs max ip path now hits) !! key ip path
    = snd (limiter windowMs max ip path now hits') !! key ip path.
Proof.
  intros Hk. unfold limiter. rewrite Hk. simpl. by rewrite !lookup_insert_eq.
Qed.

Lemma limiter_other windowMs max ip path now hits k :
  key ip path ≠ k →
  snd (limiter windowMs max ip path now hits) !! k = hits !! k.
Proof. intros Hne. unfold limiter. simpl. by rewrite lookup_insert_ne. Qed.

Lemma serve_by_key windowMs max k reqs : ∀ hits hits',
  hits !! k = hits' !! k →
  verdicts_of k reqs (fst (serve windowMs max reqs hits))
  = fst (serve windowMs max
           (List.filter (λ r, String.eqb (key_of r) k) reqs) hits').
Proof.
  induction reqs as [|r reqs IH]; intros hits hits' Hk; [done|].
  cbn [serve List.filter].
  destruct (limiter windowMs max (req_ip r) (req_path r) (req_now r) hits)
    as [v hits1] eqn:Hl.
  destruct (serve windowMs max reqs hits1) as [vs hits2] eqn:Hs.
  unfold verdicts_of. cbn [fst zip zip_with List.filter].
  destruct (String.eqb (key_of r) k) eqn:Hr.
  - apply String.eqb_eq in Hr. subst k. unfold key_of in *.
    destruct (limiter_agree windowMs max (req_ip r) (req_path r) (req_now r)
                hits hits' Hk) as [Hv Hh].
    cbn [serve].
    destruct (limiter windowMs max (req_ip r) (req_path r) (req_now r) hits')
      as [v' hits1'] eqn:Hl'.
    rewrite Hl in Hv, Hh. simpl in Hv, Hh. subst v'.
    specialize (IH hits1 hits1' Hh). rewrite Hs in IH. simpl in IH.
    destruct (serve windowMs max (List.filter _ reqs) hits1') as [vs' hits2'].
    simpl in *. f_equal. exact IH.
  - apply String.eqb_neq in Hr.
    assert (Hh : hits1 !! k = hits' !! k).
    { pose proof (limiter_other windowMs max (req_ip r) (req_path r) (req_now r)
                    hits k Hr) as H1.
      rewrite Hl in H1. simpl in H1. by rewrite H1. }
    specialize (IH hits1 hits' Hh). rewrite Hs in IH. exact IH.
Qed.

(** X12. The limit is per address and path: the verdicts given to the
    requests of one key are those the limiter would give if the requests
    of all other keys had never been made. *)
Theorem keys_limited_independently windowMs max k reqs hits :
  verdicts_of k reqs (fst (serve windowMs max reqs hits))
  = fst (serve windowMs max
           (List.filter (λ r, String.eqb (key_of r) k) reqs) hits).
Proof. by apply serve_by_key. Qed.

End RateLimiterFacts.

Lemma window_admits_max_witness :
  ((∅ : gmap string RateLimiter.hit) !! RateLimiter.key "10.0.0.1" "/api/snapshots" = None
   ∨ ∃ c t, (∅ : gmap string RateLimiter.hit) !! RateLimiter.key "10.0.0.1" "/api/snapshots"
            = Some (RateLimiter.Hit c t) ∧ (60000 < 1000 - t)%Z)
  ∧ Forall (λ t, (t - 1000 ≤ 60000)%Z) [2000; 61000]%Z
  ∧ fst (RateLimiter.serve 60000 2
           (map (RateLimiter.Request "10.0.0.1" "/api/snapshots") [1000; 2000; 61000]%Z) ∅)
    = [RateLimiter.Next; RateLimiter.Next; RateLimiter.TooManyRequests].
Proof.
  assert (Hk : (∅ : gmap string RateLimiter.hit)
                 !! RateLimiter.key "10.0.0.1" "/api/snapshots" = None
               ∨ ∃ c t, (∅ : gmap string RateLimiter.hit)
                          !! RateLimiter.key "10.0.0.1" "/api/snapshots"
                        = Some (RateLimiter.Hit c t) ∧ (60000 < 1000 - t)%Z)
    by (left; reflexivity).
  assert (Hts : Forall (λ t, (t - 1000 ≤ 60000)%Z) [2000; 61000]%Z)
    by (repeat constructor; lia).
  split_and!; [exact Hk | exact Hts |].
  exact (proj1 (RateLimiterFacts.window_admits_max 60000 2 "10.0.0.1" "/api/snapshots"
                  1000 [2000; 61000]%Z ∅ Hk Hts)).
Defined.

(** ** Trimming and the name sanitizer *)

Section NameFacts.

Lemma trimStart_head s :
  Str.trimStart s = ""
  ∨ ∃ c r, Str.trimStart s = String c r ∧ is_js_space c = false.
Proof.
  induction s as [|c s IH]; simpl; [by left|].
  destruct (is_js_space c) eqn:Hc; [exact IH|]. right. by exists c, s.
Qed.

Lemma trimEnd_cons c s :
  is_js_space c = false → Str.trimEnd (String c s) = String c (Str.trimEnd s).
Proof. intros Hc. simpl. rewrite Hc. by destruct (Str.trimEnd s). Qed.

Lemma trimEnd_idem s : Str.trimEnd (Str.trimEnd s) = Str.trimEnd s.
Proof.
  induction s as [|c s IH]; [done|]. simpl.
  destruct (Str.trimEnd s) as [|d t] eqn:Ht.
  - destruct (is_js_space c) eqn:Hc; [done|]. simpl. by rewrite Hc.
  - change (Str.trimEnd (String c (String d t))) with
      (match Str.trimEnd (String d t) with
       | EmptyString => if is_js_space c then EmptyString else String c EmptyString
       | t' => String c t'
       end).
    by rewrite IH.
Qed.

Lemma trim_head s :
  Str.trim s = "" ∨ ∃ c r, Str.trim s = String c r ∧ is_js_space c = false.
Proof.
  unfold Str.trim. destruct (trimStart_head s) as [-> | (c & r & -> & Hc)]; [by left|].
  right. rewrite (trimEnd_cons c r Hc). by exists c, (Str.trimEnd r).
Qed.

Lemma trim_idem s : Str.trim (Str.trim s) = Str.trim s.
Proof.
  destruct (trim_head s) as [-> | (c & r & Heq & Hc)]; [done|].
  unfold Str.trim at 1. rewrite Heq. simpl Str.trimStart. rewrite Hc.
  rewrite <- Heq. unfold Str.trim. apply trimEnd_idem.
Qed.

Lemma replace_outside_length keep by_ s :
  String.length (Str.replace_outside keep by_ s) = String.length s.
Proof. induction s as [|c s IH]; simpl; [done | by rewrite IH]. Qed.

Lemma slice0_length n s : String.length (Str.slice0 n s) = Nat.min n (String.length s).
Proof.
  unfold Str.slice0. revert n. induction s as [|c s IH]; intros [|n]; simpl; try done.
  by rewrite IH.
Qed.

Lemma slice0_all p n s : Str.all p s = true → Str.all p (Str.slice0 n s) = true.
Proof.
  unfold Str.slice0. revert n. induction s as [|c s IH]; intros [|n]; simpl; try done.
  intros [Hc Hs]%andb_true_iff. by rewrite Hc, (IH n Hs).
Qed.

Lemma slice0_short n s : String.length s ≤ n → Str.slice0 n s = s.
Proof.
  unfold Str.slice0. revert n. induction s as [|c s IH]; intros [|n]; simpl; try done.
  - lia.
  - intros Hl. rewrite IH; [done | lia].
Qed.

(** A replaced character is white space only if the original was. *)
Lemma name_replace_space c :
  is_js_space c = false → is_js_space (if name_char c then c else "_"%char) = false.
Proof. intros Hc. by destruct (name_char c). Qed.

Lemma trimStart_replaced v :
  Str.trimStart v = v →
  Str.trimStart (Str.replace_outside name_char "_" v)
  = Str.replace_outside name_char "_" v.
Proof.
  destruct v as [|c v]; [done|]. simpl.
  destruct (is_js_space c) eqn:Hc.
  - intros Heq. apply (f_equal String.length) in Heq. simpl in Heq.
    assert (Hle : ∀ s, String.length (Str.trimStart s) ≤ String.length s).
    { clear. induction s as [|d s IH]; simpl; [done|].
      destruct (is_js_space d); simpl; lia. }
    specialize (Hle v). lia.
  - intros _. by rewrite (name_replace_space c Hc).
Qed.

Lemma trimEnd_replaced v :
  Str.trimEnd v = v →
  Str.trimEnd (Str.replace_outside name_char "_" v)
  = Str.replace_outside name_char "_" v.
Proof.
  induction v as [|c v IH]; [done|]. simpl.
  destruct (Str.trimEnd v) as [|d t] eqn:Ht.
  - destruct (is_js_space c) eqn:Hc; [done|].
    intros [= <-]. simpl. by rewrite (name_replace_space c Hc).
  - intros [= Hv]. rewrite <- Hv in IH |- *. specialize (IH eq_refl).
    rewrite IH. by simpl.
Qed.

Lemma trim_fix_parts v : Str.trim v = v → Str.trimStart v = v ∧ Str.trimEnd v = v.
Proof.
  intros Hv.
  assert (Hs : Str.trimStart v = v).
  { destruct v as [|c v]; [done|].
    destruct (trim_head (String c v)) as [He | (d & r & He & Hd)];
      rewrite Hv in He; [done|].
    injection He as -> ->. simpl. by rewrite Hd. }
  split; [done|]. unfold Str.trim in Hv. by rewrite Hs in Hv.
Qed.

Lemma trim_replaced v :
  Str.trim v = v →
  Str.trim (Str.replace_outside name_char "_" v) = Str.replace_outside name_char "_" v.
Proof.
  intros [Hs He]%trim_fix_parts. unfold Str.trim.
  by rewrite (trimStart_replaced v Hs), (trimEnd_replaced v He).
Qed.

Lemma replace_outside_idem v :
  Str.replace_outside name_char "_" (Str.replace_outside name_char "_" v)
  = Str.replace_outside name_char "_" v.
Proof.
  induction v as [|c v IH]; simpl; [done|]. rewrite IH.
  by destruct (name_char c) eqn:Hc; [rewrite Hc|].
Qed.

(** X13. What [sanitizeName] returns. A blank name (empty after trimming)
    gives the timestamp; any other gives a name of 1 to 100 characters,
    each a letter, a digit, a space, an underscore or a hyphen. A name
    that is already of this form and has no white space at its ends is
    returned as it is, and sanitizing twice is the same as sanitizing once
    for every name of at most 100 characters after trimming. *)
Theorem sanitizeName_shape (now_iso input : string) :
  (Str.trim input = "" → sanitizeName now_iso input = now_iso)
  ∧ (Str.trim input ≠ "" →
     1 ≤ String.length (sanitizeName now_iso input) ≤ 100
     ∧ Str.all name_char (sanitizeName now_iso input) = true)
  ∧ (input ≠ "" → Str.trim input = input → String.length input ≤ 100 →
     Str.all name_char input = true → sanitizeName now_iso input = input)
  ∧ (Str.trim input ≠ "" → String.length (Str.trim input) ≤ 100 →
     sanitizeName now_iso (sanitizeName now_iso input) = sanitizeName now_iso input).
Proof.
  assert (Hne : ∀ v, v ≠ "" → String.eqb v "" = false)
    by (intros v Hv; by apply String.eqb_neq).
  split_and!.
  - intros Ht. unfold sanitizeName. by rewrite Ht.
  - intros Ht. unfold sanitizeName. rewrite (Hne _ Ht). split.
    + rewrite slice0_length, replace_outside_length.
      destruct (Str.trim input); [done|]. cbn [String.length]. lia.
    + apply slice0_all. by apply all_replace_outside.
  - intros Hi Ht Hl Hall. unfold sanitizeName. rewrite Ht, (Hne _ Hi).
    rewrite (replace_outside_id _ _ input Hall). by apply slice0_short.
  - intros Ht Hl. unfold sanitizeName at 2. rewrite (Hne _ Ht).
    rewrite slice0_short by (by rewrite replace_outside_length).
    unfold sanitizeName.
    rewrite (trim_replaced (Str.trim input) (trim_idem input)).
    assert (Hr : Str.replace_outside name_char "_" (Str.trim input) ≠ "")
      by (by destruct (Str.trim input)).
    by rewrite (Hne _ Hr), replace_outside_idem, (Hne _ Ht).
Qed.

End NameFacts.

(** ** Allowed origins *)

Module CorsFacts.
Import Cors.

(** X14. The list of allowed origins is never empty and holds no empty
    entry, whatever the two environment variables are set to; every entry
    taken from the environment is trimmed. A request without an origin is
    always allowed; one with an origin is allowed exactly when the origin
    is in the list, compared as it is. *)
Theorem allowed_origins_policy (FRONTEND_ORIGINS FRONTEND_ORIGIN : option string) :
  let allowed := ALLOWED_ORIGINS FRONTEND_ORIGINS FRONTEND_ORIGIN in
  allowed ≠ []
  ∧ Forall (λ o, o ≠ "" ∧ Str.trim o = o) allowed
  ∧ origin_allowed allowed None = true
  ∧ ∀ o, o ≠ "" → (origin_allowed allowed (Some o) = true ↔ In o allowed).
Proof.
  cbv zeta. split_and!.
  - unfold ALLOWED_ORIGINS.
    destruct (envOrigins FRONTEND_ORIGINS FRONTEND_ORIGIN); [discriminate | done].
  - unfold ALLOWED_ORIGINS.
    destruct (envOrigins FRONTEND_ORIGINS FRONTEND_ORIGIN) as [|o l] eqn:He.
    + simpl. unfold defaultOrigins. repeat constructor; done.
    + simpl. rewrite <- He. unfold envOrigins. apply Forall_forall.
      intros x [Hin Hx]%list_elem_of_In%filter_In. split.
      * by apply negb_true_iff, String.eqb_neq in Hx.
      * apply in_map_iff in Hin as (y & <- & _). apply trim_idem.
  - reflexivity.
  - intros o Ho. unfold origin_allowed.
    rewrite (proj2 (String.eqb_neq _ _) Ho), existsb_exists. split.
    + intros (x & Hin & ->%String.eqb_eq). done.
    + intros Hin. exists o. split; [done | apply String.eqb_refl].
Qed.

End CorsFacts.

(** ** The client's throttle *)

Module ThrottleFacts.
Import Throttle.

Lemma applied_spaced wait nows : ∀ last, spaced wait last (applied wait last nows).
Proof.
  induction nows as [|now nows IH]; intros last; simpl; [done|].
  unfold call. destruct (wait <=? now - last)%Z eqn:Hw.
  - simpl. split; [lia | apply IH].
  - apply IH.
Qed.

Lemma applied_sublist wait nows : ∀ last, applied wait last nows `sublist_of` nows.
Proof.
  induction nows as [|now nows IH]; intros last; simpl; [done|].
  unfold call. destruct (wait <=? now - last)%Z.
  - apply sublist_skip, IH.
  - apply sublist_cons, IH.
Qed.

(** X15. The throttled function lets a call through only [wait] or more
    after the last one it let through (and after time 0 for the first),
    whatever the order of the clock readings: the calls let through are
    some of the calls made, in order, each at least [wait] after the one
    before. *)
Theorem throttled_spacing wait nows :
  throttled wait nows `sublist_of` nows ∧ spaced wait 0 (throttled wait nows).
Proof. split; [apply applied_sublist | apply applied_spaced]. Qed.

(** X16. Nothing is lost when the calls are far enough apart: if each
    reading is at least [wait] after the one before, and the first at
    least [wait] after 0, every call is let through. *)
Theorem throttled_keeps_spaced wait nows :
  spaced wait 0 nows → throttled wait nows = nows.
Proof.
  unfold throttled. generalize 0%Z as last. induction nows as [|now nows IH];
    intros last; simpl; [done|].
  intros [Hw Hs]. unfold call. rewrite (proj2 (Z.leb_le _ _) Hw).
  by rewrite (IH now Hs).
Qed.

End ThrottleFacts.

Lemma throttled_keeps_spaced_witness :
  Throttle.spaced 16 0 [1000; 1016; 1040]%Z
  ∧ Throttle.throttled 16 [1000; 1016; 1040]%Z = [1000; 1016; 1040]%Z.
Proof.
  assert (Hs : Throttle.spaced 16 0 [1000; 1016; 1040]%Z) by (simpl; lia).
  split; [exact Hs|].
  exact (ThrottleFacts.throttled_keeps_spaced 16 [1000; 1016; 1040]%Z Hs).
Defined.

(** ** Snapshots in the document store *)

Module MongoSnapshotFacts.
Import MongoSnapshots.

Lemma find_app_none {A} (p : A → bool) l1 l2 :
  List.find p l1 = None → List.find p (l1 ++ l2) = List.find p l2.
Proof.
  induction l1 as [|a l1 IH]; simpl; [done|]. by destruct (p a).
Qed.

Lemma find_app_found {A} (p : A → bool) l1 l2 x :
  List.find p l1 = Some x → List.find p (l1 ++ l2) = Some x.
Proof.
  induction l1 as [|a l1 IH]; simpl; [done|]. by destruct (p a).
Qed.

Lemma find_absent {A} (p : A → bool) l :
  (∀ x, In x l → p x = false) → List.find p l = None.
Proof.
  induction l as [|a l IH]; simpl; [done|]. intros H.
  rewrite (H a (or_introl eq_refl)). apply IH. intros x Hx. apply H. by right.
Qed.

(** X17. A snapshot saved in the document store is found again under the
    id it was given, with the points the room had at save time, and from
    any room: the lookup by id does not look at the room. *)
Theorem snapshot_by_id_any_room room name oid now w snaps data room' :
  objectid_pattern oid = true →
  (∀ d, In d snaps → snap_id d ≠ oid) →
  value (mongoLoadAllPoints room w) = Ok data →
  fst (mongoSaveSnapshot room name oid now w snaps) = Ok (oid, room, name, now)
  ∧ mongoLoadSnapshot room' oid (snd (mongoSaveSnapshot room name oid now w snaps))
    = Some data.
Proof.
  intros Hp Hfresh Hd. unfold mongoSaveSnapshot. rewrite Hd. simpl.
  split; [done|]. unfold mongoLoadSnapshot. rewrite Hp.
  rewrite find_app_none.
  - simpl. by rewrite String.eqb_refl.
  - apply find_absent. intros d Hin. apply String.eqb_neq. by apply Hfresh.
Qed.

(** X18. A name that loads nothing is free: the snapshot saved under it is
    then found by its room and name, with the points the room had at save
    time. *)
Theorem snapshot_by_new_name room name oid now w snaps data :
  mongoLoadSnapshot room name snaps = None →
  value (mongoLoadAllPoints room w) = Ok data →
  mongoLoadSnapshot room name (snd (mongoSaveSnapshot room name oid now w snaps))
  = Some data.
Proof.
  intros Hnone Hd. unfold mongoSaveSnapshot. rewrite Hd. simpl.
  unfold mongoLoadSnapshot in *.
  destruct (List.find (λ d, String.eqb (snap_room d) room
                            && String.eqb (snap_name d) name) snaps) as [d|] eqn:Hn.
  { by destruct (if objectid_pattern name then _ else None). }
  destruct (objectid_pattern name).
  - destruct (List.find (λ d, String.eqb (snap_id d) name) snaps) as [d|] eqn:Hi;
      [done|].
    rewrite !find_app_none by done. simpl.
    destruct (String.eqb oid name); [done|]. by rewrite !String.eqb_refl.
  - rewrite find_app_none by done. simpl. by rewrite !String.eqb_refl.
Qed.

(** X19. The snapshot found under a key stays the one found under it:
    saving another snapshot, in any room and under any name, the same name
    included, does not change what a key already loads, unless the key is
    the id the new snapshot gets. *)
Theorem snapshot_first_wins room key snaps data room' name oid now w :
  mongoLoadSnapshot room key snaps = Some data →
  key ≠ oid →
  mongoLoadSnapshot room key (snd (mongoSaveSnapshot room' name oid now w snaps))
  = Some data.
Proof.
  intros Hsome Hne. unfold mongoSaveSnapshot.
  destruct (value (mongoLoadAllPoints room' w)) as [pts|e]; [|done]. simpl.
  unfold mongoLoadSnapshot in *.
  assert (Hid : ∀ b : bool,
    (if b then List.find (λ d, String.eqb (snap_id d) key)
                (snaps ++ [SnapDoc oid room' name pts now]) else None)
    = (if b then List.find (λ d, String.eqb (snap_id d) key) snaps else None)).
  { intros [|]; [|done].
    destruct (List.find (λ d, String.eqb (snap_id d) key) snaps) as [d|] eqn:Hi.
    - by apply find_app_found.
    - rewrite find_app_none by done. simpl.
      by rewrite (proj2 (String.eqb_neq oid key)). }
  rewrite Hid.
  destruct (if objectid_pattern key then _ else None) as [d|]; [done|].
  destruct (List.find _ snaps) as [d|] eqn:Hn; [|done].
  by rewrite (find_app_found _ _ _ d Hn).
Qed.

End MongoSnapshotFacts.

Lemma snapshot_by_id_any_room_witness :
  MongoSnapshots.objectid_pattern "64b7f0c2a1d3e4f5a6b7c8d9" = true
  ∧ (∀ d, In d [] → MongoSnapshots.snap_id d ≠ "64b7f0c2a1d3e4f5a6b7c8d9")
  ∧ value (mongoLoadAllPoints "alpha" TwoRooms.on_mongo)
    = Ok (List.concat (map doc_points (room_docs "alpha" TwoRooms.on_mongo)))
  ∧ List.length (List.concat (map doc_points (room_docs "alpha" TwoRooms.on_mongo))) = 1
  ∧ MongoSnapshots.mongoLoadSnapshot "beta" "64b7f0c2a1d3e4f5a6b7c8d9"
      (snd (MongoSnapshots.mongoSaveSnapshot "alpha" "v1" "64b7f0c2a1d3e4f5a6b7c8d9" 7
              TwoRooms.on_mongo []))
    = Some (List.concat (map doc_points (room_docs "alpha" TwoRooms.on_mongo))).
Proof.
  assert (Hf : ∀ d, In d [] → MongoSnapshots.snap_id d ≠ "64b7f0c2a1d3e4f5a6b7c8d9")
    by (intros d []).
  assert (Hd : value (mongoLoadAllPoints "alpha" TwoRooms.on_mongo)
               = Ok (List.concat (map doc_points (room_docs "alpha" TwoRooms.on_mongo))))
    by (vm_compute; reflexivity).
  split_and!; [reflexivity | exact Hf | exact Hd | vm_compute; reflexivity |].
  exact (proj2 (MongoSnapshotFacts.snapshot_by_id_any_room "alpha" "v1"
                  "64b7f0c2a1d3e4f5a6b7c8d9" 7 TwoRooms.on_mongo [] _ "beta"
                  eq_refl Hf Hd)).
Defined.

Lemma snapshot_by_new_name_witness :
  MongoSnapshots.mongoLoadSnapshot "alpha" "v1" [] = None
  ∧ value (mongoLoadAllPoints "alpha" empty_world) = Ok []
  ∧ MongoSnapshots.mongoLoadSnapshot "alpha" "v1"
      (snd (MongoSnapshots.mongoSaveSnapshot "alpha" "v1" "64b7f0c2a1d3e4f5a6b7c8d9" 7
              empty_world []))
    = Some [].
Proof.
  split_and!; [reflexivity | reflexivity |].
  exact (MongoSnapshotFacts.snapshot_by_new_name "alpha" "v1" "64b7f0c2a1d3e4f5a6b7c8d9" 7
           empty_world [] [] eq_refl eq_refl).
Defined.

Lemma snapshot_first_wins_witness :
  MongoSnapshots.mongoLoadSnapshot "alpha" "v1"
    [MongoSnapshots.SnapDoc "64b7f0c2a1d3e4f5a6b7c8d9" "alpha" "v1" [Sample.s1_start] 7]
  = Some [Sample.s1_start]
  ∧ "v1" ≠ "64b7f0c2a1d3e4f5a6b7c8da"
  ∧ MongoSnapshots.mongoLoadSnapshot "alpha" "v1"
      (snd (MongoSnapshots.mongoSaveSnapshot "alpha" "v1" "64b7f0c2a1d3e4f5a6b7c8da" 8
              empty_world
              [MongoSnapshots.SnapDoc "64b7f0c2a1d3e4f5a6b7c8d9" "alpha" "v1"
                 [Sample.s1_start] 7]))
    = Some [Sample.s1_start].
Proof.
  assert (Hne : "v1" ≠ "64b7f0c2a1d3e4f5a6b7c8da") by discriminate.
  split_and!; [reflexivity | exact Hne |].
  exact (MongoSnapshotFacts.snapshot_first_wins "alpha" "v1"
           [MongoSnapshots.SnapDoc "64b7f0c2a1d3e4f5a6b7c8d9" "alpha" "v1"
              [Sample.s1_start] 7]
           [Sample.s1_start] "alpha" "v1"
           "64b7f0c2a1d3e4f5a6b7c8da" 8 empty_world eq_refl Hne).
Defined.

(** ** The REST handlers and the snapshot files *)

Section RestFacts.
Context (E : env).

Lemma try_catch_500 (m : M response) w :
  value (try_catch m (λ _, ret Resp500) w)
  = match value (m w) with
    | Ok r => Ok r
    | Throw _ => Ok Resp500
    end.
Proof. unfold try_catch, value. by destruct (m w) as [[r|e] w1]. Qed.

Lemma sanitizeName_nonblank iso iso' input :
  Str.trim input ≠ "" →
  sanitizeName iso input = sanitizeName iso' input ∧ sanitizeName iso input ≠ "".
Proof.
  intros Ht. unfold sanitizeName. rewrite (proj2 (String.eqb_neq _ _) Ht).
  split; [done|]. intros Heq. apply (f_equal String.length) in Heq.
  rewrite slice0_length, replace_outside_length in Heq.
  destruct (Str.trim input); [done|]. cbn [String.length] in Heq. lia.
Qed.

Lemma post_snapshots_named room_field name_field w :
  Str.trim name_field ≠ "" →
  post_snapshots E room_field name_field w
  = try_catch (let* r := saveSnapshotFile E (sanitizeRoom room_field)
                           (sanitizeName "" name_field) in ret (RespSaved r))
              (λ _, ret Resp500) w.
Proof.
  intros Ht. unfold post_snapshots. rewrite (proj2 (String.eqb_neq _ _) Ht).
  unfold bind at 1. simpl.
  by rewrite (proj1 (sanitizeName_nonblank (toISOString E 0) "" name_field Ht)).
Qed.

Lemma get_snapshot_named room_param key w :
  Str.trim key ≠ "" →
  get_snapshot E room_param key w
  = try_catch (let* data := loadSnapshotFile E (sanitizeRoom room_param)
                              (sanitizeName "" key) in
               match data with
               | None => ret Resp404
               | Some v => ret (RespData v)
               end)
              (λ _, ret Resp500) w.
Proof.
  intros Ht. unfold get_snapshot. rewrite (proj2 (String.eqb_neq _ _) Ht).
  unfold bind at 1. simpl.
  by rewrite (proj1 (sanitizeName_nonblank (toISOString E 0) "" key Ht)).
Qed.

Lemma saved_or_500 room nm w0 :
  value (try_catch (let* r := saveSnapshotFile E room nm in ret (RespSaved r))
                   (λ _, ret Resp500) w0)
  = match value (saveSnapshotFile E room nm w0) with
    | Ok r => Ok (RespSaved r)
    | Throw _ => Ok Resp500
    end.
Proof.
  rewrite try_catch_500. unfold bind, value.
  by destruct (saveSnapshotFile E room nm w0) as [[r|e] w1].
Qed.

Lemma data_or_404_or_500 room nm w0 :
  value (try_catch (let* data := loadSnapshotFile E room nm in
                    match data with
                    | None => ret Resp404
                    | Some v => ret (RespData v)
                    end)
                   (λ _, ret Resp500) w0)
  = match value (loadSnapshotFile E room nm w0) with
    | Ok (Some v) => Ok (RespData v)
    | Ok None => Ok Resp404
    | Throw _ => Ok Resp500
    end.
Proof.
  rewrite try_catch_500. unfold bind, value.
  by destruct (loadSnapshotFile E room nm w0) as [[[v|]|e] w1].
Qed.

Lemma js_String_throws v e : js_String E v = Throw e → e = TypeError.
Proof.
  revert e. induction v as [| | | |items IH|fs _] using json_ind_nested;
    try (intros e; discriminate).
  - assert (Hcase : ∀ (r : result string) (a : string) e,
              match r with
              | Ok b => Ok (a +:+ "," +:+ b)
              | Throw e0 => Throw e0
              end = Throw e → r = Throw e)
      by (intros [b|e0] a0 e1; [discriminate | done]).
    simpl. induction IH as [|x rest Hx _ IHrest]; intros e; [discriminate|].
    destruct (match x with JNull => Ok "" | _ => js_String E x end) as [a|e'] eqn:Hx'.
    + destruct rest as [|y rest']; [discriminate|].
      intros H. apply IHrest. exact (Hcase _ _ _ H).
    + intros [= <-]. destruct x; try discriminate Hx'; by apply Hx.
  - intros e. simpl. destruct (field "toString" fs); [by intros [= <-] | discriminate].
Qed.

Lemma String_or_empty_throws x e : String_or_empty E x = Throw e → e = TypeError.
Proof.
  destruct x as [v|]; [|discriminate]. simpl.
  destruct (truthy v); [apply js_String_throws | discriminate].
Qed.


(** A body whose name is an object with a property [toString] of its own:
    the handler throws before its [try], and writes nothing. *)
Example post_with_unconvertible_name :
  post_snapshots_request Sample.E_file
    (JObj [("room", JStr "alpha"); ("name", JObj [("toString", JNum 1)])]) empty_world
  = (Throw TypeError, empty_world).
Proof. reflexivity. Qed.

(** X21. Saving and loading through the REST endpoints: a snapshot posted
    under a name that is not blank, when the write succeeds, is answered
    with the sanitized room and name, and a later request for the same
    room and name is answered with what the room's log held at the time
    of the save. The name returned by the save loads it too when the
    trimmed name has at most 100 characters. *)
Theorem rest_snapshot_round_trip room_field name_field w saved :
  let room := sanitizeRoom room_field in
  let name := sanitizeName "" name_field in
  let w' := after (post_snapshots E room_field name_field w) in
  Str.trim name_field ≠ "" →
  file_log E room w = Ok saved →
  write_fails E (snapshotFile E room name) = false →
  value (post_snapshots E room_field name_field w)
  = Ok (RespSaved (room, name, snapshotFile E room name))
  ∧ value (get_snapshot E room_field name_field w') = Ok (RespData saved)
  ∧ (String.length (Str.trim name_field) ≤ 100 →
     value (get_snapshot E room_field name w') = Ok (RespData saved)).
Proof.
  intros room name w' Ht Hlog Hw.
  destruct (sanitizeName_nonblank "" "" name_field Ht) as [_ Hn].
  assert (Hpost : post_snapshots E room_field name_field w
                  = (Ok (RespSaved (room, name, snapshotFile E room name)),
                     set_files (λ fs, <[snapshotFile E room name :=
                        Text (SSnap room name saved
                                (clock E (ticks (after (loadStrokes E room w)))))]> fs)
                       (set_ticks S (after (loadStrokes E room w))))).
  { rewrite (post_snapshots_named _ _ _ Ht). unfold try_catch, bind.
    fold room name. rewrite (saveSnapshotFile_unfold E room name w Hn).
    cbv zeta. by rewrite Hlog, Hw. }
  assert (Hget : value (get_snapshot E room_field name_field w') = Ok (RespData saved)).
  { rewrite (get_snapshot_named _ _ _ Ht). unfold try_catch, bind.
    fold room name. rewrite loadSnapshotFile_unfold.
    unfold w', after. rewrite Hpost. simpl. by rewrite lookup_insert_eq. }
  split_and!; [by rewrite Hpost | exact Hget |].
  intros Hl.
  assert (Hfix : sanitizeName "" name = name).
  { unfold name, sanitizeName. rewrite (proj2 (String.eqb_neq _ _) Ht).
    rewrite (slice0_short 100 (Str.replace_outside _ _ (Str.trim name_field)))
      by (by rewrite replace_outside_length).
    rewrite (trim_replaced (Str.trim name_field) (trim_idem name_field)).
    assert (Hr : Str.replace_outside name_char "_" (Str.trim name_field) ≠ "")
      by (by destruct (Str.trim name_field)).
    rewrite (proj2 (String.eqb_neq _ _) Hr), replace_outside_idem.
    apply slice0_short. by rewrite replace_outside_length. }
  assert (Htn : Str.trim name ≠ "").
  { intros Hb. unfold sanitizeName in Hfix at 1. rewrite Hb in Hfix. simpl in Hfix.
    apply Hn. symmetry. exact Hfix. }
  rewrite (get_snapshot_named _ _ _ Htn), Hfix. unfold try_catch, bind.
  fold room. rewrite loadSnapshotFile_unfold.
  unfold w', after. rewrite Hpost. simpl. by rewrite lookup_insert_eq.
Qed.

Lemma prefix_app a b : String.prefix a (a +:+ b) = true.
Proof.
  induction a as [|c a IH]; [by destruct b|].
  change (String.prefix (String c a) (String c (a +:+ b)) = true).
  cbn [String.prefix]. destruct (ascii_dec c c); [exact IH | done].
Qed.

Lemma string_app_nil_r a : a +:+ "" = a.
Proof.
  induction a as [|c a IH]; [done|].
  change (String c (a +:+ "") = String c a). by rewrite IH.
Qed.

Lemma string_app_assoc a b c : (a +:+ b) +:+ c = a +:+ (b +:+ c).
Proof.
  induction a as [|x a IH]; [done|].
  change (String x ((a +:+ b) +:+ c) = String x (a +:+ (b +:+ c))). by rewrite IH.
Qed.

Lemma rev_app_acc a : ∀ acc, String.rev_app a acc = String.rev_app a "" +:+ acc.
Proof.
  induction a as [|x a IH]; intros acc; [done|].
  change (String.rev_app a (String x acc) = String.rev_app a (String x "") +:+ acc).
  rewrite (IH (String x acc)), (IH (String x "")), string_app_assoc. done.
Qed.

Lemma rev_app_app a b : ∀ acc,
  String.rev_app (a +:+ b) acc = String.rev_app b (String.rev_app a acc).
Proof.
  induction a as [|x a IH]; intros acc; [done|].
  change (String.rev_app (a +:+ b) (String x acc)
          = String.rev_app b (String.rev_app a (String x acc))).
  apply IH.
Qed.

Lemma string_rev_app a b : String.rev (a +:+ b) = String.rev b +:+ String.rev a.
Proof. unfold String.rev. by rewrite rev_app_app, rev_app_acc. Qed.

Lemma endsWith_app a b : Str.endsWith b (a +:+ b) = true.
Proof. unfold Str.endsWith. rewrite string_rev_app. apply prefix_app. Qed.

Lemma entry_of_child dir n : entry_of dir (dir ++ [n]) = Some n.
Proof. unfold entry_of. rewrite last_snoc. by rewrite decide_True. Qed.

Lemma map_M_pure {A B} (f : A → M B) (xs : list A) (w : world) l :
  (∀ y w', after (f y w') = w') →
  value (map_M f xs w) = Ok l →
  Forall2 (λ x y, value (f x w) = Ok y) xs l.
Proof.
  intros Hpure. revert l. induction xs as [|x xs IH]; intros l.
  - simpl. intros [= <-]. constructor.
  - simpl. unfold bind at 1.
    pose proof (Hpure x w) as Hw. unfold after in Hw.
    destruct (f x w) as [[b|e] w1] eqn:Hx; simpl in Hw; subst w1; [|done].
    unfold bind at 1.
    destruct (map_M f xs w) as [[bs|e] w2] eqn:Hxs; [|done].
    simpl. intros [= <-]. constructor.
    + unfold value. by rewrite Hx.
    + apply IH. done.
Qed.

(** X22. A snapshot just saved is in the list of its room: when the
    listing that follows the save succeeds, it holds the room, the name
    and the time of the saved snapshot. *)
Theorem saved_snapshot_is_listed room name w saved l :
  valid_room room → name ≠ "" →
  file_log E room w = Ok saved →
  write_fails E (snapshotFile E room name) = false →
  value (listSnapshotsFile E room (after (saveSnapshotFile E room name w))) = Ok l →
  In (Some (room, name, clock E (ticks w))) l.
Proof.
  intros Hroom%room_pattern_valid Hn Hlog Hw.
  rewrite (saveSnapshotFile_unfold E room name w Hn). cbv zeta. rewrite Hlog, Hw.
  assert (Hticks : ticks (after (loadStrokes E room w)) = ticks w).
  { pose proof (loadStrokes_beside E room w) as Hb. unfold beside_files in Hb.
    by injection Hb. }
  rewrite Hticks.
  set (snap := SSnap room name saved (clock E (ticks w))).
  set (w' := after (_, set_files _ _)).
  assert (Hfile : files w' !! snapshotFile E room name = Some (Text snap)).
  { unfold w'. simpl. by rewrite lookup_insert_eq. }
  unfold listSnapshotsFile, readdirSync, gets. unfold bind at 1.
  intros Hl. apply map_M_pure in Hl.
  2:{ intros y w0. unfold bind, readJson, after.
      by destruct (files w0 !! join (snapshotsDir E) y) as [[v| |]|]. }
  assert (Hin : snapshot_name room name
                ∈ List.filter (λ f, Str.startsWith (room +:+ "__") f
                                    && Str.endsWith ".json" f)
                    (omap (λ kv, entry_of (snapshotsDir E) (fst kv))
                       (map_to_list (files w')))).
  { apply list_elem_of_In, filter_In. split.
    - apply list_elem_of_In, list_elem_of_omap.
      exists (snapshotFile E room name, Text snap). split.
      + by apply elem_of_map_to_list.
      + simpl. rewrite (snapshotFile_child E room name Hroom). apply entry_of_child.
    - apply andb_true_iff. unfold snapshot_name. split.
      + unfold Str.startsWith. rewrite <- string_app_assoc. apply prefix_app.
      + rewrite <- !string_app_assoc. apply endsWith_app. }
  apply list_elem_of_lookup in Hin as [i Hi].
  destruct (Forall2_lookup_l _ _ _ _ _ Hl Hi) as (y & Hy & Hval).
  apply list_elem_of_In, (list_elem_of_lookup_2 _ i).
  rewrite Hy. f_equal.
  unfold bind, readJson, value in Hval.
  change (join (snapshotsDir E) (snapshot_name room name))
    with (snapshotFile E room name) in Hval.
  rewrite Hfile in Hval. simpl in Hval. by injection Hval as <-.
Qed.

End RestFacts.

Lemma rest_snapshot_round_trip_witness :
  Str.trim " first draft! " ≠ ""
  ∧ file_log Sample.E_file (sanitizeRoom "alpha")
      (Sample.with_log [Sample.s1_start; Sample.s1_draw])
    = Ok (SArr [Sample.s1_start; Sample.s1_draw])
  ∧ write_fails Sample.E_file
      (snapshotFile Sample.E_file (sanitizeRoom "alpha")
         (sanitizeName "" " first draft! ")) = false
  ∧ value (post_snapshots Sample.E_file "alpha" " first draft! "
             (Sample.with_log [Sample.s1_start; Sample.s1_draw]))
    = Ok (RespSaved ("alpha", "first draft_",
                     ["srv"; "snapshots"; "alpha__first_draft_.json"]))
  ∧ value (get_snapshot Sample.E_file "alpha" " first draft! "
             (after (post_snapshots Sample.E_file "alpha" " first draft! "
                       (Sample.with_log [Sample.s1_start; Sample.s1_draw]))))
    = Ok (RespData (SArr [Sample.s1_start; Sample.s1_draw])).
Proof.
  assert (Ht : Str.trim " first draft! " ≠ "") by (vm_compute; discriminate).
  assert (Hlog : file_log Sample.E_file (sanitizeRoom "alpha")
                   (Sample.with_log [Sample.s1_start; Sample.s1_draw])
                 = Ok (SArr [Sample.s1_start; Sample.s1_draw]))
    by (vm_compute; reflexivity).
  split_and!; [exact Ht | exact Hlog | reflexivity | |].
  - exact (proj1 (rest_snapshot_round_trip Sample.E_file "alpha" " first draft! "
                    _ _ Ht Hlog eq_refl)).
  - exact (proj1 (proj2 (rest_snapshot_round_trip Sample.E_file "alpha" " first draft! "
                           _ _ Ht Hlog eq_refl))).
Defined.

Lemma saved_snapshot_is_listed_witness :
  valid_room "alpha" ∧ "v1" ≠ ""
  ∧ file_log Sample.E_file "alpha" (Sample.with_log [Sample.s1_start])
    = Ok (SArr [Sample.s1_start])
  ∧ write_fails Sample.E_file (snapshotFile Sample.E_file "alpha" "v1") = false
  ∧ value (listSnapshotsFile Sample.E_file "alpha"
             (after (saveSnapshotFile Sample.E_file "alpha" "v1"
                       (Sample.with_log [Sample.s1_start]))))
    = Ok [Some ("alpha", "v1", 0%Z)]
  ∧ In (Some ("alpha", "v1", clock Sample.E_file
                               (ticks (Sample.with_log [Sample.s1_start]))))
       [Some ("alpha", "v1", 0%Z)].
Proof.
  assert (Hv : valid_room "alpha") by (apply room_pattern_valid; reflexivity).
  assert (Hn : "v1" ≠ "") by discriminate.
  assert (Hlog : file_log Sample.E_file "alpha" (Sample.with_log [Sample.s1_start])
                 = Ok (SArr [Sample.s1_start])) by (vm_compute; reflexivity).
  assert (Hl : value (listSnapshotsFile Sample.E_file "alpha"
                        (after (saveSnapshotFile Sample.E_file "alpha" "v1"
                                  (Sample.with_log [Sample.s1_start]))))
               = Ok [Some ("alpha", "v1", 0%Z)]) by (vm_compute; reflexivity).
  split_and!; [exact Hv | exact Hn | exact Hlog | reflexivity | exact Hl |].
  exact (saved_snapshot_is_listed Sample.E_file "alpha" "v1" _ _ _ Hv Hn Hlog eq_refl Hl).
Defined.


(** ** Cursors, joins and leaves *)

Section CursorFacts.
Context (E : env).

Lemma field_set_field k k' v fs :
  field k (Obj.set_field k' v fs) = if decide (k' = k) then Some v else field k fs.
Proof.
  induction fs as [|[k0 x] fs IH]; simpl.
  - done.
  - destruct (decide (k0 = k')) as [->|Hne]; simpl.
    + by destruct (decide (k' = k)).
    + rewrite IH. destruct (decide (k0 = k)) as [->|]; [|done].
      by rewrite decide_False.
Qed.

Lemma field_app k a b :
  field k (a ++ b) = match field k a with Some v => Some v | None => field k b end.
Proof.
  induction a as [|[k0 x] a IH]; simpl; [done|]. by destruct (decide (k0 = k)).
Qed.

Lemma field_fold k fs : ∀ acc,
  field k (fold_left (λ acc kv, Obj.set_field (fst kv) (snd kv) acc) fs acc)
  = match field k (reverse fs) with
    | Some v => Some v
    | None => field k acc
    end.
Proof.
  induction fs as [|[k0 x] fs IH]; intros acc; simpl; [done|].
  rewrite IH, reverse_cons, field_app, field_set_field. simpl.
  destruct (field k (reverse fs)); [done|]. by destruct (decide (k0 = k)).
Qed.

(** X23. The cursor message relayed to the others of the room carries an
    [id]: the sender's socket id, unless the data the client sent has an
    [id] of its own, which then takes its place, the data being spread
    over the id. Nothing else changes: a cursor move is not stored. *)
Theorem cursor_carries_id id room data w :
  room_of id w = Some room →
  ∃ payload,
    step E w (Cursor id data)
    = set_outbox (λ o, o ++ map (λ i, Emission i "cursor" (JObj payload))
                               (others id room w)) w
    ∧ field "id" payload
      = Some (default (JStr id) (field "id" (reverse (Obj.spread data)))).
Proof.
  intros Hr. unfold step, handle. rewrite (with_room_some id room _ w Hr).
  eexists. split; [reflexivity|].
  rewrite field_fold. by destruct (field "id" (reverse (Obj.spread data))).
Qed.

(** X24. Joins, cursor moves and disconnections store nothing: after any
    event other than draw, clear, undo and applySnapshot the files and the
    stroke collection are what they were, and so is the log of every
    room. *)
Theorem only_writes_store ev w :
  writes ev = false →
  files (step E w ev) = files w ∧ strokes (step E w ev) = strokes w
  ∧ ∀ r, persisted_log E r (step E w ev) = persisted_log E r w.
Proof.
  intros Hev.
  assert (H : files (step E w ev) = files w ∧ strokes (step E w ev) = strokes w).
  { destruct ev as [id raw|id data|id|id|id history|id data|id]; try discriminate Hev.
    - unfold step, handle.
      by destruct (on_connection_effect E id raw w) as (_ & _ & Hs & _ & Hf).
    - destruct (room_of id w) as [room|] eqn:Hr.
      + unfold step, handle. by rewrite (with_room_some id room _ w Hr).
      + by rewrite step_unconnected.
    - destruct (room_of id w) as [room|] eqn:Hr.
      + unfold step, handle. by rewrite (with_room_some id room _ w Hr).
      + by rewrite step_unconnected. }
  destruct H as [Hf Hs]. split_and!; [done | done |].
  intros r. by apply persisted_log_same.
Qed.

End CursorFacts.

Lemma cursor_carries_id_witness :
  room_of "A" TwoRooms.on_files = Some "alpha"
  ∧ ∃ payload,
      step Sample.E_file TwoRooms.on_files
        (Cursor "A" (JObj [("x", JNum 3); ("id", JStr "B")]))
      = set_outbox (λ o, o ++ map (λ i, Emission i "cursor" (JObj payload))
                                 (others "A" "alpha" TwoRooms.on_files))
          TwoRooms.on_files
      ∧ field "id" payload = Some (JStr "B").
Proof.
  split; [reflexivity|].
  exact (cursor_carries_id Sample.E_file "A" "alpha"
           (JObj [("x", JNum 3); ("id", JStr "B")]) TwoRooms.on_files eq_refl).
Defined.

Lemma only_writes_store_witness :
  writes (Connection "D" (Some "alpha")) = false
  ∧ files (step Sample.E_file TwoRooms.on_files (Connection "D" (Some "alpha")))
    = files TwoRooms.on_files.
Proof.
  split; [reflexivity|].
  exact (proj1 (only_writes_store Sample.E_file (Connection "D" (Some "alpha"))
                  TwoRooms.on_files eq_refl)).
Defined.
